(** * unmht-aws: grid detector, cell assigner and time-entry analytics

    A shallow embedding of [analytics.go] (the image "priming" code that
    detects the table skeleton, the scan of OCR detections into entries, the
    date/time parsing and the report generation), followed by the properties
    of the specification that were checked against it.

    Conventions of the embedding:
    - Go's [int], [int64] and [time.Duration] are 64-bit two's complement
      integers: they are modelled as [Z], every arithmetic operation of the
      source being followed by [Int64.wrap].
    - Slices of pointers ([Rows], [Cols]) that the source mutates in place are
      lists that are rebuilt: the source never keeps two live views of a
      slice whose contents differ.
    - A function that returns [(T, error)] returns a [result T]; a run-time
      panic (index out of range, nil dereference, explicit [panic]) is the
      third constructor. *)

From Stdlib Require Import ZArith List String Ascii Bool Lia Floats Permutation.
Import ListNotations.
Open Scope Z_scope.

(* ================================================================== *)
(** ** Machine integers *)

Module Int64.

Definition min_int : Z := - 2 ^ 63.
Definition max_int : Z := 2 ^ 63 - 1.

(** Two's complement wrap-around of a mathematical integer. *)
Definition wrap (z : Z) : Z := (z + 2 ^ 63) mod 2 ^ 64 - 2 ^ 63.

Definition add (a b : Z) : Z := wrap (a + b).
Definition sub (a b : Z) : Z := wrap (a - b).
Definition neg (a : Z) : Z := wrap (- a).
Definition mul (a b : Z) : Z := wrap (a * b).
(** Go's [/] and [%] truncate towards zero. *)
Definition quot (a b : Z) : Z := wrap (Z.quot a b).
Definition rem (a b : Z) : Z := Z.rem a b.

Definition in_range (z : Z) : Prop := min_int <= z <= max_int.

End Int64.

(** [for x := lo; x < hi; x++]: the values the loop variable takes when the
    body does not leave the loop early. *)
Definition zrange (lo hi : Z) : list Z :=
  map (fun i => lo + Z.of_nat i) (seq 0 (Z.to_nat (hi - lo))).

(* ================================================================== *)
(** ** Errors and results *)

(** Reasons for which [time.Parse] rejects a value. *)
Inductive ParseError : Type :=
| BadValue                      (* errBad: the value does not match the layout *)
| OutOfRange (field : string)   (* "month out of range", "day out of range", ... *)
| ExtraText (rest : string).    (* text left after the layout is exhausted *)

Inductive error : Type :=
| ErrNotFound                               (* ErrNotFound *)
| ErrFirstRowNotFound                       (* "first row not found" *)
| ErrFirstColNotFound                       (* "first col not found" *)
| ErrUnexpectedDateFormat (s : string)      (* "unexpected date format: %v" *)
| ErrFailedToParseDate (e : ParseError)     (* "failed to parse date: %v" *)
| ErrTimeParse (e : ParseError)             (* the error of time.Parse, as is *)
| ErrBothTimesEmpty                         (* "both times are empty" *)
| ErrBothTimesNonEmpty.                     (* "both times are non-empty" *)

Inductive result (A : Type) : Type :=
| Ok (a : A)
| Err (e : error)
| Panic.

Arguments Ok {A} a.
Arguments Err {A} e.
Arguments Panic {A}.

Definition bind {A B : Type} (r : result A) (k : A -> result B) : result B :=
  match r with
  | Ok a => k a
  | Err e => Err e
  | Panic => Panic
  end.

Notation "x <- e ;; k" := (bind e (fun x => k))
  (at level 61, e at next level, right associativity).

(** [s[i]] on a slice: a panic out of range. *)
Definition index {A : Type} (l : list A) (i : Z) : result A :=
  if i <? 0 then Panic
  else match nth_error l (Z.to_nat i) with
       | Some a => Ok a
       | None => Panic
       end.

(** [s[i] = v] through [f]: the slice with its [i]-th element replaced. *)
Fixpoint update {A : Type} (l : list A) (i : nat) (f : A -> A) : list A :=
  match l, i with
  | [], _ => []
  | a :: l', O => f a :: l'
  | a :: l', S i' => a :: update l' i' f
  end.

(* ================================================================== *)
(** ** Images ([image.NRGBA]) *)

Record NRGBA : Type := mkNRGBA { R : Z; G : Z; B : Z; A : Z }.

(** [color.NRGBAModel.Convert(color.White)] and [...(color.Black)]. *)
Definition white : NRGBA := mkNRGBA 255 255 255 255.
Definition black : NRGBA := mkNRGBA 0 0 0 255.

Definition NRGBA_eqb (c d : NRGBA) : bool :=
  (R c =? R d) && (G c =? G d) && (B c =? B d) && (A c =? A d).

Record Rectangle : Type :=
  mkRect { MinX : Z; MinY : Z; MaxX : Z; MaxY : Z }.

Definition Dx (r : Rectangle) : Z := Int64.sub (MaxX r) (MinX r).
Definition Dy (r : Rectangle) : Z := Int64.sub (MaxY r) (MinY r).

(** [image.Rect]: the corners are put in order. *)
Definition image_Rect (x0 y0 x1 y1 : Z) : Rectangle :=
  let '(x0, x1) := if x1 <? x0 then (x1, x0) else (x0, x1) in
  let '(y0, y1) := if y1 <? y0 then (y1, y0) else (y0, y1) in
  mkRect x0 y0 x1 y1.

(** An image is its bounds and its pixel store. *)
Record Image : Type := mkImage { Bounds : Rectangle; Pix : Z -> Z -> NRGBA }.

Definition inside (r : Rectangle) (x y : Z) : bool :=
  (MinX r <=? x) && (x <? MaxX r) && (MinY r <=? y) && (y <? MaxY r).

(** [NRGBA.At]: the zero colour outside the bounds. *)
Definition At (img : Image) (x y : Z) : NRGBA :=
  if inside (Bounds img) x y then Pix img x y else mkNRGBA 0 0 0 0.

(** [NRGBA.Set]: nothing happens outside the bounds. *)
Definition SetPix (img : Image) (x y : Z) (c : NRGBA) : Image :=
  if inside (Bounds img) x y
  then mkImage (Bounds img)
         (fun x' y' => if (x' =? x) && (y' =? y) then c else Pix img x' y')
  else img.

(* ================================================================== *)
(** ** The skeleton: rows and columns *)

Module Row.
Record t : Type := mk { Num : Z; Top : Z; Bottom : Z }.
End Row.

Module Col.
Record t : Type := mk { Num : Z; Left : Z; Right : Z }.
End Col.

Definition Row : Type := Row.t.
Definition Col : Type := Col.t.
Definition Rows : Type := list Row.
Definition Cols : Type := list Col.

Record Skeleton : Type :=
  mkSkeleton { W : Z; H : Z; SRows : Rows; SCols : Cols }.

Module Rows.

(** [func (rs Rows) Find(y int) (int, error)] *)
Fixpoint Find (rs : Rows) (y : Z) : result Z :=
  match rs with
  | [] => Err ErrNotFound
  | r :: rs' =>
      if (Row.Top r <=? y) && (y <=? Row.Bottom r) then Ok (Row.Num r)
      else Find rs' y
  end.

(** [func (rs Rows) Shift(offset int)]: the rows after the call. *)
Definition Shift (rs : Rows) (offset : Z) : Rows :=
  map (fun r => Row.mk (Row.Num r)
                  (Int64.add (Row.Top r) offset)
                  (Int64.add (Row.Bottom r) offset)) rs.

End Rows.

Module Cols.

(** [func (cs Cols) Find(x int) (int, error)] *)
Fixpoint Find (cs : Cols) (x : Z) : result Z :=
  match cs with
  | [] => Err ErrNotFound
  | c :: cs' =>
      if (Col.Left c <=? x) && (x <=? Col.Right c) then Ok (Col.Num c)
      else Find cs' x
  end.

(** [func (cs Cols) Shift(offset int)]: the columns after the call. *)
Definition Shift (cs : Cols) (offset : Z) : Cols :=
  map (fun c => Col.mk (Col.Num c)
                  (Int64.add (Col.Left c) offset)
                  (Int64.add (Col.Right c) offset)) cs.

End Cols.

(** [Col.Split] *)
Definition Split (c : Col) : Cols :=
  let size := Int64.sub (Col.Right c) (Col.Left c) in
  let c1 := Col.mk (Col.Num c) (Col.Left c)
              (Int64.sub (Col.Right c) (Int64.quot size 2)) in
  let c2 := Col.mk (Int64.add (Col.Num c) 1) (Col.Right c1) (Col.Right c) in
  [c1; c2].

(* ================================================================== *)
(** ** The grid detector *)

(** The loop of [findRow0] over the remaining values of [y]. *)
Fixpoint findRow0_loop (img : Image) (ys : list Z) : result Z :=
  match ys with
  | [] => Err ErrFirstRowNotFound
  | y :: ys' =>
      if negb (NRGBA_eqb (At img 0 y) white) then Ok y
      else findRow0_loop img ys'
  end.

Definition findRow0 (img : Image) : result Z :=
  findRow0_loop img (zrange 0 (MaxY (Bounds img))).

Fixpoint findCol0_loop (img : Image) (row0 : Z) (xs : list Z) : result Z :=
  match xs with
  | [] => Err ErrFirstColNotFound
  | x :: xs' =>
      if NRGBA_eqb (At img x row0) black then Ok x
      else findCol0_loop img row0 xs'
  end.

Definition findCol0 (img : Image) (row0 : Z) : result Z :=
  findCol0_loop img row0 (zrange 3 (MaxX (Bounds img))).

Definition maxHeight : Z := 50.

(** The loop of [findRows]: [curr] is the open row, [rows] the closed ones. *)
Fixpoint findRows_loop (img : Image) (xmax : Z) (ys : list Z)
    (curr : Row) (rows : Rows) : Rows :=
  match ys with
  | [] => rows
  | y :: ys' =>
      if negb (NRGBA_eqb (At img xmax y) black) then
        if Int64.sub y (Row.Top curr) >? maxHeight then rows   (* break *)
        else findRows_loop img xmax ys' curr rows              (* continue *)
      else
        let rows' := rows ++ [Row.mk (Row.Num curr) (Row.Top curr) y] in
        findRows_loop img xmax ys' (Row.mk (Z.of_nat (List.length rows')) y 0) rows'
  end.

Definition findRows (img : Image) (row0 : Z) : Rows :=
  let xmax := Int64.sub (MaxX (Bounds img)) 5 in
  let ymax := MaxY (Bounds img) in
  findRows_loop img xmax (zrange (Int64.add row0 1) ymax) (Row.mk 0 row0 0) [].

(** [isCol]: the plus-shaped marker, four arms of five black pixels. *)
Definition isCol (img : Image) (x y : Z) : bool :=
  forallb (fun i =>
      NRGBA_eqb (At img (Int64.add x i) y) black
      && NRGBA_eqb (At img (Int64.sub x i) y) black
      && NRGBA_eqb (At img x (Int64.add y i)) black
      && NRGBA_eqb (At img x (Int64.sub y i)) black)
    (zrange 0 5).

Fixpoint findCols_loop (img : Image) (row0 : Z) (xs : list Z)
    (curr : Col) (cols : Cols) : Cols :=
  match xs with
  | [] => cols
  | x :: xs' =>
      if negb (isCol img x row0) then findCols_loop img row0 xs' curr cols
      else
        let cols' := cols ++ [Col.mk (Col.Num curr) (Col.Left curr) x] in
        if Z.of_nat (List.length cols') =? 3 then cols'               (* break *)
        else findCols_loop img row0 xs'
               (Col.mk (Z.of_nat (List.length cols')) x 0) cols'
  end.

Definition findCols (img : Image) (row0 col0 : Z) : Cols :=
  let xmax := MaxX (Bounds img) in
  findCols_loop img row0 (zrange (Int64.add col0 1) xmax) (Col.mk 0 col0 0) [].

(* ================================================================== *)
(** ** Cleaning, cropping and priming *)

(** [for x := 0; x < xmax; x++ { img.Set(x, y, white) }] *)
Definition clean_row (img : Image) (xmax : Z) (y : Z) : Image :=
  fold_left (fun im x => SetPix im x y white) (zrange 0 xmax) img.

(** [for y := 0; y < ymax; y++ { img.Set(x, y, white) }] *)
Definition clean_col (img : Image) (ymax : Z) (x : Z) : Image :=
  fold_left (fun im y => SetPix im x y white) (zrange 0 ymax) img.

(** [clean]: the image after the call. *)
Definition clean (img : Image) (rows : Rows) (cols : Cols) : Image :=
  let xmax := MaxX (Bounds img) in
  let ymax := MaxY (Bounds img) in
  let img1 := fold_left (fun im r => clean_row im xmax (Row.Top r)) rows img in
  fold_left (fun im c => clean_col im ymax (Col.Right c)) cols img1.

(** [draw]: only the bounds of the cropped image are modelled (its pixels are
    computed by the [gift] filters). [image.NewRGBA] panics when the buffer
    length [4 * w * h] does not fit an [int]. *)
Definition draw (img : Image) (rows : Rows) (cols : Cols) : result Rectangle :=
  c0 <- index cols 0 ;;
  r0 <- index rows 0 ;;
  cl <- index cols (Z.of_nat (List.length cols) - 1) ;;
  rl <- index rows (Z.of_nat (List.length rows) - 1) ;;
  let rect := image_Rect (Col.Left c0) (Row.Top r0) (Col.Right cl) (Row.Bottom rl) in
  if (Dx rect <? 0) || (Dy rect <? 0) || (Int64.max_int <? 4 * Dx rect * Dy rect)
  then Panic
  else Ok rect.

(** [encode]: [png.Encode] refuses an image whose width or height is not in
    [1, 2^32), and [encode] panics on that error. The bytes are not modelled. *)
Definition encode (bounds : Rectangle) : result unit :=
  let mw := Dx bounds in
  let mh := Dy bounds in
  if (mw <=? 0) || (mh <=? 0) || (2 ^ 32 <=? mw) || (2 ^ 32 <=? mh)
  then Panic
  else Ok tt.

(** [prime]: the skeleton of the result ([Primed.Data], the encoded bytes of
    the cropped image, is left out). *)
Definition prime (img : Image) : result Skeleton :=
  row0 <- findRow0 img ;;
  col0 <- findCol0 img row0 ;;
  let rows := findRows img row0 in
  let cols := findCols img row0 col0 in
  let img := clean img rows cols in
  primed <- draw img rows cols ;;
  _ <- encode primed ;;
  r0 <- index rows 0 ;;
  let rows := Rows.Shift rows (Int64.neg (Row.Top r0)) in
  c0 <- index cols 0 ;;
  let cols := Cols.Shift cols (Int64.neg (Col.Left c0)) in
  (* first col half width *)
  let cols := update cols 0
                (fun c => Col.mk (Col.Num c) (Col.Left c)
                            (Int64.quot (Col.Right c) 2)) in
  (* last col split *)
  cl <- index cols (Z.of_nat (List.length cols) - 1) ;;
  let cols := removelast cols ++ Split cl in
  Ok (mkSkeleton (Dx primed) (Dy primed) rows cols).

(* ================================================================== *)
(** ** Go's [time] package, as far as the program uses it

    Every [time.Time] of the program is in UTC: it is either the zero value
    or the result of [time.Parse] on a layout without zone, possibly moved by
    [Add]. A [Time] is the number of seconds elapsed since January 1 of year
    1, 00:00:00 UTC (negative before it) and the nanoseconds within that
    second. *)

Definition Duration : Type := Z.

Definition Nanosecond : Duration := 1.
Definition Microsecond : Duration := 1000 * Nanosecond.
Definition Millisecond : Duration := 1000 * Microsecond.
Definition Second : Duration := 1000 * Millisecond.
Definition Minute : Duration := 60 * Second.
Definition Hour : Duration := 60 * Minute.

Definition minDuration : Duration := Int64.min_int.
Definition maxDuration : Duration := Int64.max_int.

Record Time : Type := mkTime { sec : Z; nsec : Z }.

(** The zero value of [time.Time]: January 1, year 1, 00:00:00 UTC. *)
Definition zeroTime : Time := mkTime 0 0.

Definition secondsPerMinute : Z := 60.
Definition secondsPerHour : Z := 60 * secondsPerMinute.
Definition secondsPerDay : Z := 24 * secondsPerHour.

Definition isLeap (year : Z) : bool :=
  (year mod 4 =? 0) && (negb (year mod 100 =? 0) || (year mod 400 =? 0)).

(** [daysBefore[m]]: the days of a non-leap year before month [m + 1]. *)
Definition daysBefore (m : Z) : Z :=
  nth (Z.to_nat m) [0; 31; 59; 90; 120; 151; 181; 212; 243; 273; 304; 334; 365] 0.

Definition daysIn (m year : Z) : Z :=
  if (m =? 2) && isLeap year then 29
  else daysBefore m - daysBefore (m - 1).

(** Days from January 1 of year 1 to January 1 of [year]. *)
Definition daysSinceEpoch (year : Z) : Z :=
  let y := year - 1 in
  365 * y + y / 4 - y / 100 + y / 400.

(** [time.Date] in UTC, on fields that are already in range (the only way
    the program reaches it is from [Parse], which has validated them, so the
    normalisation steps of [Date] are the identity). *)
Definition Date (year month day hour min : Z) : Time :=
  let d := daysSinceEpoch year + daysBefore (month - 1) in
  let d := if isLeap year && (3 <=? month) then d + 1 else d in
  let d := d + (day - 1) in
  mkTime (d * secondsPerDay + hour * secondsPerHour + min * secondsPerMinute) 0.

(** [absDate]: year and day of the year (from 0) of a day count. *)
Definition absDate (days : Z) : Z * Z :=
  let n400 := days / 146097 in
  let d := days - 146097 * n400 in
  let n := d / 36524 in
  let n100 := n - Z.shiftr n 2 in
  let d := d - 36524 * n100 in
  let n4 := d / 1461 in
  let d := d - 1461 * n4 in
  let n := d / 365 in
  let n1 := n - Z.shiftr n 2 in
  let d := d - 365 * n1 in
  (400 * n400 + 100 * n100 + 4 * n4 + n1 + 1, d).

(** Year, month and day of the month of a [Time]. *)
Definition date_of (t : Time) : Z * Z * Z :=
  let '(year, yday) := absDate (sec t / secondsPerDay) in
  if isLeap year && (yday =? 31 + 29 - 1) then (year, 2, 29)
  else
    let day := if isLeap year && (31 + 29 - 1 <? yday) then yday - 1 else yday in
    let month := day / 31 in
    let e := daysBefore (month + 1) in
    if e <=? day then (year, month + 2, day - e + 1)
    else (year, month + 1, day - daysBefore month + 1).

Definition Year (t : Time) : Z := fst (fst (date_of t)).
Definition Month (t : Time) : Z := snd (fst (date_of t)).
Definition Day (t : Time) : Z := snd (date_of t).
Definition Hour_of (t : Time) : Z := (sec t mod secondsPerDay) / secondsPerHour.
Definition Minute_of (t : Time) : Z := (sec t mod secondsPerHour) / secondsPerMinute.

(** [Time.Add] *)
Definition Add (t : Time) (d : Duration) : Time :=
  let dsec := Z.quot d 1000000000 in
  let ns := nsec t + Z.rem d 1000000000 in
  if 1000000000 <=? ns then mkTime (sec t + dsec + 1) (ns - 1000000000)
  else if ns <? 0 then mkTime (sec t + dsec - 1) (ns + 1000000000)
  else mkTime (sec t + dsec) ns.

(** [lessThanHalf]: [x + x < y] in [uint64] arithmetic. *)
Definition lessThanHalf (x y : Duration) : bool :=
  (x mod 2 ^ 64 + x mod 2 ^ 64) mod 2 ^ 64 <? y mod 2 ^ 64.

(** [Duration.Round]: to the nearest multiple of [m], halfway values away
    from zero. *)
Definition Round (d m : Duration) : Duration :=
  if m <=? 0 then d
  else
    let r := Int64.rem d m in
    if d <? 0 then
      let r := Int64.neg r in
      if lessThanHalf r m then Int64.add d r
      else
        let d1 := Int64.add (Int64.sub d m) r in
        if d1 <? d then d1 else minDuration
    else
      if lessThanHalf r m then Int64.sub d r
      else
        let d1 := Int64.sub (Int64.add d m) r in
        if d <? d1 then d1 else maxDuration.

(** *** Layouts

    A layout is kept as the sequence of chunks that [nextStdChunk] cuts it
    into. Only the chunks of the program's five layouts occur. *)
Inductive chunk : Type :=
| stdZeroDay          (* "02" *)
| stdZeroMonth        (* "01" *)
| stdLongYear         (* "2006" *)
| stdHour             (* "15" *)
| stdZeroMinute       (* "04" *)
| lit (c : ascii).    (* a character that belongs to no chunk *)

Definition layout : Type := list chunk.

Definition ascii_of_digit (d : Z) : ascii := ascii_of_nat (48 + Z.to_nat d).

(** The decimal digits of [u >= 0], most significant first, one digit at
    least; [fuel] bounds their number. *)
Fixpoint decimal (fuel : nat) (u : Z) (acc : string) : string :=
  match fuel with
  | O => acc
  | S fuel' =>
      let acc' := String (ascii_of_digit (u mod 10)) acc in
      if u / 10 =? 0 then acc' else decimal fuel' (u / 10) acc'
  end.

Fixpoint zeros (n : nat) : string :=
  match n with
  | O => EmptyString
  | S n' => String "0" (zeros n')
  end.

(** [appendInt]: [x] in decimal, zero-padded to [width] digits. *)
Definition appendInt (x : Z) (width : nat) : string :=
  let u := Z.abs x in
  let ds := decimal (S (Z.to_nat (Z.log2 u))) u EmptyString in
  let padded := (zeros (width - String.length ds) ++ ds)%string in
  if x <? 0 then String "-" padded else padded.

(** [Time.Format] *)
Fixpoint Format (t : Time) (l : layout) : string :=
  match l with
  | [] => EmptyString
  | c :: l' =>
      let s :=
        match c with
        | stdZeroDay => appendInt (Day t) 2
        | stdZeroMonth => appendInt (Month t) 2
        | stdLongYear => appendInt (Year t) 4
        | stdHour => appendInt (Hour_of t) 2
        | stdZeroMinute => appendInt (Minute_of t) 2
        | lit a => String a EmptyString
        end in
      (s ++ Format t l')%string
  end.

Definition isDigit (s : string) (i : nat) : bool :=
  match String.get i s with
  | Some c => (48 <=? nat_of_ascii c)%nat && (nat_of_ascii c <=? 57)%nat
  | None => false
  end.

Definition digit_at (s : string) (i : nat) : Z :=
  match String.get i s with
  | Some c => Z.of_nat (nat_of_ascii c) - 48
  | None => 0
  end.

(** [s[n:]] *)
Definition drop (n : nat) (s : string) : string :=
  substring n (String.length s - n) s.

(** [getnum]: a number of one or two digits ([fixed]: of two digits). *)
Definition getnum (s : string) (fixed : bool) : option (Z * string) :=
  if negb (isDigit s 0) then None
  else if negb (isDigit s 1) then
    if fixed then None else Some (digit_at s 0, drop 1 s)
  else Some (digit_at s 0 * 10 + digit_at s 1, drop 2 s).

(** The year of [stdLongYear]: four digits. *)
Definition getyear (s : string) : option (Z * string) :=
  if (String.length s <? 4)%nat || negb (isDigit s 0) then None
  else if isDigit s 1 && isDigit s 2 && isDigit s 3
  then Some (digit_at s 0 * 1000 + digit_at s 1 * 100
             + digit_at s 2 * 10 + digit_at s 3, drop 4 s)
  else None.

(** The fields [Parse] collects, with the defaults it starts from. *)
Record fields : Type :=
  mkFields { f_year : Z; f_month : Z; f_day : Z; f_hour : Z; f_min : Z }.

Definition fields0 : fields := mkFields 0 1 1 0 0.

(** The loop of [Parse] over the chunks of the layout. *)
Fixpoint parse_chunks (l : layout) (value : string) (f : fields)
  : ParseError + fields :=
  match l with
  | [] =>
      if (String.length value =? 0)%nat then inr f else inl (ExtraText value)
  | c :: l' =>
      match c with
      | lit a =>
          match value with
          | String b value' =>
              if Ascii.eqb a b then parse_chunks l' value' f else inl BadValue
          | EmptyString => inl BadValue
          end
      | stdLongYear =>
          match getyear value with
          | None => inl BadValue
          | Some (y, value') =>
              parse_chunks l' value'
                (mkFields y (f_month f) (f_day f) (f_hour f) (f_min f))
          end
      | stdZeroMonth =>
          match getnum value true with
          | None => inl BadValue
          | Some (m, value') =>
              if (m <=? 0) || (12 <? m) then inl (OutOfRange "month")
              else parse_chunks l' value'
                     (mkFields (f_year f) m (f_day f) (f_hour f) (f_min f))
          end
      | stdZeroDay =>
          match getnum value true with
          | None => inl BadValue
          | Some (d, value') =>
              parse_chunks l' value'
                (mkFields (f_year f) (f_month f) d (f_hour f) (f_min f))
          end
      | stdHour =>
          match getnum value false with
          | None => inl BadValue
          | Some (h, value') =>
              if (h <? 0) || (24 <=? h) then inl (OutOfRange "hour")
              else parse_chunks l' value'
                     (mkFields (f_year f) (f_month f) (f_day f) h (f_min f))
          end
      | stdZeroMinute =>
          match getnum value true with
          | None => inl BadValue
          | Some (m, value') =>
              if (m <? 0) || (60 <=? m) then inl (OutOfRange "minute")
              else parse_chunks l' value'
                     (mkFields (f_year f) (f_month f) (f_day f) (f_hour f) m)
          end
      end
  end.

(** [time.Parse] *)
Definition Parse (l : layout) (value : string) : ParseError + Time :=
  match parse_chunks l value fields0 with
  | inl e => inl e
  | inr f =>
      if (f_day f <? 1) || (daysIn (f_month f) (f_year f) <? f_day f)
      then inl (OutOfRange "day")
      else inr (Date (f_year f) (f_month f) (f_day f) (f_hour f) (f_min f))
  end.

(** The layouts of the program, cut into chunks:
    - [prettyDate] is "02/01" and [prettyTime] is "15:04";
    - [dateFormat] is "02012006";
    - [timeFormat] is "0201200615.04": after "15" the dot is followed by the
      digits "04", so it is not the start of a fractional second (which is
      a dot followed by zeros or nines only) but a plain character, and "04"
      is the minute;
    - [timeFormat2] is "020120061504". *)
Definition prettyDate : layout := [stdZeroDay; lit "/"; stdZeroMonth].
Definition prettyTime : layout := [stdHour; lit ":"; stdZeroMinute].
Definition dateFormat : layout := [stdZeroDay; stdZeroMonth; stdLongYear].
Definition timeFormat : layout := dateFormat ++ [stdHour; lit "."; stdZeroMinute].
Definition timeFormat2 : layout := dateFormat ++ [stdHour; stdZeroMinute].

(* ================================================================== *)
(** ** Parsing dates and times *)

(** [s[i:j]] *)
Definition slice (s : string) (i j : nat) : string := substring i (j - i) s.

(** [strings.Replace(s, old, new, 1)] for a non-empty [old]: the first
    occurrence of [old] is replaced by [new]. *)
Fixpoint replace_first (old new s : string) : string :=
  if prefix old s then (new ++ drop (String.length old) s)%string
  else match s with
       | EmptyString => EmptyString
       | String c s' => String c (replace_first old new s')
       end.

(** [parseDate]. The function calls itself on a string of length 10, on
    which it does not call itself again: [fuel] counts the nested calls. *)
Fixpoint parseDate_rec (fuel : nat) (s : string) : result Time :=
  match fuel with
  | O => Panic
  | S fuel' =>
      let parse clean :=
        match Parse dateFormat clean with
        | inl e => Err (ErrFailedToParseDate e)
        | inr date => Ok date
        end in
      match String.length s with
      | 9%nat => parse (slice s 0 2 ++ slice s 2 4 ++ drop 5 s)%string
      | 10%nat => parse (slice s 0 2 ++ slice s 3 5 ++ drop 6 s)%string
      | 11%nat =>
          let undup := replace_first "1/" "1" s in
          if (String.length undup =? 10)%nat then parseDate_rec fuel' undup
          else Err (ErrUnexpectedDateFormat s)
      | _ => Err (ErrUnexpectedDateFormat s)
      end
  end.

Definition parseDate (s : string) : result Time := parseDate_rec 2 s.

(** [parseTime] *)
Definition parseTime (sdate stime : string) : result Time :=
  let s := (sdate ++ stime)%string in
  match Parse timeFormat s with
  | inr t => Ok t
  | inl _ =>
      match Parse timeFormat2 s with
      | inr t => Ok t
      | inl e => Err (ErrTimeParse e)
      end
  end.

(* ================================================================== *)
(** ** Entries and the scan of the detections *)

Record Entry : Type :=
  mkEntry { date : Time; activity : string;
            in_ : option Time; out : option Time }.

(** The zero value of [Entry]. *)
Definition Entry0 : Entry := mkEntry zeroTime EmptyString None None.

Module BoundingBox.
Record t : Type :=
  mk { Left : float; Top : float; Width : float; Height : float }.
End BoundingBox.

Definition BoundingBox : Type := BoundingBox.t.

(** [rekognition.TextDetection]: the type may be absent; the text and the
    geometry are taken to be present (the source dereferences them without
    a check). *)
Record TextDetection : Type :=
  mkDetection { DetectedText : string; Type_ : option string;
                Geometry : BoundingBox }.

(** [float64(n)] for an [int]. *)
Definition float64_of_int (z : Z) : float :=
  if z <? 0 then PrimFloat.opp (PrimFloat.of_uint63 (Uint63.of_Z (- z)))
  else PrimFloat.of_uint63 (Uint63.of_Z z).

(** [int(f)] for a [float64]: the fraction is discarded; what does not fit
    (not a number, infinite, too large) becomes the smallest [int], as on
    amd64. *)
Definition int_of_float64 (f : float) : Z :=
  match Prim2SF f with
  | S754_zero _ => 0
  | S754_finite s m e =>
      let v := if 0 <=? e then Zpos m * 2 ^ e else Z.quot (Zpos m) (2 ^ (- e)) in
      let v := if s then - v else v in
      if (Int64.min_int <=? v) && (v <=? Int64.max_int) then v else Int64.min_int
  | _ => Int64.min_int
  end.

(** [center]: the operations of the source, each rounded on its own. *)
Definition center (box : BoundingBox) (sk : Skeleton) : Z * Z :=
  let w := float64_of_int (W sk) in
  let h := float64_of_int (H sk) in
  let xmid :=
    (BoundingBox.Left box * w + BoundingBox.Width box * w / 2)%float in
  let ymid :=
    (BoundingBox.Top box * h + BoundingBox.Height box * h / 2)%float in
  (int_of_float64 xmid, int_of_float64 ymid).

(** [sort.Slice] by ascending [Left]. The order it leaves between equal keys
    is not specified; this is the insertion sort it runs on short slices:
    each element moves left past the elements it is less than. *)
Fixpoint bubble (d : TextDetection) (rev_prefix : list TextDetection)
  : list TextDetection :=
  match rev_prefix with
  | [] => [d]
  | p :: rest =>
      if PrimFloat.ltb (BoundingBox.Left (Geometry d))
                       (BoundingBox.Left (Geometry p))
      then p :: bubble d rest
      else d :: rev_prefix
  end.

Definition sortByLeft (dts : list TextDetection) : list TextDetection :=
  rev (fold_left (fun acc d => bubble d acc) dts []).

Definition DateHeader : Z := 0.
Definition ActivityHeader : Z := 1.
Definition InHeader : Z := 2.
Definition OutHeader : Z := 3.

(** The body of the loop of [scan] on one detection: the entries after it
    ([continue] leaves them as they are), or the error the scan returns. *)
Definition scan_step (sk : Skeleton) (entries : list Entry) (d : TextDetection)
  : result (list Entry) :=
  match Type_ d with
  | None => Ok entries
  | Some ty =>
      if negb (String.eqb ty "WORD") then Ok entries
      else
        let '(cx, cy) := center (Geometry d) sk in
        match Cols.Find (SCols sk) cx with
        | Panic => Panic
        | Err _ => Ok entries
        | Ok c =>
            match Rows.Find (SRows sk) cy with
            | Panic => Panic
            | Err _ => Ok entries
            | Ok r =>
                let txt := DetectedText d in
                e <- index entries r ;;
                if c =? DateHeader then
                  dt <- parseDate txt ;;
                  Ok (update entries (Z.to_nat r) (fun e =>
                        mkEntry dt (activity e) (in_ e) (out e)))
                else if c =? ActivityHeader then
                  Ok (update entries (Z.to_nat r) (fun e =>
                        mkEntry (date e) (activity e ++ txt) (in_ e) (out e)))
                else if c =? InHeader then
                  t <- parseTime (Format (date e) dateFormat) txt ;;
                  Ok (update entries (Z.to_nat r) (fun e =>
                        mkEntry (date e) (activity e) (Some t) (out e)))
                else if c =? OutHeader then
                  t <- parseTime (Format (date e) dateFormat) txt ;;
                  Ok (update entries (Z.to_nat r) (fun e =>
                        mkEntry (date e) (activity e) (in_ e) (Some t)))
                else Ok entries
            end
        end
  end.

Fixpoint scan_loop (sk : Skeleton) (dts : list TextDetection)
    (entries : list Entry) : result (list Entry) :=
  match dts with
  | [] => Ok entries
  | d :: dts' =>
      entries' <- scan_step sk entries d ;;
      scan_loop sk dts' entries'
  end.

(** [scan] *)
Definition scan (out : list TextDetection) (sk : Skeleton) : result (list Entry) :=
  let entries := repeat Entry0 (List.length (SRows sk)) in
  scan_loop sk (sortByLeft out) entries.

(* ================================================================== *)
(** ** Analytics *)

(** The loop of [average]: the running [total] and [count]. *)
Fixpoint average_loop (entries : list Entry) (extractor : Entry -> option Time)
    (total : Duration) (count : Z) : Duration * Z :=
  match entries with
  | [] => (total, count)
  | e :: entries' =>
      match extractor e with
      | None => average_loop entries' extractor total count
      | Some v =>
          let d := Int64.add (Int64.mul (Hour_of v) Hour)
                             (Int64.mul (Minute_of v) Minute) in
          average_loop entries' extractor (Int64.add total d) (Int64.add count 1)
      end
  end.

(** [average] *)
Definition average (entries : list Entry) (extractor : Entry -> option Time)
    (def : Duration) : Duration :=
  let '(total, count) := average_loop entries extractor 0 0 in
  if count =? 0 then def
  else
    let avg := Int64.mul (Int64.quot total count) Nanosecond in
    Round avg (15 * Minute).

Definition averageIn (entries : list Entry) : Duration :=
  average entries in_ (9 * Hour).

Definition averageOut (entries : list Entry) : Duration :=
  average entries out (17 * Hour).

(** [fixEntry] *)
Definition fixEntry (e : Entry) (avgIn avgOut : Duration) : result string :=
  match in_ e, out e with
  | None, None => Err ErrBothTimesEmpty
  | Some _, Some _ => Err ErrBothTimesNonEmpty
  | Some i, None =>
      let pdate := Format (date e) prettyDate in
      let pin := Format i prettyTime in
      let pout := Format (Add (date e) avgOut) prettyTime in
      Ok (pdate ++ ": arrived at " ++ pin ++ ", left at " ++ pout)%string
  | None, Some o =>
      let pdate := Format (date e) prettyDate in
      let pin := Format (Add (date e) avgIn) prettyTime in
      let pout := Format o prettyTime in
      Ok (pdate ++ ": arrived at " ++ pin ++ ", left at " ++ pout)%string
  end.

Record Magic : Type := mkMagic { Problems : list string; Fixes : list string }.

(** The loop of [domagic]: [problems] and [fixes] are what has been appended
    so far. A fix that cannot be generated is logged and the loop goes on. *)
Fixpoint domagic_loop (avgIn avgOut : Duration) (entries : list Entry)
    (problems fixes : list string) : Magic :=
  match entries with
  | [] => mkMagic problems fixes
  | e :: entries' =>
      if String.eqb (activity e) EmptyString then
        domagic_loop avgIn avgOut entries' problems fixes
      else
        let datefmt := Format (date e) prettyDate in
        if String.eqb (activity e) "UnclosedDay" then
          let problems := problems ++ [datefmt ++ ": Unclosed day"]%string in
          match fixEntry e avgIn avgOut with
          | Ok fix_ => domagic_loop avgIn avgOut entries' problems (fixes ++ [fix_])
          | _ => domagic_loop avgIn avgOut entries' problems fixes
          end
        else if String.eqb (activity e) "Vacation/Una" then
          domagic_loop avgIn avgOut entries'
            (problems ++ [datefmt ++ ": Missing report"]%string) fixes
        else
          domagic_loop avgIn avgOut entries'
            (problems ++ [datefmt ++ ": " ++ activity e]%string) fixes
  end.

(** [domagic] *)
Definition domagic (entries : list Entry) : Magic :=
  let avgIn := averageIn entries in
  let avgOut := averageOut entries in
  domagic_loop avgIn avgOut entries [] [].

(* ================================================================== *)
(** ** Notions the statements use *)

(** The fields of a [Rectangle] are Go [int]s. *)
Definition fits_int (r : Rectangle) : Prop :=
  Int64.in_range (MinX r) /\ Int64.in_range (MinY r)
  /\ Int64.in_range (MaxX r) /\ Int64.in_range (MaxY r).

(** The inclusive-range test of the two [Find]. *)
Definition row_contains (r : Row) (y : Z) : Prop :=
  Row.Top r <= y <= Row.Bottom r.

Definition col_contains (c : Col) (x : Z) : Prop :=
  Col.Left c <= x <= Col.Right c.

(** [rows.Shift(-rows[0].Top)] and [cols.Shift(-cols[0].Left)] as [prime]
    writes them, the offset being read from the sequence that is shifted. *)
Definition rebase_rows (rs : Rows) : Rows :=
  match rs with
  | [] => []
  | r0 :: _ => Rows.Shift rs (Int64.neg (Row.Top r0))
  end.

Definition rebase_cols (cs : Cols) : Cols :=
  match cs with
  | [] => []
  | c0 :: _ => Cols.Shift cs (Int64.neg (Col.Left c0))
  end.

(** A pixel lies on a boundary line of a row (its top or its bottom) or of a
    column (its left or its right). *)
Definition on_row_boundary (rows : Rows) (y : Z) : Prop :=
  exists r, In r rows /\ (y = Row.Top r \/ y = Row.Bottom r).

Definition on_col_boundary (cols : Cols) (x : Z) : Prop :=
  exists c, In c cols /\ (x = Col.Left c \/ x = Col.Right c).

(** Every boundary pixel inside the image is white. *)
Definition boundaries_are_background (img : Image) (rows : Rows) (cols : Cols)
  : Prop :=
  forall x y, inside (Bounds img) x y = true ->
    on_row_boundary rows y \/ on_col_boundary cols x ->
    At img x y = white.

(** The rule of [parseDate] for a string of length 10. *)
Definition parseDate10 (s : string) : result Time :=
  match Parse dateFormat (slice s 0 2 ++ slice s 3 5 ++ drop 6 s)%string with
  | inl e => Err (ErrFailedToParseDate e)
  | inr d => Ok d
  end.

(** The rule for a string of length 11 in the words of the specification:
    the first occurrence of the two characters "1/" is removed. *)
Definition parseDate11_removing_pair (s : string) : result Time :=
  let r := replace_first "1/" EmptyString s in
  if (String.length r =? 10)%nat then parseDate10 r
  else Err (ErrUnexpectedDateFormat s).

(** [sub] occurs in [s] at position [n]. *)
Definition occurs_at (sub s : string) (n : nat) : Prop :=
  exists a b, s = (a ++ sub ++ b)%string /\ String.length a = n.

(** The fix-generation failures ("both or neither time is set"). *)
Definition AmbiguousEntry (e : error) : Prop :=
  e = ErrBothTimesEmpty \/ e = ErrBothTimesNonEmpty.

(** "HH:MM" for a time of day. *)
Definition hhmm (hour min : Z) : string :=
  String (ascii_of_digit (hour / 10)) (String (ascii_of_digit (hour mod 10))
    (String ":"
      (String (ascii_of_digit (min / 10)) (String (ascii_of_digit (min mod 10))
        EmptyString)))).

(** A [Time] that [Parse] builds for a date: midnight, no nanoseconds. *)
Definition is_midnight (t : Time) : Prop :=
  sec t mod secondsPerDay = 0 /\ nsec t = 0.

(** What one entry contributes to the report, in the words of the
    specification: its problems and its fixes. *)
Inductive entry_report (avgIn avgOut : Duration) (e : Entry)
  : list string -> list string -> Prop :=
| report_normal :
    activity e = EmptyString ->
    entry_report avgIn avgOut e [] []
| report_unclosed_fixed (fix_ : string) :
    activity e = "UnclosedDay"%string ->
    fixEntry e avgIn avgOut = Ok fix_ ->
    entry_report avgIn avgOut e
      [(Format (date e) prettyDate ++ ": Unclosed day")%string] [fix_]
| report_unclosed_skipped (err : error) :
    activity e = "UnclosedDay"%string ->
    fixEntry e avgIn avgOut = Err err ->
    entry_report avgIn avgOut e
      [(Format (date e) prettyDate ++ ": Unclosed day")%string] []
| report_missing :
    activity e = "Vacation/Una"%string ->
    entry_report avgIn avgOut e
      [(Format (date e) prettyDate ++ ": Missing report")%string] []
| report_other :
    activity e <> EmptyString ->
    activity e <> "UnclosedDay"%string ->
    activity e <> "Vacation/Una"%string ->
    entry_report avgIn avgOut e
      [(Format (date e) prettyDate ++ ": " ++ activity e)%string] [].

(** The time of day of a [Time] as a duration since midnight, hours and
    minutes only. *)
Definition time_of_day (t : Time) : Duration :=
  Hour_of t * Hour + Minute_of t * Minute.

(** The values of a field that are set, in the order of the entries. *)
Definition set_values (extractor : Entry -> option Time) (entries : list Entry)
  : list Time :=
  flat_map (fun e => match extractor e with Some v => [v] | None => [] end)
    entries.

Definition sum_of_day_times (l : list Time) : Z :=
  fold_right (fun v acc => time_of_day v + acc) 0 l.


(** The longest sequence of entries whose day times cannot overflow the
    64-bit [total] of [average]. *)
Definition max_entries : Z := Int64.max_int / (24 * Hour).

(** The contribution of one entry, computed: the function whose graph
    [entry_report] describes. *)
Definition report_of (avgIn avgOut : Duration) (e : Entry)
  : list string * list string :=
  let datefmt := Format (date e) prettyDate in
  if String.eqb (activity e) EmptyString then ([], [])
  else if String.eqb (activity e) "UnclosedDay" then
    ([(datefmt ++ ": Unclosed day")%string],
     match fixEntry e avgIn avgOut with Ok f => [f] | _ => [] end)
  else if String.eqb (activity e) "Vacation/Una" then
    ([(datefmt ++ ": Missing report")%string], [])
  else ([(datefmt ++ ": " ++ activity e)%string], []).

(** A row or a column seen as its number and its two ends. *)
Definition span : Type := (Z * Z * Z)%type.

Definition span_num (s : span) : Z := fst (fst s).
Definition span_lo (s : span) : Z := snd (fst s).
Definition span_hi (s : span) : Z := snd s.

Definition row_span (r : Row) : span := (Row.Num r, Row.Top r, Row.Bottom r).
Definition col_span (c : Col) : span := (Col.Num c, Col.Left c, Col.Right c).

Definition span_contains (s : span) (z : Z) : Prop :=
  span_lo s <= z <= span_hi s.

(** The spans follow one another from [lo] to [hi]: each starts where the
    one before ends, and ends after it starts. *)
Fixpoint chain (lo : Z) (l : list span) (hi : Z) : Prop :=
  match l with
  | [] => lo = hi
  | s :: l' => span_lo s = lo /\ lo < span_hi s /\ chain (span_hi s) l' hi
  end.

(** The spans are numbered from [k] on. *)
Fixpoint numbered (k : Z) (l : list span) : Prop :=
  match l with
  | [] => True
  | s :: l' => span_num s = k /\ numbered (k + 1) l'
  end.

(** The lookup of [Rows.Find] and [Cols.Find] on spans. *)
Fixpoint find_span (l : list span) (z : Z) : result Z :=
  match l with
  | [] => Err ErrNotFound
  | s :: l' =>
      if (span_lo s <=? z) && (z <=? span_hi s) then Ok (span_num s)
      else find_span l' z
  end.

(** The pixels [clean] overwrites: the top line of a row and the right line
    of a column, from the coordinate 0 to the end of the image. *)
Definition cleaned (img : Image) (rows : Rows) (cols : Cols) (x y : Z) : bool :=
  existsb (fun r => (y =? Row.Top r) && (0 <=? x) && (x <? MaxX (Bounds img))) rows
  || existsb (fun c => (x =? Col.Right c) && (0 <=? y) && (y <? MaxY (Bounds img))) cols.

(** The columns of a skeleton of width [w] after the reconciliation, for
    one, two and three raw columns: [b1] and [b2] are the inner dividers,
    counted from the origin of the table. *)
Inductive cols_shape (w : Z) : nat -> Cols -> Prop :=
| shape_one (cs : Cols) :
    0 < w ->
    cs = [Col.mk 0 0 (w / 2 - w / 2 / 2); Col.mk 1 (w / 2 - w / 2 / 2) (w / 2)] ->
    cols_shape w 1 cs
| shape_two (b1 : Z) (cs : Cols) :
    0 < b1 < w ->
    cs = [Col.mk 0 0 (b1 / 2);
          Col.mk 1 b1 (w - (w - b1) / 2);
          Col.mk 2 (w - (w - b1) / 2) w] ->
    cols_shape w 2 cs
| shape_three (b1 b2 : Z) (cs : Cols) :
    0 < b1 < b2 -> b2 < w ->
    cs = [Col.mk 0 0 (b1 / 2);
          Col.mk 1 b1 b2;
          Col.mk 2 b2 (w - (w - b2) / 2);
          Col.mk 3 (w - (w - b2) / 2) w] ->
    cols_shape w 3 cs.

(* ================================================================== *)
(** ** Concrete inputs *)

(** A 40 x 30 image of a table: horizontal lines at y = 5, 15 and 25 over the
    whole width, vertical lines at the abscissas [xs] from y = 1 to y = 25,
    white elsewhere. *)
Definition table_pix (xs : list Z) (x y : Z) : NRGBA :=
  if (y =? 5) || (y =? 15) || (y =? 25)
     || (existsb (Z.eqb x) xs && (1 <=? y) && (y <=? 25))
  then black else white.

(** Three dividers: the table the program expects. *)
Definition table_img : Image :=
  mkImage (mkRect 0 0 40 30) (table_pix [10; 20; 30]).

(** Two dividers only. *)
Definition two_dividers_img : Image :=
  mkImage (mkRect 0 0 40 30) (table_pix [10; 20]).

(** The first divider right after the first column's origin. *)
Definition thin_first_col_img : Image :=
  mkImage (mkRect 0 0 40 30) (table_pix [4; 20; 30]).

(** The skeleton of [table_img]. *)
Definition table_skeleton : Skeleton :=
  mkSkeleton 27 20
    [Row.mk 0 0 10; Row.mk 1 10 20]
    [Col.mk 0 0 3; Col.mk 1 7 17; Col.mk 2 17 22; Col.mk 3 22 27].

Definition two_dividers_skeleton : Skeleton :=
  mkSkeleton 17 20
    [Row.mk 0 0 10; Row.mk 1 10 20]
    [Col.mk 0 0 3; Col.mk 1 7 12; Col.mk 2 12 17].

Definition thin_first_col_skeleton : Skeleton :=
  mkSkeleton 27 20
    [Row.mk 0 0 10; Row.mk 1 10 20]
    [Col.mk 0 0 0; Col.mk 1 1 17; Col.mk 2 17 22; Col.mk 3 22 27].

(** A word whose box is centred at (18, 6) of [table_skeleton]: column In of
    row 0. All the floating-point operations of [center] are exact on it. *)
Definition in_detection : TextDetection :=
  mkDetection "15.04" (Some "WORD"%string)
    (BoundingBox.mk 0.625 0.25 0.125 0.125).

(** One row starting at 5 and ending at 15. *)
Definition one_row : Rows := [Row.mk 0 5 15].
Definition one_col : Cols := [Col.mk 0 3 10].

(** An entry with an arrival at 08:47 and no departure, on 5 January 2023. *)
Definition unclosed_entry : Entry :=
  mkEntry (Date 2023 1 5 0 0) "UnclosedDay" (Some (Date 2023 1 5 8 47)) None.

Definition vacation_entry : Entry :=
  mkEntry (Date 2023 1 6 0 0) "Vacation/Una" None None.

Definition entry_0900 : Entry :=
  mkEntry (Date 2023 1 5 0 0) EmptyString (Some (Date 2023 1 5 9 0)) None.

Definition entry_0930 : Entry :=
  mkEntry (Date 2023 1 6 0 0) EmptyString (Some (Date 2023 1 6 9 30)) None.

(* ================================================================== *)
(** ** Notions of the further properties *)

(** A row is delimited by two consecutive black pixels of the sample column
    [xs]: its bottom is black, no pixel strictly between its top and its
    bottom is, and it is at most [maxHeight + 1] pixels high. *)
Definition row_delimited (img : Image) (xs : Z) (r : Row) : Prop :=
  At img xs (Row.Bottom r) = black
  /\ (forall y, Row.Top r < y < Row.Bottom r -> At img xs y <> black)
  /\ Row.Top r < Row.Bottom r <= Row.Top r + (maxHeight + 1).

(** A column is delimited by two consecutive markers of the row [row0]: its
    right end is a marker and no abscissa strictly between its two ends is. *)
Definition col_delimited (img : Image) (row0 : Z) (c : Col) : Prop :=
  isCol img (Col.Right c) row0 = true
  /\ (forall x, Col.Left c < x < Col.Right c -> isCol img x row0 = false).

(** The cell of the skeleton a detection falls into, as [scan] decides it:
    the column and the row of the centre of the box of a detection of type
    WORD; no cell for another detection or for a centre that no column or no
    row holds. *)
Definition cell_of (sk : Skeleton) (d : TextDetection) : option (Z * Z) :=
  match Type_ d with
  | None => None
  | Some ty =>
      if String.eqb ty "WORD" then
        match Cols.Find (SCols sk) (fst (center (Geometry d) sk)),
              Rows.Find (SRows sk) (snd (center (Geometry d) sk)) with
        | Ok c, Ok r => Some (c, r)
        | _, _ => None
        end
      else None
  end.



(** The errors of the two parsers of [scan]. *)
Definition is_parse_error (e : error) : Prop :=
  (exists s, e = ErrUnexpectedDateFormat s)
  \/ (exists pe, e = ErrFailedToParseDate pe)
  \/ (exists pe, e = ErrTimeParse pe).


(** A decimal digit. *)
Definition is_digit_char (c : ascii) : Prop :=
  (48 <= nat_of_ascii c <= 57)%nat.

(* ================================================================== *)
(** ** The mail handler

    The handler reads its configuration from the environment and calls the
    mail libraries of Go. The functions below take the configuration (the
    global variables [domains] and [whitelist]) and the results of the
    library calls as arguments. *)

(** A [map[string]bool] as far as the handler uses one: made by insertions
    of [true], read by lookups in the "comma ok" form. *)
Definition strset : Type := string -> option bool.

Definition strset_empty : strset := fun _ => None.

Definition strset_add (m : strset) (k : string) : strset :=
  fun k' => if String.eqb k' k then Some true else m k'.

(** [for _, w := range l { set[w] = true }] *)
Definition strset_of (l : list string) : strset :=
  fold_left strset_add l strset_empty.

Inductive MailError : Type :=
| ErrParseSource                    (* "failed to parse source address: %v" *)
| ErrSenderNotInWhitelist (source domain : string)
                                    (* "sender not in whitelist: %v [%v]" *)
| ErrSelfNotFound (dest : list string)
                       (* "self-domain not found in destinations: %v" *)
| ErrParseMediaType                 (* "failed to parse media type: %v" *)
| ErrUnexpectedMediaType (expected got : string)
                                    (* "expected %s, but got %s" *)
| ErrNoAttachment    (* "couldn't find an attachment - not a timetable" *)
| ErrNoPNG.          (* "couldn't find an encoded png - not a timetable" *)

(** [strings.LastIndex(s, c)] for a separator [c] of one byte: the index of
    the last [c] of [s], or -1. *)
Fixpoint LastIndex (s : string) (c : ascii) : Z :=
  match s with
  | EmptyString => -1
  | String b s' =>
      let r := LastIndex s' c in
      if 0 <=? r then r + 1 else if Ascii.eqb b c then 0 else -1
  end.

(** [checkWhitelist]. [ParseAddress source] is the [Address] field of what
    [mail.ParseAddress] returns, [None] when it returns an error. The result
    is the error, [None] for [nil]. An index into a string is less than
    [2 ^ 63]: [at + 1] does not wrap around. *)
Definition checkWhitelist (whitelist : list string)
    (ParseAddress : string -> option string) (source : string)
  : option MailError :=
  let whiteset := strset_of whitelist in
  match ParseAddress source with
  | None => Some ErrParseSource
  | Some address =>
      let at_ := LastIndex address "@" in
      let domain := drop (Z.to_nat (at_ + 1)) address in
      match whiteset domain with
      | Some _ => None
      | None => Some (ErrSenderNotInWhitelist source domain)
      end
  end.

(** The loop of [findMe] over the destinations. *)
Fixpoint findMe_loop (domset : strset) (dest : list string) : option string :=
  match dest with
  | [] => None
  | d :: dest' =>
      match domset d with
      | Some _ => Some d
      | None => findMe_loop domset dest'
      end
  end.

(** [findMe] *)
Definition findMe (domains dest : list string) : MailError + string :=
  match findMe_loop (strset_of domains) dest with
  | Some d => inr d
  | None => inl (ErrSelfNotFound dest)
  end.

(** A part of a multipart message: the three headers the handler reads
    (empty when absent, as [Header.Get] returns them) and its body. *)
Record Part : Type :=
  mkPart { ContentDisposition : string; ContentType : string;
           ContentTransferEncoding : string; PartBody : string }.

(** [strings.Contains] *)
Fixpoint Contains (s substr : string) : bool :=
  if prefix substr s then true
  else match s with
       | EmptyString => false
       | String _ s' => Contains s' substr
       end.

(** [strings.HasPrefix] *)
Definition HasPrefix (s p : string) : bool := prefix p s.

(** The loop of [extractMHT] and of [extractPNG]: [parts] are the parts that
    [NextPart] returns before its first error, [i] is the counter of the
    loop, [wanted] is the test of the body. *)
Fixpoint extract_loop (wanted : Part -> bool) (parts : list Part) (i : Z)
  : option Part :=
  match parts with
  | [] => None
  | part :: parts' =>
      if i <? 20 then
        if wanted part then Some part
        else extract_loop wanted parts' (Int64.add i 1)
      else None
  end.

Definition isMHT (part : Part) : bool :=
  Contains (ContentDisposition part) ".mht"
  && HasPrefix (ContentType part) "application/octet-stream"
  && String.eqb (ContentTransferEncoding part) "base64".

Definition isPNG (part : Part) : bool :=
  String.eqb (ContentType part) "image/png"
  && String.eqb (ContentTransferEncoding part) "base64".

(** [extractMHT]. [media] is the media type that [mime.ParseMediaType]
    returns for the Content-Type of the message, [None] when it returns an
    error; [parts] are the parts that the multipart reader returns. *)
Definition extractMHT (media : option string) (parts : list Part)
  : MailError + Part :=
  match media with
  | None => inl ErrParseMediaType
  | Some mt =>
      if negb (String.eqb mt "multipart/mixed")
      then inl (ErrUnexpectedMediaType "multipart/mixed" mt)
      else match extract_loop isMHT parts 0 with
           | Some found => inr found
           | None => inl ErrNoAttachment
           end
  end.

(** [extractPNG] *)
Definition extractPNG (media : option string) (parts : list Part)
  : MailError + Part :=
  match media with
  | None => inl ErrParseMediaType
  | Some mt =>
      if negb (String.eqb mt "multipart/related")
      then inl (ErrUnexpectedMediaType "multipart/related" mt)
      else match extract_loop isPNG parts 0 with
           | Some found => inr found
           | None => inl ErrNoPNG
           end
  end.

(** The character [c] does not occur in [s]. *)
Definition free_of (c : ascii) (s : string) : Prop :=
  forall n, String.get n s <> Some c.

(** A mail with 21 attachments, the timetable being the last. *)
Definition other_part : Part :=
  mkPart "attachment; filename=notes.txt" "text/plain" "7bit" "notes".

Definition mht_part : Part :=
  mkPart "attachment; filename=times.mht" "application/octet-stream"
    "base64" "AAAA".

(** The value of a decimal digit. *)
Definition digit_value (c : ascii) : Z := Z.of_nat (nat_of_ascii c) - 48.

(* ================================================================== *)
(** * Properties *)

(** ** Machine integers *)

Ltac zlia := Z.quot_rem_to_equations; Z.div_mod_to_equations; lia.

Ltac unfold_int :=
  unfold Int64.add, Int64.sub, Int64.neg, Int64.mul, Int64.quot, Int64.rem,
    Int64.in_range, Int64.min_int, Int64.max_int in *.

Lemma wrap_small (z : Z) : - 2 ^ 63 <= z < 2 ^ 63 -> Int64.wrap z = z.
Proof. intros Hz. unfold Int64.wrap. zlia. Qed.

Lemma wrap_range (z : Z) : - 2 ^ 63 <= Int64.wrap z < 2 ^ 63.
Proof. unfold Int64.wrap. zlia. Qed.

Lemma wrap_idem (z : Z) : Int64.wrap (Int64.wrap z) = Int64.wrap z.
Proof. apply wrap_small, wrap_range. Qed.

(** [wrap] is the identity modulo [2 ^ 64]. *)
Lemma wrap_congr (a b : Z) :
  Int64.wrap a = Int64.wrap b <-> (a - b) mod 2 ^ 64 = 0.
Proof. unfold Int64.wrap. split; intros E; zlia. Qed.

Lemma wrap_add_l (a b : Z) : Int64.wrap (Int64.wrap a + b) = Int64.wrap (a + b).
Proof. apply wrap_congr. unfold Int64.wrap. zlia. Qed.

Lemma wrap_add_r (a b : Z) : Int64.wrap (a + Int64.wrap b) = Int64.wrap (a + b).
Proof. rewrite Z.add_comm, wrap_add_l. f_equal. lia. Qed.

Lemma add_assoc_wrap (t a b : Z) :
  Int64.add (Int64.add t a) b = Int64.add t (Int64.add a b).
Proof.
  unfold Int64.add. rewrite wrap_add_l, wrap_add_r. f_equal. lia.
Qed.

(** Adding [a] twice is adding it once only when [a] is 0. *)
Lemma add_twice_once (t a : Z) :
  Int64.in_range a ->
  Int64.add (Int64.add t a) a = Int64.add t a <-> a = 0.
Proof.
  intros Ha. unfold Int64.add. rewrite wrap_add_l, wrap_congr.
  unfold_int. split; intros E; zlia.
Qed.

(** ** Shifting (C5) *)

Lemma Rows_Shift_Shift (rs : Rows) (a b : Z) :
  Rows.Shift (Rows.Shift rs a) b = Rows.Shift rs (Int64.add a b).
Proof.
  unfold Rows.Shift. rewrite map_map. apply map_ext. intros r. cbn.
  now rewrite !add_assoc_wrap.
Qed.

Lemma Cols_Shift_Shift (cs : Cols) (a b : Z) :
  Cols.Shift (Cols.Shift cs a) b = Cols.Shift cs (Int64.add a b).
Proof.
  unfold Cols.Shift. rewrite map_map. apply map_ext. intros c. cbn.
  now rewrite !add_assoc_wrap.
Qed.

Lemma Rows_Shift_twice (rs : Rows) (a : Z) :
  Int64.in_range a -> rs <> [] ->
  Rows.Shift (Rows.Shift rs a) a = Rows.Shift rs a <-> a = 0.
Proof.
  intros Ha Hne. destruct rs as [|r rs]; [congruence|]. split.
  - cbn. intros E. injection E as E _ _. now apply add_twice_once in E.
  - intros ->. rewrite Rows_Shift_Shift. unfold Rows.Shift. apply map_ext.
    intros r'. f_equal; unfold Int64.add; rewrite wrap_add_r; f_equal; lia.
Qed.

Lemma Cols_Shift_twice (cs : Cols) (a : Z) :
  Int64.in_range a -> cs <> [] ->
  Cols.Shift (Cols.Shift cs a) a = Cols.Shift cs a <-> a = 0.
Proof.
  intros Ha Hne. destruct cs as [|c cs]; [congruence|]. split.
  - cbn. intros E. injection E as E _ _. now apply add_twice_once in E.
  - intros ->. rewrite Cols_Shift_Shift. unfold Cols.Shift. apply map_ext.
    intros c'. f_equal; unfold Int64.add; rewrite wrap_add_r; f_equal; lia.
Qed.

Lemma add_neg_self (t : Z) : Int64.add t (Int64.neg t) = 0.
Proof.
  unfold Int64.add, Int64.neg. rewrite wrap_add_r.
  replace (t + - t) with 0 by lia. reflexivity.
Qed.

Lemma add_add_neg_0 (t o : Z) :
  Int64.add t (Int64.add o (Int64.neg 0)) = Int64.add t o.
Proof.
  unfold Int64.add, Int64.neg. cbn [Z.opp]. rewrite !wrap_add_r. f_equal.
  change (Int64.wrap 0) with 0. lia.
Qed.

Lemma Rows_Shift_shifted_0 (rs : Rows) (o : Z) :
  Rows.Shift (Rows.Shift rs o) (Int64.neg 0) = Rows.Shift rs o.
Proof.
  rewrite Rows_Shift_Shift. unfold Rows.Shift. apply map_ext. intros r.
  now rewrite !add_add_neg_0.
Qed.

Lemma Cols_Shift_shifted_0 (cs : Cols) (o : Z) :
  Cols.Shift (Cols.Shift cs o) (Int64.neg 0) = Cols.Shift cs o.
Proof.
  rewrite Cols_Shift_Shift. unfold Cols.Shift. apply map_ext. intros c.
  now rewrite !add_add_neg_0.
Qed.

Lemma rebase_rows_idem (rs : Rows) : rebase_rows (rebase_rows rs) = rebase_rows rs.
Proof.
  destruct rs as [|r0 rs]; [reflexivity|].
  unfold rebase_rows at 2 3. set (o := Int64.neg (Row.Top r0)).
  assert (E : rebase_rows (Rows.Shift (r0 :: rs) o)
              = Rows.Shift (Rows.Shift (r0 :: rs) o) (Int64.neg 0)).
  { unfold rebase_rows. cbn [Rows.Shift map Row.Top]. unfold o.
    now rewrite add_neg_self. }
  rewrite E. apply Rows_Shift_shifted_0.
Qed.

Lemma rebase_cols_idem (cs : Cols) : rebase_cols (rebase_cols cs) = rebase_cols cs.
Proof.
  destruct cs as [|c0 cs]; [reflexivity|].
  unfold rebase_cols at 2 3. set (o := Int64.neg (Col.Left c0)).
  assert (E : rebase_cols (Cols.Shift (c0 :: cs) o)
              = Cols.Shift (Cols.Shift (c0 :: cs) o) (Int64.neg 0)).
  { unfold rebase_cols. cbn [Cols.Shift map Col.Left]. unfold o.
    now rewrite add_neg_self. }
  rewrite E. apply Cols_Shift_shifted_0.
Qed.

(** C5, as stated, fails: the row from 5 to 15 shifted by -5 is the row from
    0 to 10, and shifted by -5 once more it is the row from -5 to 5; the same
    for the column from 3 to 10 and the offset -3. *)
Lemma C5_shift_twice_moves_again :
  Rows.Shift one_row (Int64.neg 5) = [Row.mk 0 0 10]
  /\ Rows.Shift (Rows.Shift one_row (Int64.neg 5)) (Int64.neg 5) = [Row.mk 0 (-5) 5]
  /\ Rows.Shift (Rows.Shift one_row (Int64.neg 5)) (Int64.neg 5)
     <> Rows.Shift one_row (Int64.neg 5)
  /\ Cols.Shift (Cols.Shift one_col (Int64.neg 3)) (Int64.neg 3)
     <> Cols.Shift one_col (Int64.neg 3).
Proof. repeat split; try reflexivity; vm_compute; discriminate. Qed.

(** C5, amended: [Shift] is cumulative. Shifting by [a] and then by [b] is
    shifting by [a + b]; shifting a non-empty sequence twice by the same
    offset is shifting it once only for the offset 0; what is idempotent is
    the re-basing of [prime], whose offset is read from the sequence it
    shifts (the second time it is 0). *)
Theorem C5_shift_is_cumulative (rs : Rows) (cs : Cols) (a b : Z) :
  Int64.in_range a -> rs <> [] -> cs <> [] ->
  Rows.Shift (Rows.Shift rs a) b = Rows.Shift rs (Int64.add a b)
  /\ Cols.Shift (Cols.Shift cs a) b = Cols.Shift cs (Int64.add a b)
  /\ (Rows.Shift (Rows.Shift rs a) a = Rows.Shift rs a <-> a = 0)
  /\ (Cols.Shift (Cols.Shift cs a) a = Cols.Shift cs a <-> a = 0)
  /\ rebase_rows (rebase_rows rs) = rebase_rows rs
  /\ rebase_cols (rebase_cols cs) = rebase_cols cs.
Proof.
  intros Ha Hrs Hcs. repeat apply conj.
  - apply Rows_Shift_Shift.
  - apply Cols_Shift_Shift.
  - now apply Rows_Shift_twice.
  - now apply Rows_Shift_twice.
  - now apply Cols_Shift_twice.
  - now apply Cols_Shift_twice.
  - apply rebase_rows_idem.
  - apply rebase_cols_idem.
Qed.

Lemma C5_shift_is_cumulative_witness :
  Rows.Shift (Rows.Shift one_row (-5)) 2 = Rows.Shift one_row (Int64.add (-5) 2)
  /\ Cols.Shift (Cols.Shift one_col (-5)) 2 = Cols.Shift one_col (Int64.add (-5) 2)
  /\ (Rows.Shift (Rows.Shift one_row (-5)) (-5) = Rows.Shift one_row (-5) <-> -5 = 0)
  /\ (Cols.Shift (Cols.Shift one_col (-5)) (-5) = Cols.Shift one_col (-5) <-> -5 = 0)
  /\ rebase_rows (rebase_rows one_row) = rebase_rows one_row
  /\ rebase_cols (rebase_cols one_col) = rebase_cols one_col.
Proof.
  apply (C5_shift_is_cumulative one_row one_col (-5) 2).
  - unfold Int64.in_range, Int64.min_int, Int64.max_int. lia.
  - discriminate.
  - discriminate.
Defined.

(** ** Loops over a range *)

Lemma in_zrange (lo hi x : Z) : In x (zrange lo hi) <-> lo <= x < hi.
Proof.
  unfold zrange. rewrite in_map_iff. split.
  - intros (i & <- & Hi). apply in_seq in Hi. lia.
  - intros Hx. exists (Z.to_nat (x - lo)). split; [lia|]. apply in_seq. lia.
Qed.

Lemma forallb_zrange (P : Z -> bool) (lo hi : Z) :
  forallb P (zrange lo hi) = true -> forall x, lo <= x < hi -> P x = true.
Proof.
  intros HP x Hx. rewrite forallb_forall in HP. now apply HP, in_zrange.
Qed.

(** ** Formatting times *)

Lemma Hour_of_range (t : Time) : 0 <= Hour_of t < 24.
Proof. unfold Hour_of, secondsPerDay, secondsPerHour, secondsPerMinute. zlia. Qed.

Lemma Minute_of_range (t : Time) : 0 <= Minute_of t < 60.
Proof. unfold Minute_of, secondsPerHour, secondsPerMinute. zlia. Qed.

Lemma appendInt_two_digits (x : Z) :
  0 <= x < 100 ->
  appendInt x 2
  = String (ascii_of_digit (x / 10))
      (String (ascii_of_digit (x mod 10)) EmptyString).
Proof.
  intros Hx. apply String.eqb_eq.
  apply (forallb_zrange
           (fun x => String.eqb (appendInt x 2)
                       (String (ascii_of_digit (x / 10))
                          (String (ascii_of_digit (x mod 10)) EmptyString)))
           0 100); [now vm_compute | exact Hx].
Qed.

(** The layout "15:04" prints the hour and the minute on two digits each. *)
Lemma Format_prettyTime (t : Time) :
  Format t prettyTime = hhmm (Hour_of t) (Minute_of t).
Proof.
  pose proof (Hour_of_range t). pose proof (Minute_of_range t).
  unfold prettyTime, hhmm. cbn [Format].
  rewrite !appendInt_two_digits by lia. reflexivity.
Qed.

(** Adding a duration of whole seconds, less than a day, to a midnight. *)
Lemma Add_midnight (d : Time) (s : Z) :
  is_midnight d -> 0 <= s < secondsPerDay ->
  Hour_of (Add d (s * Second)) = s / secondsPerHour
  /\ Minute_of (Add d (s * Second)) = (s mod secondsPerHour) / secondsPerMinute.
Proof.
  intros [Hs Hn] Hr. unfold Add. rewrite Hn.
  change (s * Second) with (s * 1000000000).
  rewrite Z.quot_mul, Z.rem_mul by lia. cbn [Z.add Z.leb Z.ltb Z.compare].
  unfold Hour_of, Minute_of; cbn [sec].
  unfold secondsPerDay, secondsPerHour, secondsPerMinute in *. zlia.
Qed.

(** ** Fix generation (C8) *)

Lemma fixEntry_in_only (e : Entry) (avgIn avgOut : Duration) (i : Time) :
  in_ e = Some i -> out e = None ->
  fixEntry e avgIn avgOut
  = Ok (Format (date e) prettyDate ++ ": arrived at "
        ++ hhmm (Hour_of i) (Minute_of i) ++ ", left at "
        ++ hhmm (Hour_of (Add (date e) avgOut))
                (Minute_of (Add (date e) avgOut)))%string.
Proof.
  intros Hi Ho. unfold fixEntry. rewrite Hi, Ho.
  now rewrite !Format_prettyTime.
Qed.

Lemma fixEntry_out_only (e : Entry) (avgIn avgOut : Duration) (o : Time) :
  in_ e = None -> out e = Some o ->
  fixEntry e avgIn avgOut
  = Ok (Format (date e) prettyDate ++ ": arrived at "
        ++ hhmm (Hour_of (Add (date e) avgIn))
                (Minute_of (Add (date e) avgIn)) ++ ", left at "
        ++ hhmm (Hour_of o) (Minute_of o))%string.
Proof.
  intros Hi Ho. unfold fixEntry. rewrite Hi, Ho.
  now rewrite !Format_prettyTime.
Qed.

(** C8: [fixEntry] fails, with one of the two errors of an ambiguous entry,
    exactly when both or neither of the times are set. With the arrival
    only, the departure is the date plus the average departure; with the
    departure only, the arrival is the date plus the average arrival; the
    result is "<date>: arrived at HH:MM, left at HH:MM". An arrival at 08:47
    and an average departure of 17 hours give "arrived at 08:47, left at
    17:00". *)
Theorem C8_fixEntry (e : Entry) (avgIn avgOut : Duration) :
  ((exists err, fixEntry e avgIn avgOut = Err err /\ AmbiguousEntry err)
   <-> (in_ e = None /\ out e = None) \/ (in_ e <> None /\ out e <> None))
  /\ ((exists txt, fixEntry e avgIn avgOut = Ok txt)
      <-> (in_ e <> None /\ out e = None) \/ (in_ e = None /\ out e <> None))
  /\ (forall i, in_ e = Some i -> out e = None ->
      fixEntry e avgIn avgOut
      = Ok (Format (date e) prettyDate ++ ": arrived at "
            ++ hhmm (Hour_of i) (Minute_of i) ++ ", left at "
            ++ hhmm (Hour_of (Add (date e) avgOut))
                    (Minute_of (Add (date e) avgOut)))%string)
  /\ (forall o, in_ e = None -> out e = Some o ->
      fixEntry e avgIn avgOut
      = Ok (Format (date e) prettyDate ++ ": arrived at "
            ++ hhmm (Hour_of (Add (date e) avgIn))
                    (Minute_of (Add (date e) avgIn)) ++ ", left at "
            ++ hhmm (Hour_of o) (Minute_of o))%string)
  /\ (forall i, in_ e = Some i -> out e = None ->
      Hour_of i = 8 -> Minute_of i = 47 ->
      is_midnight (date e) -> avgOut = 17 * Hour ->
      fixEntry e avgIn avgOut
      = Ok (Format (date e) prettyDate
            ++ ": arrived at 08:47, left at 17:00")%string).
Proof.
  repeat apply conj.
  - intros (err & E & _). unfold fixEntry in E.
    destruct (in_ e), (out e); try discriminate.
    + right. split; discriminate.
    + now left.
  - intros [[Hi Ho] | [Hi Ho]]; unfold fixEntry, AmbiguousEntry.
    + rewrite Hi, Ho. eexists. split; [reflexivity | now left].
    + destruct (in_ e), (out e); try congruence.
      eexists. split; [reflexivity | now right].
  - intros (txt & E). unfold fixEntry in E.
    destruct (in_ e), (out e); try discriminate.
    + left. split; [discriminate | reflexivity].
    + right. split; [reflexivity | discriminate].
  - intros [[Hi Ho] | [Hi Ho]]; unfold fixEntry;
      destruct (in_ e), (out e); try congruence; eexists; reflexivity.
  - intros i. apply fixEntry_in_only.
  - intros o. apply fixEntry_out_only.
  - intros i Hi Ho Hh Hm Hd ->.
    rewrite (fixEntry_in_only e avgIn (17 * Hour) i Hi Ho), Hh, Hm.
    destruct (Add_midnight (date e) 61200 Hd) as [Ah Am]; [now vm_compute|].
    change (61200 * Second) with (17 * Hour) in Ah, Am.
    rewrite Ah, Am. reflexivity.
Qed.

Lemma C8_fixEntry_witness :
  fixEntry unclosed_entry (9 * Hour) (17 * Hour)
  = Ok "05/01: arrived at 08:47, left at 17:00"%string.
Proof.
  destruct (C8_fixEntry unclosed_entry (9 * Hour) (17 * Hour))
    as (_ & _ & _ & _ & E).
  exact (E (Date 2023 1 5 8 47) eq_refl eq_refl eq_refl eq_refl
           (conj eq_refl eq_refl) eq_refl).
Defined.

(** ** Report generation (C7) *)

Lemma report_of_sound (avgIn avgOut : Duration) (e : Entry) :
  entry_report avgIn avgOut e
    (fst (report_of avgIn avgOut e)) (snd (report_of avgIn avgOut e)).
Proof.
  unfold report_of.
  destruct (String.eqb_spec (activity e) EmptyString) as [E0 | N0].
  { now apply report_normal. }
  destruct (String.eqb_spec (activity e) "UnclosedDay") as [E1 | N1].
  { cbn [fst snd]. destruct (fixEntry e avgIn avgOut) as [f | err |] eqn:F.
    - now apply report_unclosed_fixed.
    - now apply report_unclosed_skipped with err.
    - unfold fixEntry in F. destruct (in_ e), (out e); discriminate. }
  destruct (String.eqb_spec (activity e) "Vacation/Una") as [E2 | N2].
  { now apply report_missing. }
  now apply report_other.
Qed.

Lemma domagic_loop_reports (avgIn avgOut : Duration) (entries : list Entry) :
  forall problems fixes,
    domagic_loop avgIn avgOut entries problems fixes
    = mkMagic
        (problems ++ List.concat (map fst (map (report_of avgIn avgOut) entries)))
        (fixes ++ List.concat (map snd (map (report_of avgIn avgOut) entries))).
Proof.
  induction entries as [|e entries IH]; intros problems fixes.
  - cbn. now rewrite !app_nil_r.
  - cbn [domagic_loop map List.concat]. unfold report_of at 1 3.
    destruct (String.eqb (activity e) EmptyString).
    { now rewrite IH. }
    destruct (String.eqb (activity e) "UnclosedDay").
    { destruct (fixEntry e avgIn avgOut); rewrite IH; cbn [fst snd];
        now rewrite <- ?app_assoc. }
    destruct (String.eqb (activity e) "Vacation/Una");
      rewrite IH; cbn [fst snd]; now rewrite <- ?app_assoc.
Qed.

(** C7: the problems and the fixes of the report are the concatenation, in
    the order of the entries, of what each entry contributes: nothing for an
    empty activity; "<date>: Unclosed day" and the fix when it can be
    generated (none otherwise, the report going on) for "UnclosedDay";
    "<date>: Missing report" and no fix for "Vacation/Una"; "<date>:
    <activity>" and no fix for any other activity. *)
Theorem C7_domagic_report (entries : list Entry) :
  exists reports : list (list string * list string),
    Forall2 (fun e r =>
               entry_report (averageIn entries) (averageOut entries) e
                 (fst r) (snd r))
            entries reports
    /\ Problems (domagic entries) = List.concat (map fst reports)
    /\ Fixes (domagic entries) = List.concat (map snd reports).
Proof.
  exists (map (report_of (averageIn entries) (averageOut entries)) entries).
  split.
  - generalize (averageIn entries), (averageOut entries). intros a b.
    induction entries as [|e entries IH]; constructor.
    + apply report_of_sound.
    + exact IH.
  - unfold domagic. now rewrite domagic_loop_reports.
Qed.

Lemma C7_domagic_report_witness :
  exists reports : list (list string * list string),
    Forall2 (fun e r =>
               entry_report (averageIn [unclosed_entry; vacation_entry])
                 (averageOut [unclosed_entry; vacation_entry]) e (fst r) (snd r))
            [unclosed_entry; vacation_entry] reports
    /\ Problems (domagic [unclosed_entry; vacation_entry]) = List.concat (map fst reports)
    /\ Fixes (domagic [unclosed_entry; vacation_entry]) = List.concat (map snd reports).
Proof. exact (C7_domagic_report [unclosed_entry; vacation_entry]). Defined.

(** The report of the two example entries. *)
Example domagic_example :
  domagic [unclosed_entry; vacation_entry]
  = mkMagic ["05/01: Unclosed day"; "06/01: Missing report"]%string
            ["05/01: arrived at 08:47, left at 17:00"%string].
Proof. reflexivity. Qed.

(** ** Averages (C9) *)

Lemma time_of_day_range (t : Time) : 0 <= time_of_day t < 24 * Hour.
Proof.
  pose proof (Hour_of_range t). pose proof (Minute_of_range t).
  unfold time_of_day. change Hour with 3600000000000.
  change Minute with 60000000000. lia.
Qed.

(** The duration [average] computes for a value is its time of day: the
    products and the sum do not wrap. *)
Lemma day_time_no_wrap (v : Time) :
  Int64.add (Int64.mul (Hour_of v) Hour) (Int64.mul (Minute_of v) Minute)
  = time_of_day v.
Proof.
  pose proof (Hour_of_range v). pose proof (Minute_of_range v).
  unfold Int64.add, Int64.mul, time_of_day.
  change Hour with 3600000000000. change Minute with 60000000000.
  rewrite (wrap_small (Hour_of v * _)), (wrap_small (Minute_of v * _)) by lia.
  apply wrap_small. lia.
Qed.

Lemma set_values_length (extractor : Entry -> option Time) (entries : list Entry) :
  (List.length (set_values extractor entries) <= List.length entries)%nat.
Proof.
  unfold set_values. induction entries as [|e entries IH].
  - apply Nat.le_refl.
  - cbn [flat_map]. rewrite length_app.
    destruct (extractor e); cbn [List.length]; lia.
Qed.

Lemma sum_of_day_times_range (l : list Time) :
  0 <= sum_of_day_times l <= Z.of_nat (List.length l) * (24 * Hour - 1).
Proof.
  induction l as [|v l IH]; cbn [sum_of_day_times fold_right List.length].
  - lia.
  - fold (sum_of_day_times l). pose proof (time_of_day_range v). lia.
Qed.

Lemma max_entries_bound (n : Z) :
  0 <= n <= max_entries -> n * (24 * Hour) <= Int64.max_int.
Proof.
  unfold max_entries. change (24 * Hour) with 86400000000000.
  unfold Int64.max_int. intros Hn. zlia.
Qed.

(** Without overflow the loop of [average] sums the day times of the values
    that are set and counts them. *)
Lemma average_loop_sum (extractor : Entry -> option Time) (entries : list Entry) :
  forall total count,
    0 <= total -> 0 <= count ->
    total + Z.of_nat (List.length entries) * (24 * Hour) <= Int64.max_int ->
    count + Z.of_nat (List.length entries) <= Int64.max_int ->
    average_loop entries extractor total count
    = (total + sum_of_day_times (set_values extractor entries),
       count + Z.of_nat (List.length (set_values extractor entries))).
Proof.
  change (24 * Hour) with 86400000000000.
  induction entries as [|e entries IH]; intros total count Ht Hc Hbt Hbc.
  - cbn. f_equal; lia.
  - cbn [average_loop set_values flat_map]. fold (set_values extractor entries).
    cbn [List.length] in Hbt, Hbc. rewrite Nat2Z.inj_succ in Hbt, Hbc.
    destruct (extractor e) as [v|].
    + rewrite day_time_no_wrap. pose proof (time_of_day_range v) as Hv.
      change (24 * Hour) with 86400000000000 in Hv.
      unfold Int64.add. unfold Int64.max_int in *.
      rewrite !wrap_small by lia.
      rewrite IH by lia. cbn [app List.length sum_of_day_times fold_right].
      fold (sum_of_day_times (set_values extractor entries)).
      f_equal; lia.
    + rewrite IH by lia. reflexivity.
Qed.

(** [Round] on a duration of less than a day and the quarter of an hour. *)
Lemma Round_quarter (d : Duration) :
  0 <= d < 24 * Hour ->
  let m := 15 * Minute in
  let r := Round d m in
  (exists k, r = k * m) /\ 2 * (r - d) <= m /\ 2 * (d - r) <= m - 2.
Proof.
  change (24 * Hour) with 86400000000000.
  change (15 * Minute) with 900000000000. intros Hd. cbv zeta.
  unfold Round. cbn [Z.leb Z.compare].
  assert (Hd0 : (d <? 0) = false) by lia. rewrite Hd0.
  unfold Int64.rem. rewrite Z.rem_mod_nonneg by lia.
  assert (Hr : 0 <= d mod 900000000000 < 900000000000)
    by (apply Z.mod_pos_bound; lia).
  assert (Hdm : d = 900000000000 * (d / 900000000000) + d mod 900000000000)
    by (apply Z.div_mod; lia).
  set (q := d / 900000000000) in *. set (r := d mod 900000000000) in *.
  unfold lessThanHalf.
  change (2 ^ 64) with 18446744073709551616.
  rewrite (Z.mod_small r), (Z.mod_small (r + r)), (Z.mod_small 900000000000)
    by lia.
  unfold Int64.sub, Int64.add.
  destruct (r + r <? 900000000000) eqn:Hlt.
  - rewrite wrap_small by lia. split; [exists q; lia | lia].
  - rewrite (wrap_small (d + _)) by lia. rewrite wrap_small by lia.
    assert (Hgt : (d <? d + 900000000000 - r) = true) by lia. rewrite Hgt.
    split; [exists (q + 1); lia | lia].
Qed.

(** [average] when its total cannot overflow. *)
Lemma average_no_overflow (extractor : Entry -> option Time)
    (entries : list Entry) (def : Duration) :
  Z.of_nat (List.length entries) <= max_entries ->
  let vs := set_values extractor entries in
  average entries extractor def
  = if Z.of_nat (List.length vs) =? 0 then def
    else Round (sum_of_day_times vs / Z.of_nat (List.length vs)) (15 * Minute).
Proof.
  intros Hn vs. unfold average.
  pose proof (max_entries_bound (Z.of_nat (List.length entries))
                (conj (Zle_0_nat _) Hn)) as Hb.
  assert (Hmax : max_entries <= Int64.max_int) by now vm_compute.
  rewrite average_loop_sum by lia. cbn [Z.add]. fold vs.
  destruct (Z.of_nat (List.length vs) =? 0) eqn:Hc; [reflexivity|].
  apply Z.eqb_neq in Hc. f_equal.
  pose proof (sum_of_day_times_range vs) as Hs.
  pose proof (set_values_length extractor entries) as Hl. fold vs in Hl.
  unfold Int64.mul, Int64.quot, Nanosecond.
  rewrite Z.quot_div_nonneg by lia.
  assert (0 <= sum_of_day_times vs / Z.of_nat (List.length vs)
          <= sum_of_day_times vs).
  { split; [apply Z.div_pos; lia|]. apply Z.div_le_upper_bound; nia. }
  change (24 * Hour) with 86400000000000 in *. unfold Int64.max_int in *.
  rewrite Z.mul_1_r, wrap_idem, wrap_small by lia. reflexivity.
Qed.




(** ** Strings *)

Open Scope string_scope.

Lemma length_append (a b : string) :
  String.length (a ++ b) = (String.length a + String.length b)%nat.
Proof. induction a as [|c a IH]; cbn; [reflexivity | now rewrite IH]. Qed.

Lemma substring_all (s : string) : substring 0 (String.length s) s = s.
Proof. induction s as [|c s IH]; cbn; [reflexivity | now rewrite IH]. Qed.

Lemma drop_append (a b : string) : drop (String.length a) (a ++ b) = b.
Proof.
  unfold drop. rewrite length_append.
  replace (String.length a + String.length b - String.length a)%nat
    with (String.length b) by lia.
  induction a as [|c a IH]; cbn [String.length append substring].
  - apply substring_all.
  - exact IH.
Qed.

Lemma append_inj (a a' b b' : string) :
  a ++ b = a' ++ b' -> String.length a = String.length a' ->
  a = a' /\ b = b'.
Proof.
  revert a'. induction a as [|c a IH]; intros [|c' a'] E L;
    try discriminate L.
  - now split.
  - cbn in E, L. injection E as -> E. injection L as L.
    destruct (IH a' E L) as [-> ->]. now split.
Qed.

(** [prefix] decides an occurrence at position 0. *)
Lemma prefix_occurs (sub s : string) :
  prefix sub s = true <-> occurs_at sub s 0.
Proof.
  unfold occurs_at. split.
  - revert s. induction sub as [|c sub IH]; intros s Hp.
    + exists EmptyString, s. now split.
    + destruct s as [|d s]; [discriminate|]. cbn in Hp.
      destruct (ascii_dec c d) as [->|]; [|discriminate].
      destruct (IH s Hp) as (a & b & -> & La).
      destruct a; [|discriminate]. exists EmptyString, b. now split.
  - intros (a & b & -> & La). destruct a; [|discriminate]. cbn [append].
    clear La. induction sub as [|c sub IH]; cbn.
    + now destruct b.
    + destruct (ascii_dec c c); [exact IH | congruence].
Qed.

Lemma occurs_at_cons (sub : string) (c : ascii) (s : string) (n : nat) :
  occurs_at sub (String c s) (S n) <-> occurs_at sub s n.
Proof.
  unfold occurs_at. split.
  - intros (a & b & E & La). destruct a as [|c' a]; [discriminate|].
    cbn in E, La. injection E as -> ->. injection La as La. now exists a, b.
  - intros (a & b & -> & La). exists (String c a), b. cbn. now rewrite La.
Qed.

(** [replace_first] rewrites the leftmost occurrence, when there is one. *)
Lemma replace_first_spec (old new s : string) :
  old <> EmptyString ->
  (exists a b,
      s = a ++ old ++ b
      /\ replace_first old new s = a ++ new ++ b
      /\ forall n, occurs_at old s n -> (String.length a <= n)%nat)
  \/ (replace_first old new s = s /\ forall n, ~ occurs_at old s n).
Proof.
  intros Hold. induction s as [|c s IH].
  - right. cbn [replace_first]. destruct (prefix old EmptyString) eqn:Hp.
    + apply prefix_occurs in Hp. destruct Hp as (a & b & E & La).
      destruct a; [|discriminate]. destruct old; [congruence | discriminate].
    + split; [reflexivity|]. intros n (a & b & E & _).
      destruct a; [|discriminate]. destruct old; [congruence | discriminate].
  - cbn [replace_first]. destruct (prefix old (String c s)) eqn:Hp.
    + left. pose proof Hp as Ho. apply prefix_occurs in Ho.
      destruct Ho as (a & b & E & La). destruct a; [|discriminate].
      cbn [append] in E. exists EmptyString, b. cbn [append String.length].
      rewrite E, drop_append. repeat split. intros n _. lia.
    + destruct IH as [(a & b & E & Er & Hmin) | [Er Hno]].
      * left. exists (String c a), b. cbn [append String.length].
        rewrite Er, E. repeat split.
        intros [|n] Ho.
        -- rewrite <- E in Ho. apply prefix_occurs in Ho. congruence.
        -- rewrite <- E in Ho. apply occurs_at_cons in Ho.
           apply Hmin in Ho. lia.
      * right. rewrite Er. split; [reflexivity|]. intros [|n] Ho.
        -- apply prefix_occurs in Ho. congruence.
        -- apply occurs_at_cons in Ho. now apply (Hno n).
Qed.

(** ** Parsing dates (C2) *)

(** One level of nesting is all [parseDate] needs: more fuel changes nothing. *)
Lemma parseDate_fuel (n : nat) (s : string) :
  parseDate_rec (S (S n)) s = parseDate s.
Proof.
  unfold parseDate. cbn [parseDate_rec].
  destruct (String.length s) as [|[|[|[|[|[|[|[|[|[|[|[|[|k]]]]]]]]]]]]];
    try reflexivity.
  destruct (String.length (replace_first "1/" "1" s)
            =? 10)%nat eqn:E; [|reflexivity].
  apply Nat.eqb_eq in E. cbn [parseDate_rec]. now rewrite E.
Qed.

Lemma parseDate_length_10 (s : string) :
  String.length s = 10%nat -> parseDate s = parseDate10 s.
Proof.
  intros L. unfold parseDate, parseDate10. cbn [parseDate_rec]. now rewrite L.
Qed.

Lemma parseDate_length_11 (s : string) :
  String.length s = 11%nat ->
  parseDate s
  = let undup := replace_first "1/" "1" s in
    if (String.length undup =? 10)%nat then parseDate10 undup
    else Err (ErrUnexpectedDateFormat s).
Proof.
  intros L. unfold parseDate. cbn [parseDate_rec]. rewrite L. cbv zeta.
  destruct (String.length (replace_first "1/" "1" s)
            =? 10)%nat eqn:E; [|reflexivity].
  apply Nat.eqb_eq in E. unfold parseDate10. cbn [parseDate_rec]. now rewrite E.
Qed.

(** C2, as stated, fails: the 11 characters 01//02/2023 are parsed as 1
    February 2023, while removing the two characters "1/" leaves the 9
    characters 0/02/2023, which the rule of the claim rejects. *)
Lemma C2_pair_is_not_removed :
  String.length "01//02/2023" = 11%nat
  /\ replace_first "1/" "1" "01//02/2023" = "01/02/2023"
  /\ parseDate "01//02/2023" = Ok (Date 2023 2 1 0 0)
  /\ parseDate11_removing_pair "01//02/2023"
     = Err (ErrUnexpectedDateFormat "01//02/2023")
  /\ parseDate "01//02/2023" <> parseDate11_removing_pair "01//02/2023".
Proof. repeat split; try reflexivity. vm_compute. discriminate. Qed.

(** C2, amended: for an input of 11 characters [parseDate] replaces the
    leftmost occurrence of "1/" by "1", that is, it deletes the slash of that
    occurrence and keeps the 1. When "1/" occurs the result has 10
    characters and is parsed by the rule for length 10; when it does not
    occur [parseDate] fails with the unexpected-format error. *)
Theorem C2_parseDate_11 (s : string) :
  String.length s = 11%nat ->
  (forall a b,
      s = a ++ "1/" ++ b ->
      (forall n, occurs_at "1/" s n -> (String.length a <= n)%nat) ->
      String.length (a ++ "1" ++ b) = 10%nat
      /\ parseDate s = parseDate10 (a ++ "1" ++ b))
  /\ ((forall n, ~ occurs_at "1/" s n) ->
      parseDate s = Err (ErrUnexpectedDateFormat s)).
Proof.
  intros L. rewrite (parseDate_length_11 s L). cbv zeta.
  destruct (replace_first_spec "1/" "1" s) as [(a0 & b0 & E & Er & Hmin) | [Er Hno]];
    [discriminate | |].
  - split.
    + intros a b Es Hm.
      assert (La : String.length a = String.length a0).
      { apply Nat.le_antisymm.
        - apply Hm. now exists a0, b0.
        - apply Hmin. now exists a, b. }
      rewrite Es in E. destruct (append_inj _ _ _ _ E La) as [<- Eb].
      injection Eb as <-.
      assert (L10 : String.length (a ++ "1" ++ b) = 10%nat).
      { rewrite Es in L. rewrite length_append in *. cbn in *. lia. }
      split; [exact L10|]. rewrite Er, L10. reflexivity.
    + intros Hno. exfalso. apply (Hno (String.length a0)). now exists a0, b0.
  - split.
    + intros a b Es _. exfalso. apply (Hno (String.length a)). now exists a, b.
    + intros _. now rewrite Er, L.
Qed.

Lemma C2_parseDate_11_witness :
  String.length ("0" ++ "1" ++ "/02/2023") = 10%nat
  /\ parseDate "01//02/2023" = parseDate10 ("0" ++ "1" ++ "/02/2023").
Proof.
  refine (proj1 (C2_parseDate_11 "01//02/2023" eq_refl) "0" "/02/2023" eq_refl _).
  intros [|n] Ho; [|cbn; lia]. apply prefix_occurs in Ho. discriminate Ho.
Defined.
Close Scope string_scope.

(** ** Times read before the date (C1) *)

(** The zero date formats as the first of January of year 1. *)
Lemma Format_zero_date : Format zeroTime dateFormat = "01010001"%string.
Proof. reflexivity. Qed.

(** Every hour and minute, written on two digits each with or without a dot
    between them, is a time that [parseTime] accepts after the date string of
    the zero date. *)
Lemma parseTime_zero_date_all :
  forallb (fun h =>
    forallb (fun m =>
      match parseTime "01010001" (appendInt h 2 ++ "." ++ appendInt m 2),
            parseTime "01010001" (appendInt h 2 ++ appendInt m 2) with
      | Ok t1, Ok t2 =>
          (sec t1 =? sec (Date 1 1 1 h m)) && (nsec t1 =? 0)
          && (sec t2 =? sec (Date 1 1 1 h m)) && (nsec t2 =? 0)
      | _, _ => false
      end) (zrange 0 60)) (zrange 0 24) = true.
Proof. now vm_compute. Qed.

Lemma parseTime_zero_date (h m : Z) (txt : string) :
  0 <= h < 24 -> 0 <= m < 60 ->
  txt = (appendInt h 2 ++ "." ++ appendInt m 2)%string
  \/ txt = (appendInt h 2 ++ appendInt m 2)%string ->
  parseTime "01010001" txt = Ok (Date 1 1 1 h m).
Proof.
  intros Hh Hm Htxt.
  pose proof (forallb_zrange _ _ _ parseTime_zero_date_all h Hh) as A.
  cbv beta in A.
  pose proof (forallb_zrange _ _ _ A m Hm) as C. cbv beta in C. clear A.
  destruct (parseTime "01010001" (appendInt h 2 ++ "." ++ appendInt m 2))
    as [[s1 n1] | |] eqn:E1; try discriminate C.
  destruct (parseTime "01010001" (appendInt h 2 ++ appendInt m 2))
    as [[s2 n2] | |] eqn:E2; try discriminate C.
  cbn [sec nsec] in C.
  apply andb_prop in C. destruct C as [C C4].
  apply andb_prop in C. destruct C as [C C3].
  apply andb_prop in C. destruct C as [C1 C2].
  apply Z.eqb_eq in C1, C2, C3, C4. subst.
  destruct Htxt as [-> | ->]; [rewrite E1 | rewrite E2]; reflexivity.
Qed.

(** What [scan_step] does with a word that falls in the column In or Out of
    a row whose entry still has the zero date. *)
Lemma scan_step_time_zero_date (sk : Skeleton) (entries : list Entry)
    (d : TextDetection) (cx cy c r : Z) (e : Entry) :
  Type_ d = Some "WORD"%string ->
  center (Geometry d) sk = (cx, cy) ->
  Cols.Find (SCols sk) cx = Ok c -> c = InHeader \/ c = OutHeader ->
  Rows.Find (SRows sk) cy = Ok r ->
  index entries r = Ok e -> date e = zeroTime ->
  scan_step sk entries d
  = (t <- parseTime "01010001" (DetectedText d) ;;
     Ok (update entries (Z.to_nat r) (fun e =>
           if c =? InHeader then mkEntry (date e) (activity e) (Some t) (out e)
           else mkEntry (date e) (activity e) (in_ e) (Some t)))).
Proof.
  intros Hty Hc Hcol Hio Hrow He Hd. unfold scan_step.
  rewrite Hty, Hc, Hcol, Hrow. cbn [String.eqb Ascii.eqb Bool.eqb negb].
  rewrite He. cbn [bind]. rewrite Hd, Format_zero_date.
  destruct Hio as [-> | ->]; reflexivity.
Qed.

(** C1, as stated, fails: on the skeleton of the example table, a single
    word "15.04" centred in the column In of row 0, with no date read for
    that row, is parsed, and the scan returns its entries. *)
Lemma C1_time_without_date_is_parsed :
  prime table_img = Ok table_skeleton
  /\ center (Geometry in_detection) table_skeleton = (18, 6)
  /\ Cols.Find (SCols table_skeleton) 18 = Ok InHeader
  /\ Rows.Find (SRows table_skeleton) 6 = Ok 0
  /\ parseTime (Format zeroTime dateFormat) "15.04" = Ok (Date 1 1 1 15 4)
  /\ scan [in_detection] table_skeleton
     = Ok [mkEntry zeroTime EmptyString (Some (Date 1 1 1 15 4)) None; Entry0].
Proof. repeat split; now vm_compute. Qed.

(** C1, amended: when a word falls in the column In or Out of a row whose
    entry has no date yet, the date string given to [parseTime] is that of
    the zero date, "01010001", and the step fails exactly when [parseTime]
    fails on it. A text made of an hour and a minute on two digits each, with
    or without a dot, is accepted: the time of the entry is set to that time
    on 1 January of year 1 and the scan goes on. *)
Theorem C1_time_before_date (sk : Skeleton) (entries : list Entry)
    (d : TextDetection) (cx cy c r : Z) (e : Entry) :
  Type_ d = Some "WORD"%string ->
  center (Geometry d) sk = (cx, cy) ->
  Cols.Find (SCols sk) cx = Ok c -> c = InHeader \/ c = OutHeader ->
  Rows.Find (SRows sk) cy = Ok r ->
  index entries r = Ok e -> date e = zeroTime ->
  Format (date e) dateFormat = "01010001"%string
  /\ (forall err,
        scan_step sk entries d = Err err
        <-> parseTime "01010001" (DetectedText d) = Err err)
  /\ (forall h m,
        0 <= h < 24 -> 0 <= m < 60 ->
        DetectedText d = (appendInt h 2 ++ "." ++ appendInt m 2)%string
        \/ DetectedText d = (appendInt h 2 ++ appendInt m 2)%string ->
        scan_step sk entries d
        = Ok (update entries (Z.to_nat r) (fun e =>
                if c =? InHeader
                then mkEntry (date e) (activity e) (Some (Date 1 1 1 h m)) (out e)
                else mkEntry (date e) (activity e) (in_ e) (Some (Date 1 1 1 h m))))).
Proof.
  intros Hty Hc Hcol Hio Hrow He Hd.
  pose proof (scan_step_time_zero_date sk entries d cx cy c r e
                Hty Hc Hcol Hio Hrow He Hd) as Hstep.
  repeat apply conj.
  - rewrite Hd. apply Format_zero_date.
  - intros err. rewrite Hstep.
    destruct (parseTime "01010001" (DetectedText d)); cbn [bind];
      split; intros E; congruence.
  - intros h m Hh Hm Htxt. rewrite Hstep.
    now rewrite (parseTime_zero_date h m _ Hh Hm Htxt).
Qed.

Lemma C1_time_before_date_witness :
  scan_step table_skeleton [Entry0; Entry0] in_detection
  = Ok [mkEntry zeroTime EmptyString (Some (Date 1 1 1 15 4)) None; Entry0].
Proof.
  refine (proj2 (proj2 (C1_time_before_date table_skeleton [Entry0; Entry0]
                          in_detection 18 6 InHeader 0 Entry0
                          eq_refl _ eq_refl (or_introl eq_refl) eq_refl
                          eq_refl eq_refl))
            15 4 _ _ (or_introl eq_refl)); [now vm_compute | lia | lia].
Defined.

(** ** Examples of the date and time parsers

    The dates and times that the specification gives as examples. *)

Example parseDate_9_chars :
  parseDate "0501-2023" = Ok (Date 2023 1 5 0 0).
Proof. reflexivity. Qed.

Example parseDate_10_chars :
  parseDate "05-01-2023" = Ok (Date 2023 1 5 0 0).
Proof. reflexivity. Qed.

Example date_of_5_january_2023 :
  date_of (Date 2023 1 5 0 0) = (2023, 1, 5).
Proof. reflexivity. Qed.

Example parseTime_dotted :
  parseTime "05012023" "15.04" = Ok (Date 2023 1 5 15 4).
Proof. reflexivity. Qed.

Example parseTime_plain :
  parseTime "05012023" "1504" = Ok (Date 2023 1 5 15 4).
Proof. reflexivity. Qed.

Example parseDate_rejects_30_february :
  parseDate "30/02/2023" = Err (ErrFailedToParseDate (OutOfRange "day")).
Proof. reflexivity. Qed.

(** ** Spans: chains, numbering and lookup *)

Lemma Rows_Find_span (rs : Rows) (y : Z) :
  Rows.Find rs y = find_span (map row_span rs) y.
Proof. induction rs as [|r rs IH]; cbn; [reflexivity | now rewrite IH]. Qed.

Lemma Cols_Find_span (cs : Cols) (x : Z) :
  Cols.Find cs x = find_span (map col_span cs) x.
Proof. induction cs as [|c cs IH]; cbn; [reflexivity | now rewrite IH]. Qed.

Lemma chain_le (l : list span) : forall lo hi, chain lo l hi -> lo <= hi.
Proof.
  induction l as [|s l IH]; cbn; intros lo hi Hc.
  - lia.
  - destruct Hc as (_ & Hlt & Hc). apply IH in Hc. lia.
Qed.

Lemma chain_app (l : list span) (s : span) :
  forall lo hi,
    chain lo (l ++ [s]) hi
    <-> chain lo l (span_lo s) /\ span_lo s < span_hi s /\ span_hi s = hi.
Proof.
  induction l as [|s0 l IH]; cbn [app chain]; intros lo hi.
  - intuition lia.
  - rewrite IH. tauto.
Qed.

Lemma numbered_app (l : list span) (s : span) :
  forall k,
    numbered k (l ++ [s])
    <-> numbered k l /\ span_num s = k + Z.of_nat (List.length l).
Proof.
  induction l as [|s0 l IH]; cbn [app numbered List.length]; intros k.
  - cbn [Z.of_nat]. intuition lia.
  - rewrite IH, Nat2Z.inj_succ. intuition lia.
Qed.

(** Every span of a chain lies within it. *)
Lemma chain_nth (l : list span) :
  forall lo hi i s,
    chain lo l hi -> nth_error l i = Some s ->
    lo <= span_lo s /\ span_lo s < span_hi s /\ span_hi s <= hi
    /\ (lo = span_lo s -> i = O).
Proof.
  induction l as [|s0 l IH]; intros lo hi i s Hc Hn.
  - destruct i; discriminate.
  - destruct Hc as (Hlo & Hlt & Hc). destruct i as [|i]; cbn in Hn.
    + injection Hn as <-. apply chain_le in Hc. repeat split; lia.
    + destruct (IH _ _ _ _ Hc Hn) as (A & B & C & _). repeat split; lia.
Qed.

(** Two spans of a chain: the later one starts at or after the end of the
    earlier one, and exactly at its end only when it is the next one. *)
Lemma chain_ordered (l : list span) :
  forall lo hi i j si sj,
    chain lo l hi -> (i < j)%nat ->
    nth_error l i = Some si -> nth_error l j = Some sj ->
    span_hi si <= span_lo sj /\ (span_hi si = span_lo sj -> j = S i).
Proof.
  induction l as [|s0 l IH]; intros lo hi i j si sj Hc Hij Hi Hj.
  - destruct i; discriminate.
  - destruct Hc as (Hlo & Hlt & Hc). destruct j as [|j]; [lia|].
    cbn in Hj. destruct i as [|i]; cbn in Hi.
    + injection Hi as <-.
      destruct (chain_nth _ _ _ _ _ Hc Hj) as (A & _ & _ & D).
      split; [lia|]. intros E. now rewrite D.
    + destruct (IH _ _ i j si sj Hc) as [A D]; try assumption; [lia|].
      split; [exact A|]. intros E. now rewrite D.
Qed.

Lemma chain_next (l : list span) :
  forall lo hi i si sj,
    chain lo l hi ->
    nth_error l i = Some si -> nth_error l (S i) = Some sj ->
    span_hi si = span_lo sj.
Proof.
  induction l as [|s0 l IH]; intros lo hi i si sj Hc Hi Hj.
  - destruct i; discriminate.
  - destruct Hc as (Hlo & Hlt & Hc). destruct i as [|i]; cbn in Hi, Hj.
    + injection Hi as <-. destruct l as [|s1 l]; [discriminate|].
      cbn in Hj. injection Hj as <-. now destruct Hc as (-> & _).
    + now apply (IH _ _ _ _ _ Hc Hi Hj).
Qed.

Lemma chain_last (l : list span) :
  forall lo hi d, chain lo l hi -> l <> [] -> span_hi (last l d) = hi.
Proof.
  induction l as [|s l IH]; intros lo hi d Hc Hne; [congruence|].
  destruct Hc as (_ & _ & Hc). destruct l as [|s1 l].
  - cbn in *. lia.
  - change (last (s :: s1 :: l) d) with (last (s1 :: l) d).
    now apply (IH _ _ d Hc).
Qed.

Lemma numbered_nth (l : list span) :
  forall k i s,
    numbered k l -> nth_error l i = Some s -> span_num s = k + Z.of_nat i.
Proof.
  induction l as [|s0 l IH]; intros k i s Hn Hi.
  - destruct i; discriminate.
  - destruct Hn as [Hk Hn]. destruct i as [|i]; cbn in Hi.
    + injection Hi as <-. lia.
    + rewrite (IH _ _ _ Hn Hi). lia.
Qed.

(** The lookup never panics. *)
Lemma find_span_total (l : list span) (z : Z) :
  (exists n, find_span l z = Ok n) \/ find_span l z = Err ErrNotFound.
Proof.
  induction l as [|s l IH]; cbn; [now right|].
  destruct ((span_lo s <=? z) && (z <=? span_hi s)); [left; eauto | exact IH].
Qed.

(** The lookup returns the number of the first span that contains the
    coordinate, and fails when no span contains it. *)
Lemma find_span_first (l : list span) (z n : Z) :
  find_span l z = Ok n <->
  exists i s,
    nth_error l i = Some s /\ span_num s = n /\ span_contains s z
    /\ forall j sj, (j < i)%nat -> nth_error l j = Some sj ->
                    ~ span_contains sj z.
Proof.
  unfold span_contains. induction l as [|s l IH]; cbn [find_span].
  - split; [discriminate|]. intros (i & s & Hi & _). destruct i; discriminate.
  - destruct ((span_lo s <=? z) && (z <=? span_hi s)) eqn:E.
    + assert (Hs : span_lo s <= z <= span_hi s) by lia. split.
      * intros [= <-]. exists O, s. repeat split; lia.
      * intros (i & si & Hi & Hn & Hc & Hfirst). destruct i as [|i].
        -- cbn in Hi. injection Hi as <-. now rewrite Hn.
        -- exfalso. apply (Hfirst O s); [lia | reflexivity | exact Hs].
    + assert (Hs : ~ span_lo s <= z <= span_hi s) by lia.
      rewrite IH. split.
      * intros (i & si & Hi & Hn & Hc & Hfirst). exists (S i), si.
        repeat split; try assumption; try lia.
        intros [|j] sj Hj Hsj; cbn in Hsj.
        -- now injection Hsj as <-.
        -- apply (Hfirst j sj); [lia | exact Hsj].
      * intros (i & si & Hi & Hn & Hc & Hfirst). destruct i as [|i]; cbn in Hi.
        -- injection Hi as <-. contradiction.
        -- exists i, si. repeat split; try assumption; try lia.
           intros j sj Hj Hsj. apply (Hfirst (S j) sj); [lia | exact Hsj].
Qed.

Lemma find_span_none (l : list span) (z : Z) :
  find_span l z = Err ErrNotFound <->
  forall s, In s l -> ~ span_contains s z.
Proof.
  unfold span_contains. induction l as [|s l IH]; cbn [find_span In].
  - split; [intros _ s [] | reflexivity].
  - destruct ((span_lo s <=? z) && (z <=? span_hi s)) eqn:E.
    + split; [discriminate|]. intros Hno. exfalso.
      apply (Hno s); [now left | lia].
    + rewrite IH. split.
      * intros Hno s' [<- | Hin]; [lia | now apply Hno].
      * intros Hno s' Hin. apply Hno. now right.
Qed.

(** On a chain the lookup succeeds exactly between its two ends. *)
Lemma find_span_chain (l : list span) :
  forall lo hi z,
    chain lo l hi -> l <> [] ->
    ((exists n, find_span l z = Ok n) <-> lo <= z <= hi).
Proof.
  induction l as [|s l IH]; intros lo hi z Hc Hne; [congruence|].
  destruct Hc as (Hlo & Hlt & Hc). cbn [find_span].
  destruct ((span_lo s <=? z) && (z <=? span_hi s)) eqn:E.
  - pose proof (chain_le _ _ _ Hc). split; [lia | eauto].
  - destruct l as [|s1 l].
    + cbn in Hc. cbn. split; [intros [n Hn]; discriminate | lia].
    + rewrite (IH _ _ z Hc) by discriminate. lia.
Qed.

(** ** The detector loops *)

Lemma zrange_nil (lo hi : Z) : hi <= lo -> zrange lo hi = [].
Proof. intros H. unfold zrange. now replace (Z.to_nat (hi - lo)) with O by lia. Qed.

Lemma zrange_cons (lo hi : Z) :
  lo < hi -> zrange lo hi = lo :: zrange (lo + 1) hi.
Proof.
  intros H. unfold zrange.
  replace (Z.to_nat (hi - lo)) with (S (Z.to_nat (hi - (lo + 1)))) by lia.
  cbn [seq map]. f_equal; [lia|].
  rewrite <- seq_shift, map_map. apply map_ext. intros i. lia.
Qed.

Lemma findRow0_loop_in (img : Image) (ys : list Z) (y : Z) :
  findRow0_loop img ys = Ok y -> In y ys.
Proof.
  induction ys as [|y0 ys IH]; cbn; [discriminate|].
  destruct (negb (NRGBA_eqb (At img 0 y0) white)).
  - intros [= <-]. now left.
  - intros H. right. now apply IH.
Qed.

Lemma findRow0_range (img : Image) (row0 : Z) :
  findRow0 img = Ok row0 -> 0 <= row0 < MaxY (Bounds img).
Proof. intros H. now apply findRow0_loop_in, in_zrange in H. Qed.

Lemma findCol0_loop_in (img : Image) (row0 : Z) (xs : list Z) (x : Z) :
  findCol0_loop img row0 xs = Ok x -> In x xs.
Proof.
  induction xs as [|x0 xs IH]; cbn; [discriminate|].
  destruct (NRGBA_eqb (At img x0 row0) black).
  - intros [= <-]. now left.
  - intros H. right. now apply IH.
Qed.

Lemma findCol0_range (img : Image) (row0 col0 : Z) :
  findCol0 img row0 = Ok col0 -> 3 <= col0 < MaxX (Bounds img).
Proof. intros H. now apply findCol0_loop_in, in_zrange in H. Qed.

(** The rows closed so far follow one another from [row0] to the top of the
    open row and are numbered from 0: the loop of [findRows] keeps it so. *)
Lemma findRows_loop_chain (img : Image) (xmax row0 b : Z) (n : nat) :
  forall a curr rows,
    n = Z.to_nat (b - a) ->
    chain row0 (map row_span rows) (Row.Top curr) ->
    numbered 0 (map row_span rows) ->
    Row.Num curr = Z.of_nat (List.length rows) ->
    Row.Top curr < a ->
    exists hi,
      chain row0 (map row_span (findRows_loop img xmax (zrange a b) curr rows)) hi
      /\ numbered 0 (map row_span (findRows_loop img xmax (zrange a b) curr rows))
      /\ hi <= Z.max (Row.Top curr) (b - 1).
Proof.
  induction n as [|n IH]; intros a curr rows Hn Hc Hnum Hcurr Hlt.
  - rewrite zrange_nil by lia. cbn. exists (Row.Top curr). repeat split; try assumption; lia.
  - rewrite zrange_cons by lia. cbn [findRows_loop].
    destruct (negb (NRGBA_eqb (At img xmax a) black)).
    + destruct (Int64.sub a (Row.Top curr) >? maxHeight).
      * exists (Row.Top curr). repeat split; try assumption; lia.
      * destruct (IH (a + 1) curr rows) as (hi & A & B & C);
          try assumption; try lia.
        exists hi. repeat split; try assumption; lia.
    + set (rows' := rows ++ [Row.mk (Row.Num curr) (Row.Top curr) a]).
      destruct (IH (a + 1) (Row.mk (Z.of_nat (List.length rows')) a 0) rows')
        as (hi & A & B & C); try lia.
      * unfold rows'. rewrite map_app. cbn [map]. apply chain_app.
        cbn. repeat split; try assumption; lia.
      * unfold rows'. rewrite map_app. cbn [map]. apply numbered_app.
        rewrite length_map. cbn. split; [assumption | lia].
      * reflexivity.
      * cbn. lia.
      * exists hi. cbn [Row.Top] in C. repeat split; try assumption; lia.
Qed.

Lemma findRows_chain (img : Image) (row0 : Z) :
  Int64.in_range (MaxY (Bounds img)) -> 0 <= row0 < MaxY (Bounds img) ->
  exists hi,
    chain row0 (map row_span (findRows img row0)) hi
    /\ numbered 0 (map row_span (findRows img row0))
    /\ hi < MaxY (Bounds img).
Proof.
  intros Hfit Hrow. unfold findRows.
  assert (E : Int64.add row0 1 = row0 + 1).
  { unfold_int. apply wrap_small. lia. }
  rewrite E.
  destruct (findRows_loop_chain img (Int64.sub (MaxX (Bounds img)) 5) row0
              (MaxY (Bounds img)) _ (row0 + 1) (Row.mk 0 row0 0) [] eq_refl)
    as (hi & A & B & C); cbn; try lia; try exact I.
  exists hi. cbn [Row.Top] in C. repeat split; try assumption; lia.
Qed.

(** The same for [findCols], which stops at three columns. *)
Lemma findCols_loop_chain (img : Image) (row0 col0 b : Z) (n : nat) :
  forall a curr cols,
    n = Z.to_nat (b - a) ->
    chain col0 (map col_span cols) (Col.Left curr) ->
    numbered 0 (map col_span cols) ->
    Col.Num curr = Z.of_nat (List.length cols) ->
    Col.Left curr < a ->
    (List.length cols < 3)%nat ->
    exists hi,
      chain col0 (map col_span (findCols_loop img row0 (zrange a b) curr cols)) hi
      /\ numbered 0 (map col_span (findCols_loop img row0 (zrange a b) curr cols))
      /\ hi <= Z.max (Col.Left curr) (b - 1)
      /\ (List.length (findCols_loop img row0 (zrange a b) curr cols) <= 3)%nat.
Proof.
  induction n as [|n IH]; intros a curr cols Hn Hc Hnum Hcurr Hlt Hlen.
  - rewrite zrange_nil by lia. cbn. exists (Col.Left curr).
    repeat split; try assumption; lia.
  - rewrite zrange_cons by lia. cbn [findCols_loop].
    destruct (negb (isCol img a row0)).
    + destruct (IH (a + 1) curr cols) as (hi & A & B & C & D);
        try assumption; try lia.
      exists hi. repeat split; try assumption; lia.
    + set (cols' := cols ++ [Col.mk (Col.Num curr) (Col.Left curr) a]).
      assert (Hc' : chain col0 (map col_span cols') a).
      { unfold cols'. rewrite map_app. cbn [map]. apply chain_app.
        cbn. repeat split; try assumption; lia. }
      assert (Hnum' : numbered 0 (map col_span cols')).
      { unfold cols'. rewrite map_app. cbn [map]. apply numbered_app.
        rewrite length_map. cbn. split; [assumption | lia]. }
      assert (Hlen' : List.length cols' = S (List.length cols)).
      { unfold cols'. rewrite length_app. cbn. lia. }
      destruct (Z.of_nat (List.length cols') =? 3) eqn:E3.
      * exists a. repeat split; try assumption; lia.
      * destruct (IH (a + 1) (Col.mk (Z.of_nat (List.length cols')) a 0) cols')
          as (hi & A & B & C & D); try assumption; try lia.
        -- reflexivity.
        -- cbn. lia.
        -- exists hi. cbn [Col.Left] in C. repeat split; try assumption; lia.
Qed.

Lemma findCols_chain (img : Image) (row0 col0 : Z) :
  Int64.in_range (MaxX (Bounds img)) -> 0 <= col0 < MaxX (Bounds img) ->
  exists hi,
    chain col0 (map col_span (findCols img row0 col0)) hi
    /\ numbered 0 (map col_span (findCols img row0 col0))
    /\ hi < MaxX (Bounds img)
    /\ (List.length (findCols img row0 col0) <= 3)%nat.
Proof.
  intros Hfit Hcol. unfold findCols.
  assert (E : Int64.add col0 1 = col0 + 1).
  { unfold_int. apply wrap_small. lia. }
  rewrite E.
  destruct (findCols_loop_chain img row0 col0 (MaxX (Bounds img)) _
              (col0 + 1) (Col.mk 0 col0 0) [] eq_refl)
    as (hi & A & B & C & D); cbn; try lia; try exact I.
  exists hi. cbn [Col.Left] in C. repeat split; try assumption; lia.
Qed.

(** ** The skeleton [prime] returns *)

Lemma index_head {A : Type} (a : A) (l : list A) : index (a :: l) 0 = Ok a.
Proof. reflexivity. Qed.

Lemma index_last {A : Type} (l : list A) (d : A) :
  l <> [] -> index l (Z.of_nat (List.length l) - 1) = Ok (last l d).
Proof.
  intros Hne. unfold index.
  destruct (Z.ltb_spec (Z.of_nat (List.length l) - 1) 0) as [E | E].
  - exfalso. destruct l; [congruence | cbn [List.length] in E; lia].
  - replace (Z.to_nat (Z.of_nat (List.length l) - 1))
      with (List.length l - 1)%nat by lia.
    clear E. induction l as [|a l IH]; [congruence|].
    destruct l as [|b l]; [reflexivity|].
    cbn [List.length Nat.sub] in *. rewrite Nat.sub_0_r in IH.
    cbn [nth_error]. change (last (a :: b :: l) d) with (last (b :: l) d).
    apply IH. discriminate.
Qed.

Lemma last_map {A B : Type} (f : A -> B) (l : list A) (d : A) :
  last (map f l) (f d) = f (last l d).
Proof.
  induction l as [|a l IH]; [reflexivity|].
  destruct l as [|b l]; [reflexivity|]. exact IH.
Qed.

(** Shifting a chain whose ends stay in range moves it as a whole. *)
Lemma Rows_Shift_chain (rs : Rows) (off : Z) :
  forall lo hi,
    chain lo (map row_span rs) hi ->
    - 2 ^ 63 <= lo + off -> hi + off < 2 ^ 63 ->
    chain (lo + off) (map row_span (Rows.Shift rs off)) (hi + off).
Proof.
  induction rs as [|r rs IH]; intros lo hi Hc Hlo Hhi; cbn in *.
  - lia.
  - destruct Hc as (Ht & Hlt & Hc). pose proof (chain_le _ _ _ Hc) as Hle.
    unfold span_lo, span_hi in *. cbn [fst snd] in *.
    unfold Int64.add. rewrite !wrap_small by lia.
    repeat split; try lia. apply IH; [exact Hc | lia | lia].
Qed.

Lemma Rows_Shift_numbered (rs : Rows) (off : Z) :
  forall k, numbered k (map row_span rs) ->
            numbered k (map row_span (Rows.Shift rs off)).
Proof.
  induction rs as [|r rs IH]; intros k Hn; cbn in *; [exact I|].
  destruct Hn as [Hk Hn]. split; [exact Hk | now apply IH].
Qed.

Ltac dewrap :=
  unfold Int64.add, Int64.sub, Int64.neg, Int64.quot in *;
  repeat match goal with
    | |- context [Int64.wrap ?z] =>
        lazymatch z with
        | context [Int64.wrap _] => fail
        | _ => rewrite (wrap_small z) by zlia
        end
    end.

(** [prime] succeeds only on an image with at least a row and a column; its
    rows then form a chain from 0 to the height of the skeleton, numbered
    from 0, and its columns have one of the three shapes of [cols_shape]. *)
Lemma prime_shape (img : Image) (sk : Skeleton) :
  fits_int (Bounds img) -> prime img = Ok sk ->
  exists row0 col0,
    findRow0 img = Ok row0 /\ findCol0 img row0 = Ok col0
    /\ SRows sk <> []
    /\ chain 0 (map row_span (SRows sk)) (H sk)
    /\ numbered 0 (map row_span (SRows sk))
    /\ 0 < W sk < 2 ^ 32 /\ 0 < H sk < 2 ^ 32
    /\ cols_shape (W sk) (List.length (findCols img row0 col0)) (SCols sk).
Proof.
  intros (_ & _ & HfX & HfY) Hp. unfold prime in Hp.
  destruct (findRow0 img) as [row0 | |] eqn:Er; try discriminate Hp.
  cbn [bind] in Hp.
  destruct (findCol0 img row0) as [col0 | |] eqn:Ec; try discriminate Hp.
  cbn [bind] in Hp. cbv zeta in Hp.
  pose proof (findRow0_range _ _ Er) as Hrow.
  pose proof (findCol0_range _ _ _ Ec) as Hcol.
  destruct (findRows_chain img row0 HfY Hrow) as (hiR & RC & RN & RB).
  destruct (findCols_chain img row0 col0 HfX) as (hiC & CC & CN & CB & CL);
    [lia|].
  exists row0, col0. split; [reflexivity|]. split; [exact Ec|].
  remember (findRows img row0) as rows eqn:Erows.
  remember (findCols img row0 col0) as cols eqn:Ecols.
  clear Erows Ecols Er Ec.
  unfold draw in Hp.
  destruct cols as [|c0 cs]; [discriminate Hp|].
  destruct rows as [|r0 rs]; [discriminate Hp|].
  rewrite !index_head in Hp. cbn [bind] in Hp.
  rewrite (index_last (c0 :: cs) c0), (index_last (r0 :: rs) r0) in Hp
    by discriminate.
  cbn [bind] in Hp.
  assert (HlastC : Col.Right (last (c0 :: cs) c0) = hiC).
  { pose proof (chain_last _ _ _ (col_span c0) CC ltac:(discriminate)) as Hl.
    rewrite last_map in Hl. exact Hl. }
  assert (HlastR : Row.Bottom (last (r0 :: rs) r0) = hiR).
  { pose proof (chain_last _ _ _ (row_span r0) RC ltac:(discriminate)) as Hl.
    rewrite last_map in Hl. exact Hl. }
  rewrite HlastC, HlastR in Hp.
  assert (Hr0 : Row.Top r0 = row0 /\ row0 < hiR).
  { destruct RC as (A & B & C). apply chain_le in C. cbn in *. lia. }
  assert (Hc0 : Col.Left c0 = col0 /\ col0 < hiC).
  { destruct CC as (A & B & C). apply chain_le in C. cbn in *. lia. }
  destruct Hr0 as [Hr0 Hr0lt]. destruct Hc0 as [Hc0 Hc0lt].
  rewrite Hr0, Hc0 in Hp. unfold image_Rect in Hp.
  replace (hiC <? col0) with false in Hp by lia.
  replace (hiR <? row0) with false in Hp by lia.
  unfold Dx, Dy, encode in Hp. cbn [MinX MinY MaxX MaxY] in Hp.
  unfold Dx, Dy in Hp. cbn [MinX MinY MaxX MaxY] in Hp.
  unfold Int64.in_range, Int64.min_int, Int64.max_int in *.
  assert (EW : Int64.sub hiC col0 = hiC - col0)
    by (unfold Int64.sub; apply wrap_small; lia).
  assert (EH : Int64.sub hiR row0 = hiR - row0)
    by (unfold Int64.sub; apply wrap_small; lia).
  rewrite EW, EH in Hp.
  match type of Hp with
  | (bind (if ?c then _ else _) _ = _) => destruct c; [discriminate Hp|]
  end.
  cbn [bind MinX MinY MaxX MaxY] in Hp. rewrite ?EW, ?EH in Hp.
  match type of Hp with
  | (bind (if ?c then _ else _) _ = _) =>
      destruct c eqn:Eenc; [discriminate Hp|]
  end.
  cbn [bind] in Hp.
  assert (Hdim : 0 < hiC - col0 < 2 ^ 32 /\ 0 < hiR - row0 < 2 ^ 32) by lia.
  clear Eenc.
  (* the rows *)
  assert (Eoff : Int64.neg row0 = - row0)
    by (unfold Int64.neg; apply wrap_small; lia).
  assert (Eoffc : Int64.neg col0 = - col0)
    by (unfold Int64.neg; apply wrap_small; lia).
  rewrite Eoff, Eoffc in Hp.
  pose proof (Rows_Shift_chain (r0 :: rs) (- row0) _ _ RC) as RC'.
  replace (row0 + - row0) with 0 in RC' by lia.
  replace (hiR + - row0) with (hiR - row0) in RC' by lia.
  specialize (RC' ltac:(lia) ltac:(lia)).
  pose proof (Rows_Shift_numbered (r0 :: rs) (- row0) _ RN) as RN'.
  (* the columns, one shape for each number of raw columns *)
  destruct c0 as [n0 l0 x1]. cbn [Col.Left] in Hc0. subst l0.
  destruct cs as [|[n1 l1 x2] [|[n2 l2 x3] [|c3 cs]]];
    cbn in CC, CN, CL; unfold span_lo, span_hi, span_num in CC, CN;
    cbn [fst snd] in CC, CN; try lia.
  - (* one raw column *)
    destruct CC as (_ & Hx1 & <-). destruct CN as (-> & _).
    cbn in Hp. injection Hp as <-. cbn [SRows SCols W H].
    split; [discriminate|]. split; [exact RC'|]. split; [exact RN'|].
    split; [lia|]. split; [lia|].
    apply shape_one; [lia|]. unfold Split. cbn [Col.Num Col.Left Col.Right].
    dewrap. rewrite ?Z.add_opp_r, ?Z.sub_diag, ?Z.sub_0_r.
    rewrite !Z.quot_div_nonneg by zlia. repeat f_equal; zlia.
  - (* two raw columns *)
    destruct CC as (_ & Hx1 & -> & Hx2 & <-). destruct CN as (-> & -> & _).
    cbn in Hp. injection Hp as <-. cbn [SRows SCols W H].
    split; [discriminate|]. split; [exact RC'|]. split; [exact RN'|].
    split; [lia|]. split; [lia|].
    apply shape_two with (b1 := x1 - col0); [lia|].
    unfold Split. cbn [Col.Num Col.Left Col.Right app]. dewrap.
    rewrite !Z.quot_div_nonneg by zlia.
    repeat f_equal; zlia.
  - (* three raw columns *)
    destruct CC as (_ & Hx1 & -> & Hx2 & -> & Hx3 & <-).
    destruct CN as (-> & -> & -> & _).
    cbn in Hp. injection Hp as <-. cbn [SRows SCols W H].
    split; [discriminate|]. split; [exact RC'|]. split; [exact RN'|].
    split; [lia|]. split; [lia|].
    apply shape_three with (b1 := x1 - col0) (b2 := x2 - col0); [lia|lia|].
    unfold Split. cbn [Col.Num Col.Left Col.Right app]. dewrap.
    rewrite ?Z.add_opp_r, ?Z.sub_diag, ?Z.sub_0_r.
    rewrite !Z.quot_div_nonneg by zlia. repeat f_equal; zlia.
Qed.

(** ** Lookup in the skeleton (C3) *)

Lemma find_span_some (l : list span) (z : Z) :
  (exists n, find_span l z = Ok n) <-> exists s, In s l /\ span_contains s z.
Proof.
  split.
  - intros (n & Hn). apply find_span_first in Hn.
    destruct Hn as (i & s & Hi & _ & Hc & _). exists s. split; [|exact Hc].
    now apply nth_error_In with i.
  - intros (s & Hin & Hc). destruct (find_span_total l z) as [Hok | Herr].
    + exact Hok.
    + exfalso. now apply (proj1 (find_span_none l z) Herr s).
Qed.

Lemma find_span_err (l : list span) (z : Z) :
  find_span l z = Err ErrNotFound <-> ~ exists n, find_span l z = Ok n.
Proof.
  destruct (find_span_total l z) as [(n & Hn) | Herr].
  - rewrite Hn. split; [discriminate|]. intros Hno. exfalso. apply Hno. eauto.
  - rewrite Herr. split; [|reflexivity]. intros _ (n & Hn). discriminate.
Qed.

(** The columns of each shape: the first one, the second one, the last one,
    and the coordinates the lookup accepts. *)
Lemma cols_shape_lookup (w : Z) (k : nat) (cs : Cols) :
  cols_shape w k cs ->
  exists c0 c1 cl,
    nth_error cs 0 = Some c0 /\ nth_error cs 1 = Some c1 /\ last cs c0 = cl
    /\ Col.Left c0 = 0
    /\ 0 <= Col.Right c0 <= Col.Left c1
    /\ Col.Left c1 <= Col.Right cl <= w
    /\ forall x,
        (exists n, Cols.Find cs x = Ok n)
        <-> 0 <= x <= Col.Right c0 \/ Col.Left c1 <= x <= Col.Right cl.
Proof.
  intros Hs. destruct Hs as [cs Hw -> | b1 cs Hb -> | b1 b2 cs Hb Hb2 ->].
  - do 3 eexists. repeat (split; [reflexivity|]). cbn [last Col.Left Col.Right].
    split; [zlia|]. split; [zlia|]. intros x.
    rewrite Cols_Find_span, find_span_some. unfold span_contains.
    cbn [map col_span In Col.Num Col.Left Col.Right]. split.
    + intros (s & [<- | [<- | []]] & Hc); cbn in Hc; zlia.
    + intros [Hx | Hx].
      * exists (0, 0, w / 2 - w / 2 / 2). split; [now left | cbn; lia].
      * exists (1, w / 2 - w / 2 / 2, w / 2). split; [tauto | cbn; lia].
  - do 3 eexists. repeat (split; [reflexivity|]). cbn [last Col.Left Col.Right].
    split; [zlia|]. split; [zlia|]. intros x.
    rewrite Cols_Find_span, find_span_some. unfold span_contains.
    cbn [map col_span In Col.Num Col.Left Col.Right]. split.
    + intros (s & [<- | [<- | [<- | []]]] & Hc); cbn in Hc; zlia.
    + intros [Hx | Hx].
      * exists (0, 0, b1 / 2). split; [now left | cbn; lia].
      * destruct (Z_le_gt_dec x (w - (w - b1) / 2)).
        -- exists (1, b1, w - (w - b1) / 2). split; [tauto | cbn; lia].
        -- exists (2, w - (w - b1) / 2, w). split; [tauto | cbn; lia].
  - do 3 eexists. repeat (split; [reflexivity|]). cbn [last Col.Left Col.Right].
    split; [zlia|]. split; [zlia|]. intros x.
    rewrite Cols_Find_span, find_span_some. unfold span_contains.
    cbn [map col_span In Col.Num Col.Left Col.Right]. split.
    + intros (s & [<- | [<- | [<- | [<- | []]]]] & Hc); cbn in Hc; zlia.
    + intros [Hx | Hx].
      * exists (0, 0, b1 / 2). split; [now left | cbn; lia].
      * destruct (Z_le_gt_dec x b2).
        -- exists (1, b1, b2). split; [tauto | cbn; lia].
        -- destruct (Z_le_gt_dec x (w - (w - b2) / 2)).
           ++ exists (2, b2, w - (w - b2) / 2). split; [tauto | cbn; lia].
           ++ exists (3, w - (w - b2) / 2, w). split; [tauto | cbn; lia].
Qed.

(** C3, as stated, fails: in the skeleton of the example table the abscissa
    5 is strictly inside the table (between 0 and the width 27) and belongs to
    no column, the first column having been halved to 0..3 while the second
    one starts at 7. *)
Lemma C3_gap_after_first_column :
  prime table_img = Ok table_skeleton
  /\ 0 < 5 < W table_skeleton
  /\ Cols.Find (SCols table_skeleton) 5 = Err ErrNotFound.
Proof. repeat split; now vm_compute. Qed.

(** C3, amended: on the skeleton [prime] returns, the row lookup succeeds
    exactly on the coordinates from 0 to the height of the skeleton, both
    included, and fails with [ErrNotFound] elsewhere; the column lookup
    succeeds exactly on the first column (from 0 to its halved right end) and
    from the left end of the second column to the right end of the last one,
    which is at most the width, and fails with [ErrNotFound] elsewhere:
    outside these bounds and in the gap that halving the first column
    leaves before the second. *)
Theorem C3_lookup_extent (img : Image) (sk : Skeleton) :
  fits_int (Bounds img) -> prime img = Ok sk ->
  (forall y, (exists n, Rows.Find (SRows sk) y = Ok n) <-> 0 <= y <= H sk)
  /\ (forall y, Rows.Find (SRows sk) y = Err ErrNotFound <-> y < 0 \/ H sk < y)
  /\ exists c0 c1 cl,
      nth_error (SCols sk) 0 = Some c0 /\ nth_error (SCols sk) 1 = Some c1
      /\ last (SCols sk) c0 = cl
      /\ Col.Left c0 = 0
      /\ 0 <= Col.Right c0 <= Col.Left c1
      /\ Col.Left c1 <= Col.Right cl <= W sk
      /\ (forall x,
            (exists n, Cols.Find (SCols sk) x = Ok n)
            <-> 0 <= x <= Col.Right c0 \/ Col.Left c1 <= x <= Col.Right cl)
      /\ (forall x,
            Cols.Find (SCols sk) x = Err ErrNotFound
            <-> ~ (0 <= x <= Col.Right c0 \/ Col.Left c1 <= x <= Col.Right cl)).
Proof.
  intros Hfit Hp.
  destruct (prime_shape img sk Hfit Hp)
    as (row0 & col0 & _ & _ & Hne & RC & _ & _ & _ & Hshape).
  assert (Hrows : forall y,
             (exists n, Rows.Find (SRows sk) y = Ok n) <-> 0 <= y <= H sk).
  { intros y. rewrite Rows_Find_span. apply find_span_chain; [exact RC|].
    destruct (SRows sk); [congruence | discriminate]. }
  split; [exact Hrows|]. split.
  - intros y. rewrite Rows_Find_span, find_span_err, <- Rows_Find_span, Hrows.
    lia.
  - destruct (cols_shape_lookup _ _ _ Hshape)
      as (c0 & c1 & cl & H0 & H1 & Hl & A & B & C & D).
    exists c0, c1, cl. do 6 (split; [assumption|]). split; [exact D|].
    intros x. rewrite Cols_Find_span, find_span_err, <- Cols_Find_span, D.
    reflexivity.
Qed.

Lemma C3_lookup_extent_witness :
  (forall y, (exists n, Rows.Find (SRows table_skeleton) y = Ok n)
             <-> 0 <= y <= H table_skeleton)
  /\ (forall y, Rows.Find (SRows table_skeleton) y = Err ErrNotFound
                <-> y < 0 \/ H table_skeleton < y)
  /\ exists c0 c1 cl,
      nth_error (SCols table_skeleton) 0 = Some c0
      /\ nth_error (SCols table_skeleton) 1 = Some c1
      /\ last (SCols table_skeleton) c0 = cl
      /\ Col.Left c0 = 0
      /\ 0 <= Col.Right c0 <= Col.Left c1
      /\ Col.Left c1 <= Col.Right cl <= W table_skeleton
      /\ (forall x,
            (exists n, Cols.Find (SCols table_skeleton) x = Ok n)
            <-> 0 <= x <= Col.Right c0 \/ Col.Left c1 <= x <= Col.Right cl)
      /\ (forall x,
            Cols.Find (SCols table_skeleton) x = Err ErrNotFound
            <-> ~ (0 <= x <= Col.Right c0 \/ Col.Left c1 <= x <= Col.Right cl)).
Proof.
  apply (C3_lookup_extent table_img table_skeleton).
  - unfold fits_int, Int64.in_range, Int64.min_int, Int64.max_int. cbn. lia.
  - now vm_compute.
Defined.

(** ** Order of the rows and of the columns (C4) *)

Lemma nth_error_row_span (rs : Rows) (i : nat) (r : Row) :
  nth_error rs i = Some r -> nth_error (map row_span rs) i = Some (row_span r).
Proof. intros Hn. now rewrite nth_error_map, Hn. Qed.

Lemma nth_error_col_span (cs : Cols) (i : nat) (c : Col) :
  nth_error cs i = Some c -> nth_error (map col_span cs) i = Some (col_span c).
Proof. intros Hn. now rewrite nth_error_map, Hn. Qed.

(** The columns of each shape are in order, each one ending at or before the
    start of the next one, and numbered by their position. *)
Lemma cols_shape_order (w : Z) (k : nat) (cs : Cols) :
  cols_shape w k cs ->
  List.length cs = S k
  /\ (1 <= k <= 3)%nat
  /\ (forall i c, nth_error cs i = Some c ->
        Col.Left c <= Col.Right c /\ Col.Num c = Z.of_nat i)
  /\ (forall i c c', nth_error cs i = Some c -> nth_error cs (S i) = Some c' ->
        Col.Right c <= Col.Left c').
Proof.
  intros Hs. destruct Hs as [cs Hw -> | b1 cs Hb -> | b1 b2 cs Hb Hb2 ->];
    (split; [reflexivity|]); (split; [lia|]); split.
  - intros [|[|i]] c Hn; cbn in Hn; try (destruct i; cbn in *; discriminate);
      injection Hn as <-; cbn; zlia.
  - intros [|[|i]] c c' Hn Hn'; cbn in Hn, Hn'; try discriminate;
      try (destruct i; cbn in *; discriminate);
      injection Hn as <-; injection Hn' as <-; cbn; zlia.
  - intros [|[|[|i]]] c Hn; cbn in Hn; try (destruct i; cbn in *; discriminate);
      injection Hn as <-; cbn; zlia.
  - intros [|[|[|i]]] c c' Hn Hn'; cbn in Hn, Hn'; try discriminate;
      try (destruct i; cbn in *; discriminate);
      injection Hn as <-; injection Hn' as <-; cbn; zlia.
  - intros [|[|[|[|i]]]] c Hn; cbn in Hn; try (destruct i; cbn in *; discriminate);
      injection Hn as <-; cbn; zlia.
  - intros [|[|[|[|i]]]] c c' Hn Hn'; cbn in Hn, Hn'; try discriminate;
      try (destruct i; cbn in *; discriminate);
      injection Hn as <-; injection Hn' as <-; cbn; zlia.
Qed.

(** C4, as stated, fails. In the skeleton of the example table the ordinate
    10 passes the inclusive test of row 0 (from 0 to 10) and of row 1 (from
    10 to 20): the ranges of two rows overlap. In the skeleton of a table
    whose first divider is one pixel after the origin, the first column
    goes from 0 to 0: its left end is not before its right end. *)
Lemma C4_ranges_share_their_ends :
  prime table_img = Ok table_skeleton
  /\ (exists r r',
        nth_error (SRows table_skeleton) 0 = Some r
        /\ nth_error (SRows table_skeleton) 1 = Some r'
        /\ row_contains r 10 /\ row_contains r' 10
        /\ Row.Num r <> Row.Num r')
  /\ prime thin_first_col_img = Ok thin_first_col_skeleton
  /\ (exists c,
        nth_error (SCols thin_first_col_skeleton) 0 = Some c
        /\ ~ Col.Left c < Col.Right c).
Proof.
  split; [now vm_compute|]. split.
  - exists (Row.mk 0 0 10), (Row.mk 1 10 20). unfold row_contains. cbn.
    repeat split; lia.
  - split; [now vm_compute|]. exists (Col.mk 0 0 0). cbn. split; [reflexivity | lia].
Qed.

(** C4, amended: in the skeleton [prime] returns, every row has its top
    before its bottom and ends where the next one starts; every column has
    its left end at or before its right end and ends at or before the start
    of the next one. The inclusive ranges of two rows have at most one
    ordinate in common, the end that two consecutive rows share, and the
    lookup gives that ordinate to the first of the two. *)
Theorem C4_skeleton_order (img : Image) (sk : Skeleton) :
  fits_int (Bounds img) -> prime img = Ok sk ->
  (forall i r, nth_error (SRows sk) i = Some r -> Row.Top r < Row.Bottom r)
  /\ (forall i r r',
        nth_error (SRows sk) i = Some r -> nth_error (SRows sk) (S i) = Some r' ->
        Row.Bottom r = Row.Top r')
  /\ (forall i c, nth_error (SCols sk) i = Some c -> Col.Left c <= Col.Right c)
  /\ (forall i c c',
        nth_error (SCols sk) i = Some c -> nth_error (SCols sk) (S i) = Some c' ->
        Col.Right c <= Col.Left c')
  /\ (forall i j r r' y,
        (i < j)%nat ->
        nth_error (SRows sk) i = Some r -> nth_error (SRows sk) j = Some r' ->
        row_contains r y -> row_contains r' y ->
        j = S i /\ y = Row.Bottom r /\ y = Row.Top r')
  /\ (forall i r r',
        nth_error (SRows sk) i = Some r -> nth_error (SRows sk) (S i) = Some r' ->
        Rows.Find (SRows sk) (Row.Bottom r) = Ok (Row.Num r)
        /\ Row.Num r' = Row.Num r + 1).
Proof.
  intros Hfit Hp.
  destruct (prime_shape img sk Hfit Hp)
    as (row0 & col0 & _ & _ & Hne & RC & RN & _ & _ & Hshape).
  destruct (cols_shape_order _ _ _ Hshape) as (_ & _ & CO & CX).
  repeat apply conj.
  - intros i r Hi. apply nth_error_row_span in Hi.
    now destruct (chain_nth _ _ _ _ _ RC Hi) as (_ & A & _).
  - intros i r r' Hi Hj.
    apply nth_error_row_span in Hi. apply nth_error_row_span in Hj.
    exact (chain_next _ _ _ _ _ _ RC Hi Hj).
  - intros i c Hi. now destruct (CO i c Hi).
  - exact CX.
  - intros i j r r' y Hij Hi Hj [Hy1 Hy2] [Hy3 Hy4].
    apply nth_error_row_span in Hi. apply nth_error_row_span in Hj.
    destruct (chain_ordered _ _ _ _ _ _ _ RC Hij Hi Hj) as [A B].
    unfold span_hi, span_lo, row_span in A, B. cbn [fst snd] in A, B.
    assert (E : Row.Bottom r = Row.Top r') by lia.
    split; [now apply B|]. lia.
  - intros i r r' Hi Hj.
    apply nth_error_row_span in Hi. apply nth_error_row_span in Hj.
    pose proof (numbered_nth _ _ _ _ RN Hi) as Ni.
    pose proof (numbered_nth _ _ _ _ RN Hj) as Nj.
    unfold span_num, row_span in Ni, Nj. cbn [fst] in Ni, Nj.
    split; [|lia].
    rewrite Rows_Find_span. apply find_span_first.
    exists i, (row_span r). split; [exact Hi|]. split; [reflexivity|].
    destruct (chain_nth _ _ _ _ _ RC Hi) as (_ & Hlt & _).
    unfold span_contains. split; [cbn in *; lia|].
    intros j sj Hji Hsj [_ Hc].
    destruct (chain_ordered _ _ _ _ _ _ _ RC Hji Hsj Hi) as [A _].
    cbn in *. lia.
Qed.

Lemma C4_skeleton_order_witness :
  Rows.Find (SRows table_skeleton) 10 = Ok 0.
Proof.
  assert (Hfit : fits_int (Bounds table_img)).
  { unfold fits_int, Int64.in_range, Int64.min_int, Int64.max_int. cbn. lia. }
  assert (Hp : prime table_img = Ok table_skeleton) by now vm_compute.
  destruct (C4_skeleton_order table_img table_skeleton Hfit Hp)
    as (_ & _ & _ & _ & _ & F).
  exact (proj1 (F O (Row.mk 0 0 10) (Row.mk 1 10 20) eq_refl eq_refl)).
Defined.

(** ** Numbering (C10) *)

(** The two columns [Split] returns: the first starts where the column
    starts, the second ends where it ends, and the first ends where the
    second starts. *)
Lemma Split_adjacent (c : Col) :
  exists c1 c2,
    Split c = [c1; c2]
    /\ Col.Left c1 = Col.Left c /\ Col.Right c1 = Col.Left c2
    /\ Col.Right c2 = Col.Right c
    /\ Col.Num c1 = Col.Num c.
Proof. do 2 eexists. split; [reflexivity|]. cbn. tauto. Qed.

Lemma Split_order (c : Col) :
  0 <= Col.Left c <= Col.Right c -> Col.Right c <= Int64.max_int ->
  0 <= Col.Num c < Int64.max_int ->
  Split c
  = [Col.mk (Col.Num c) (Col.Left c)
       (Col.Right c - (Col.Right c - Col.Left c) / 2);
     Col.mk (Col.Num c + 1)
       (Col.Right c - (Col.Right c - Col.Left c) / 2) (Col.Right c)]
  /\ Col.Left c <= Col.Right c - (Col.Right c - Col.Left c) / 2 <= Col.Right c.
Proof.
  unfold Int64.max_int. intros Hc Hr Hn. split; [|zlia].
  unfold Split. cbn [Col.Right]. dewrap.
  rewrite !Z.quot_div_nonneg by zlia. reflexivity.
Qed.

(** The last two columns of each shape are the halves of one column. *)
Lemma cols_shape_split (w : Z) (k : nat) (cs : Cols) :
  cols_shape w k cs -> w < 2 ^ 32 ->
  exists front c,
    cs = front ++ Split c /\ List.length front = (k - 1)%nat
    /\ 0 <= Col.Left c <= Col.Right c /\ Col.Right c <= w
    /\ Col.Num c = Z.of_nat (k - 1).
Proof.
  intros Hs Hw. destruct Hs as [cs Hw0 -> | b1 cs Hb -> | b1 b2 cs Hb Hb2 ->].
  - exists [], (Col.mk 0 0 (w / 2)). cbn [app List.length Nat.sub].
    assert (Hq : 0 <= w / 2 <= w) by zlia.
    rewrite (proj1 (Split_order (Col.mk 0 0 (w / 2)) ltac:(cbn; lia)
                      ltac:(unfold Int64.max_int; cbn; lia)
                      ltac:(unfold Int64.max_int; cbn; lia))).
    cbn. rewrite Z.sub_0_r. repeat split; lia.
  - exists [Col.mk 0 0 (b1 / 2)], (Col.mk 1 b1 w). cbn [app List.length Nat.sub].
    rewrite (proj1 (Split_order (Col.mk 1 b1 w) ltac:(cbn; lia)
                      ltac:(unfold Int64.max_int; cbn; lia)
                      ltac:(unfold Int64.max_int; cbn; lia))).
    cbn. repeat split; lia.
  - exists [Col.mk 0 0 (b1 / 2); Col.mk 1 b1 b2], (Col.mk 2 b2 w).
    cbn [app List.length Nat.sub].
    rewrite (proj1 (Split_order (Col.mk 2 b2 w) ltac:(cbn; lia)
                      ltac:(unfold Int64.max_int; cbn; lia)
                      ltac:(unfold Int64.max_int; cbn; lia))).
    cbn. repeat split; lia.
Qed.

Lemma cols_shape_numbered (w : Z) (k : nat) (cs : Cols) :
  cols_shape w k cs -> numbered 0 (map col_span cs).
Proof.
  intros Hs. destruct Hs as [cs Hw -> | b1 cs Hb -> | b1 b2 cs Hb Hb2 ->];
    cbn; tauto.
Qed.

(** On a sequence numbered from 0 the lookup returns the position of the
    first element that contains the coordinate. *)
Lemma find_span_position {A : Type} (f : A -> span) (l : list A) (z n : Z) :
  numbered 0 (map f l) ->
  find_span (map f l) z = Ok n <->
  exists i a,
    n = Z.of_nat i /\ nth_error l i = Some a /\ span_contains (f a) z
    /\ forall j a', (j < i)%nat -> nth_error l j = Some a' ->
                    ~ span_contains (f a') z.
Proof.
  intros Hnum. rewrite find_span_first. split.
  - intros (i & s & Hi & Hn & Hc & Hfirst). rewrite nth_error_map in Hi.
    destruct (nth_error l i) as [a|] eqn:Ea; [|discriminate].
    injection Hi as <-. exists i, a.
    assert (Hs : nth_error (map f l) i = Some (f a))
      by now rewrite nth_error_map, Ea.
    pose proof (numbered_nth _ _ _ _ Hnum Hs) as Hk.
    split; [lia|]. split; [exact Ea|]. split; [exact Hc|].
    intros j a' Hj Ha'. apply (Hfirst j (f a') Hj).
    now rewrite nth_error_map, Ha'.
  - intros (i & a & -> & Hi & Hc & Hfirst). exists i, (f a).
    assert (Hs : nth_error (map f l) i = Some (f a))
      by now rewrite nth_error_map, Hi.
    split; [exact Hs|]. split.
    + now rewrite (numbered_nth _ _ _ _ Hnum Hs).
    + split; [exact Hc|]. intros j sj Hj Hsj. rewrite nth_error_map in Hsj.
      destruct (nth_error l j) as [a'|] eqn:Ea'; [|discriminate].
      injection Hsj as <-. now apply (Hfirst j a').
Qed.

(** C10, as stated, fails: on a table with two dividers only [prime]
    succeeds and returns three columns, numbered 0 to 2. *)
Lemma C10_two_dividers_three_columns :
  prime two_dividers_img = Ok two_dividers_skeleton
  /\ List.length (SCols two_dividers_skeleton) = 3%nat
  /\ map Col.Num (SCols two_dividers_skeleton) = [0; 1; 2].
Proof. repeat split; now vm_compute. Qed.

(** C10, amended: whenever [prime] succeeds, the number of every row and of
    every column is its position in its sequence, so that each lookup returns
    the position of the first element that contains the coordinate. The
    columns are one more than the raw columns [findCols] returns, of which
    there are one to three: four columns, numbered 0 to 3, when three
    dividers are found. The last two columns are the two halves [Split]
    makes of one column: the first starts where that column starts and ends
    where the second starts, and the second ends where that column ends. *)
Theorem C10_numbering (img : Image) (sk : Skeleton) :
  fits_int (Bounds img) -> prime img = Ok sk ->
  (forall i r, nth_error (SRows sk) i = Some r -> Row.Num r = Z.of_nat i)
  /\ (forall i c, nth_error (SCols sk) i = Some c -> Col.Num c = Z.of_nat i)
  /\ (exists row0 col0,
        findRow0 img = Ok row0 /\ findCol0 img row0 = Ok col0
        /\ (1 <= List.length (findCols img row0 col0) <= 3)%nat
        /\ List.length (SCols sk) = S (List.length (findCols img row0 col0)))
  /\ (forall y n,
        Rows.Find (SRows sk) y = Ok n <->
        exists i r,
          n = Z.of_nat i /\ nth_error (SRows sk) i = Some r /\ row_contains r y
          /\ forall j r', (j < i)%nat -> nth_error (SRows sk) j = Some r' ->
                          ~ row_contains r' y)
  /\ (forall x n,
        Cols.Find (SCols sk) x = Ok n <->
        exists i c,
          n = Z.of_nat i /\ nth_error (SCols sk) i = Some c /\ col_contains c x
          /\ forall j c', (j < i)%nat -> nth_error (SCols sk) j = Some c' ->
                          ~ col_contains c' x)
  /\ (exists front c c1 c2,
        SCols sk = front ++ [c1; c2] /\ Split c = [c1; c2]
        /\ Col.Left c1 = Col.Left c /\ Col.Right c1 = Col.Left c2
        /\ Col.Right c2 = Col.Right c
        /\ Col.Left c1 <= Col.Right c1 <= Col.Right c2
        /\ Col.Num c2 = Col.Num c1 + 1).
Proof.
  intros Hfit Hp.
  destruct (prime_shape img sk Hfit Hp)
    as (row0 & col0 & Er & Ec & Hne & RC & RN & HW & _ & Hshape).
  destruct (cols_shape_order _ _ _ Hshape) as (CLen & Ck & CO & _).
  pose proof (cols_shape_numbered _ _ _ Hshape) as CN.
  repeat apply conj.
  - intros i r Hi. apply nth_error_row_span in Hi.
    exact (numbered_nth _ _ _ _ RN Hi).
  - intros i c Hi. now destruct (CO i c Hi).
  - exists row0, col0. repeat split; try assumption; lia.
  - intros y n. rewrite Rows_Find_span.
    exact (find_span_position row_span (SRows sk) y n RN).
  - intros x n. rewrite Cols_Find_span.
    exact (find_span_position col_span (SCols sk) x n CN).
  - destruct (cols_shape_split _ _ _ Hshape ltac:(lia))
      as (front & c & Ecs & _ & Hc & Hcw & Hcn).
    destruct (Split_order c Hc) as [Es Ho].
    { unfold Int64.max_int. lia. }
    { unfold Int64.max_int. lia. }
    exists front, c. do 2 eexists. rewrite Ecs, Es.
    split; [reflexivity|]. split; [reflexivity|]. cbn. repeat split; lia.
Qed.

Lemma C10_numbering_witness :
  Col.Num (Col.mk 3 22 27) = Z.of_nat 3
  /\ (Cols.Find (SCols table_skeleton) 18 = Ok (Z.of_nat 2) <->
      exists i c,
        Z.of_nat 2 = Z.of_nat i /\ nth_error (SCols table_skeleton) i = Some c
        /\ col_contains c 18
        /\ forall j c', (j < i)%nat ->
                        nth_error (SCols table_skeleton) j = Some c' ->
                        ~ col_contains c' 18).
Proof.
  assert (Hfit : fits_int (Bounds table_img)).
  { unfold fits_int, Int64.in_range, Int64.min_int, Int64.max_int. cbn. lia. }
  assert (Hp : prime table_img = Ok table_skeleton) by now vm_compute.
  destruct (C10_numbering table_img table_skeleton Hfit Hp)
    as (_ & Hnum & _ & _ & Hfind & _).
  split.
  - exact (Hnum 3%nat (Col.mk 3 22 27) eq_refl).
  - exact (Hfind 18 (Z.of_nat 2)).
Defined.

(** ** Cleaning (C6) *)

Lemma SetPix_Bounds (img : Image) (x y : Z) (c : NRGBA) :
  Bounds (SetPix img x y c) = Bounds img.
Proof. unfold SetPix. now destruct (inside (Bounds img) x y). Qed.

Lemma At_SetPix (img : Image) (x y : Z) (c : NRGBA) (x' y' : Z) :
  At (SetPix img x y c) x' y'
  = if inside (Bounds img) x' y' && ((x' =? x) && (y' =? y)) then c
    else At img x' y'.
Proof.
  unfold SetPix, At. destruct (inside (Bounds img) x y) eqn:Ei; cbn [Bounds Pix].
  - now destruct (inside (Bounds img) x' y'), ((x' =? x) && (y' =? y)).
  - destruct (Z.eqb_spec x' x) as [-> | Nx];
      destruct (Z.eqb_spec y' y) as [-> | Ny];
      rewrite ?Ei; cbn [andb]; rewrite ?andb_false_r; reflexivity.
Qed.

(** A loop whose steps paint pixels white paints the pixels of all its
    steps. *)
Lemma fold_paint {A : Type} (f : Image -> A -> Image) (P : A -> Z -> Z -> bool) :
  (forall im a, Bounds (f im a) = Bounds im) ->
  (forall im a x y,
      At (f im a) x y
      = if inside (Bounds im) x y && P a x y then white else At im x y) ->
  forall l im,
    Bounds (fold_left f l im) = Bounds im
    /\ forall x y,
        At (fold_left f l im) x y
        = if inside (Bounds im) x y && existsb (fun a => P a x y) l then white
          else At im x y.
Proof.
  intros Hb Hat. induction l as [|a l IH]; intros im; cbn [fold_left existsb].
  - split; [reflexivity|]. intros x y. now rewrite andb_false_r.
  - destruct (IH (f im a)) as [IHb IHat]. split; [now rewrite IHb, Hb|].
    intros x y. rewrite IHat, Hat, Hb.
    destruct (inside (Bounds im) x y), (P a x y),
      (existsb (fun a0 => P a0 x y) l); reflexivity.
Qed.

Lemma existsb_zrange (lo hi x : Z) (b : bool) :
  existsb (fun x0 => (x =? x0) && b) (zrange lo hi)
  = (lo <=? x) && (x <? hi) && b.
Proof.
  apply Bool.eq_iff_eq_true. rewrite existsb_exists, !andb_true_iff. split.
  - intros (x0 & Hin & Hx). apply in_zrange in Hin.
    apply andb_true_iff in Hx. destruct Hx as [Hx Hb].
    repeat split; [lia | lia | exact Hb].
  - intros [[Hlo Hhi] Hb]. exists x. split; [apply in_zrange; lia|].
    now rewrite Z.eqb_refl, Hb.
Qed.

Lemma clean_row_spec (img : Image) (xmax y : Z) :
  Bounds (clean_row img xmax y) = Bounds img
  /\ forall x' y',
      At (clean_row img xmax y) x' y'
      = if inside (Bounds img) x' y'
           && ((y' =? y) && (0 <=? x') && (x' <? xmax))
        then white else At img x' y'.
Proof.
  unfold clean_row.
  destruct (fold_paint (fun im x => SetPix im x y white)
              (fun x x' y' => (x' =? x) && (y' =? y))
              (fun im a => SetPix_Bounds im a y white)
              (fun im a x' y' => At_SetPix im a y white x' y')
              (zrange 0 xmax) img) as [Hb Hat].
  split; [exact Hb|]. intros x' y'. rewrite Hat, existsb_zrange.
  now destruct (y' =? y), (0 <=? x'), (x' <? xmax).
Qed.

Lemma clean_col_spec (img : Image) (ymax x : Z) :
  Bounds (clean_col img ymax x) = Bounds img
  /\ forall x' y',
      At (clean_col img ymax x) x' y'
      = if inside (Bounds img) x' y'
           && ((x' =? x) && (0 <=? y') && (y' <? ymax))
        then white else At img x' y'.
Proof.
  unfold clean_col.
  destruct (fold_paint (fun im y => SetPix im x y white)
              (fun y x' y' => (y' =? y) && (x' =? x))
              (fun im a => SetPix_Bounds im x a white)) with (l := zrange 0 ymax) (im := img)
    as [Hb Hat].
  { intros im a x' y'. rewrite At_SetPix.
    now destruct (x' =? x), (y' =? a). }
  split; [exact Hb|]. intros x' y'. rewrite Hat, existsb_zrange.
  now destruct (x' =? x), (0 <=? y'), (y' <? ymax).
Qed.

(** What [clean] does to every pixel: the pixels of [cleaned] that are
    inside the image become white, the others keep their colour. *)
Lemma clean_spec (img : Image) (rows : Rows) (cols : Cols) :
  Bounds (clean img rows cols) = Bounds img
  /\ forall x y,
      At (clean img rows cols) x y
      = if inside (Bounds img) x y && cleaned img rows cols x y then white
        else At img x y.
Proof.
  unfold clean, cleaned.
  set (xmax := MaxX (Bounds img)). set (ymax := MaxY (Bounds img)).
  destruct (fold_paint (fun im r => clean_row im xmax (Row.Top r))
              (fun r x y => (y =? Row.Top r) && (0 <=? x) && (x <? xmax))
              (fun im r => proj1 (clean_row_spec im xmax (Row.Top r)))
              (fun im r => proj2 (clean_row_spec im xmax (Row.Top r)))
              rows img) as [Hb1 Hat1].
  destruct (fold_paint (fun im c => clean_col im ymax (Col.Right c))
              (fun c x y => (x =? Col.Right c) && (0 <=? y) && (y <? ymax))
              (fun im c => proj1 (clean_col_spec im ymax (Col.Right c)))
              (fun im c => proj2 (clean_col_spec im ymax (Col.Right c)))
              cols
              (fold_left (fun im r => clean_row im xmax (Row.Top r)) rows img))
    as [Hb2 Hat2].
  split; [now rewrite Hb2, Hb1|]. intros x y. rewrite Hat2, Hat1, Hb1.
  destruct (inside (Bounds img) x y),
    (existsb (fun r => (y =? Row.Top r) && (0 <=? x) && (x <? xmax)) rows),
    (existsb (fun c => (x =? Col.Right c) && (0 <=? y) && (y <? ymax)) cols);
    reflexivity.
Qed.

Lemma inside_max (r : Rectangle) (x y : Z) :
  inside r x y = true -> x < MaxX r /\ y < MaxY r.
Proof. unfold inside. intros H. lia. Qed.

Lemma clean_row_top (img : Image) (rows : Rows) (cols : Cols) (r : Row) (x : Z) :
  In r rows -> inside (Bounds img) x (Row.Top r) = true -> 0 <= x ->
  At (clean img rows cols) x (Row.Top r) = white.
Proof.
  intros Hin Hi Hx. rewrite (proj2 (clean_spec img rows cols)), Hi.
  destruct (inside_max _ _ _ Hi) as [Hmx _].
  assert (E : cleaned img rows cols x (Row.Top r) = true).
  { unfold cleaned. apply orb_true_iff. left. apply existsb_exists.
    exists r. split; [exact Hin|]. rewrite Z.eqb_refl. lia. }
  now rewrite E.
Qed.

Lemma clean_col_right (img : Image) (rows : Rows) (cols : Cols) (c : Col) (y : Z) :
  In c cols -> inside (Bounds img) (Col.Right c) y = true -> 0 <= y ->
  At (clean img rows cols) (Col.Right c) y = white.
Proof.
  intros Hin Hi Hy. rewrite (proj2 (clean_spec img rows cols)), Hi.
  destruct (inside_max _ _ _ Hi) as [_ Hmy].
  assert (E : cleaned img rows cols (Col.Right c) y = true).
  { unfold cleaned. apply orb_true_iff. right. apply existsb_exists.
    exists c. split; [exact Hin|]. rewrite Z.eqb_refl. lia. }
  now rewrite E.
Qed.

(** C6, as stated, fails: after the cleaning of the example table the pixel
    (1, 25), inside the image and on the bottom line of the last row, is
    still black. *)
Lemma C6_last_bottom_line_stays :
  findRow0 table_img = Ok 5 /\ findCol0 table_img 5 = Ok 3
  /\ findRows table_img 5 = [Row.mk 0 5 15; Row.mk 1 15 25]
  /\ inside (Bounds table_img) 1 25 = true
  /\ At (clean table_img (findRows table_img 5) (findCols table_img 5 3)) 1 25
     = black
  /\ ~ boundaries_are_background
         (clean table_img (findRows table_img 5) (findCols table_img 5 3))
         (findRows table_img 5) (findCols table_img 5 3).
Proof.
  do 5 (split; [now vm_compute|]). intros Hall.
  specialize (Hall 1 25 eq_refl).
  assert (Hb : on_row_boundary (findRows table_img 5) 25).
  { exists (Row.mk 1 15 25). split; [|now right]. right. now left. }
  specialize (Hall (or_introl Hb)). vm_compute in Hall. discriminate Hall.
Qed.

(** C6, amended: after the cleaning pass the pixels of the image, from the
    coordinate 0 on, that lie on the top line of a detected row or on the
    right line of a detected column are white; so are those on the bottom
    line of every row but the last one and on the left line of every column
    but the first one, which are the top line of the next row and the right
    line of the column before. *)
Theorem C6_clean_lines (img : Image) (row0 col0 : Z) :
  fits_int (Bounds img) ->
  findRow0 img = Ok row0 -> findCol0 img row0 = Ok col0 ->
  let rows := findRows img row0 in
  let cols := findCols img row0 col0 in
  let img' := clean img rows cols in
  Bounds img' = Bounds img
  /\ (forall i r x,
        nth_error rows i = Some r ->
        inside (Bounds img) x (Row.Top r) = true -> 0 <= x ->
        At img' x (Row.Top r) = white)
  /\ (forall i r x,
        nth_error rows i = Some r -> (S i < List.length rows)%nat ->
        inside (Bounds img) x (Row.Bottom r) = true -> 0 <= x ->
        At img' x (Row.Bottom r) = white)
  /\ (forall i c y,
        nth_error cols i = Some c ->
        inside (Bounds img) (Col.Right c) y = true -> 0 <= y ->
        At img' (Col.Right c) y = white)
  /\ (forall i c y,
        nth_error cols i = Some c -> (0 < i)%nat ->
        inside (Bounds img) (Col.Left c) y = true -> 0 <= y ->
        At img' (Col.Left c) y = white).
Proof.
  intros (_ & _ & HfX & HfY) Er Ec rows cols img'.
  pose proof (findRow0_range _ _ Er) as Hrow.
  pose proof (findCol0_range _ _ _ Ec) as Hcol.
  destruct (findRows_chain img row0 HfY Hrow) as (hiR & RC & _).
  destruct (findCols_chain img row0 col0 HfX) as (hiC & CC & _); [lia|].
  fold rows in RC. fold cols in CC.
  destruct (clean_spec img rows cols) as [Hb Hat]. fold img' in Hb, Hat.
  repeat apply conj.
  - exact Hb.
  - intros i r x Hi Hin Hx. apply clean_row_top; try assumption.
    now apply nth_error_In with i.
  - intros i r x Hi Hlt Hin Hx.
    destruct (nth_error rows (S i)) as [r'|] eqn:Hj.
    + pose proof (chain_next _ _ _ _ _ _ RC (nth_error_row_span _ _ _ Hi)
                    (nth_error_row_span _ _ _ Hj)) as E.
      unfold span_hi, span_lo, row_span in E. cbn [fst snd] in E.
      rewrite E in *. apply clean_row_top; try assumption.
      now apply nth_error_In with (S i).
    + apply nth_error_None in Hj. lia.
  - intros i c y Hi Hin Hy. apply clean_col_right; try assumption.
    now apply nth_error_In with i.
  - intros [|j] c y Hi Hpos Hin Hy; [lia|].
    destruct (nth_error cols j) as [c'|] eqn:Hj.
    + pose proof (chain_next _ _ _ _ _ _ CC (nth_error_col_span _ _ _ Hj)
                    (nth_error_col_span _ _ _ Hi)) as E.
      unfold span_hi, span_lo, col_span in E. cbn [fst snd] in E.
      rewrite <- E in *. apply clean_col_right; try assumption.
      now apply nth_error_In with j.
    + apply nth_error_None in Hj.
      assert (Hsome : nth_error cols (S j) <> None) by congruence.
      apply nth_error_Some in Hsome. lia.
Qed.

Lemma C6_clean_lines_witness :
  At (clean table_img (findRows table_img 5) (findCols table_img 5 3)) 1 15
  = white.
Proof.
  assert (Hfit : fits_int (Bounds table_img)).
  { unfold fits_int, Int64.in_range, Int64.min_int, Int64.max_int. cbn. lia. }
  destruct (C6_clean_lines table_img 5 3 Hfit eq_refl eq_refl)
    as (_ & _ & Hbottom & _).
  refine (Hbottom O (Row.mk 0 5 15) 1 eq_refl _ eq_refl _);
    [vm_compute; lia | lia].
Defined.

(* ================================================================== *)
(** * Further properties of the detector *)

Lemma NRGBA_eqb_eq (c d : NRGBA) : NRGBA_eqb c d = true <-> c = d.
Proof.
  unfold NRGBA_eqb. destruct c as [r g b a], d as [r' g' b' a']. cbn. split.
  - intros E. repeat (apply andb_prop in E; destruct E as [E ?]).
    f_equal; lia.
  - intros [= -> -> -> ->]. now rewrite !Z.eqb_refl.
Qed.

Lemma NRGBA_eqb_neq (c d : NRGBA) : NRGBA_eqb c d = false <-> c <> d.
Proof.
  rewrite <- NRGBA_eqb_eq. destruct (NRGBA_eqb c d); split; congruence.
Qed.

(** A search loop that returns the first value of a range that passes a
    test. *)
Lemma first_in_range (p : Z -> bool) (e : error) (loop : list Z -> result Z) :
  loop [] = Err e ->
  (forall y ys, loop (y :: ys) = if p y then Ok y else loop ys) ->
  forall hi (n : nat) lo,
    n = Z.to_nat (hi - lo) ->
    (forall y, loop (zrange lo hi) = Ok y <->
               lo <= y < hi /\ p y = true
               /\ forall z, lo <= z < y -> p z = false)
    /\ (loop (zrange lo hi) = Err e <-> forall z, lo <= z < hi -> p z = false)
    /\ loop (zrange lo hi) <> Panic
    /\ (forall e', loop (zrange lo hi) = Err e' -> e' = e).
Proof.
  intros Hnil Hcons hi. induction n as [|n IH]; intros lo Hn.
  - rewrite zrange_nil by lia. rewrite Hnil. split; [|split; [|split]].
    + intros y. split; [discriminate | lia].
    + split; [intros _ z Hz; exfalso; lia | reflexivity].
    + discriminate.
    + now intros e' [= <-].
  - rewrite zrange_cons by lia. rewrite Hcons.
    destruct (IH (lo + 1) ltac:(lia)) as (A & B & C & D).
    destruct (p lo) eqn:Hp.
    + split; [|split; [|split]].
      * intros y. split.
        -- intros [= <-]. repeat split; try lia; try assumption.
        -- intros (Hy & Hpy & Hfirst).
           destruct (Z.eq_dec y lo) as [-> | Ne]; [reflexivity|].
           rewrite (Hfirst lo) in Hp by lia. discriminate.
      * split; [discriminate|]. intros Hall. rewrite (Hall lo) in Hp by lia.
        discriminate.
      * discriminate.
      * discriminate.
    + split; [|split; [|split]].
      * intros y. rewrite A. split.
        -- intros (Hy & Hpy & Hfirst). repeat split; try lia; try assumption.
           intros z Hz. destruct (Z.eq_dec z lo) as [-> | Ne]; [exact Hp|].
           apply Hfirst. lia.
        -- intros (Hy & Hpy & Hfirst).
           assert (y <> lo) by (intros ->; congruence).
           repeat split; try lia; try assumption.
           intros z Hz. apply Hfirst. lia.
      * rewrite B. split.
        -- intros Hall z Hz. destruct (Z.eq_dec z lo) as [-> | Ne]; [exact Hp|].
           apply Hall. lia.
        -- intros Hall z Hz. apply Hall. lia.
      * exact C.
      * exact D.
Qed.

(** X1. [findRow0] returns the first ordinate, from 0 on, whose pixel in the
    column 0 is not white; it fails, with its own error and never with a
    panic, exactly when every pixel of the column 0 from 0 to the bottom of
    the image is white (an image that ends at or above 0 included). *)
Theorem findRow0_first (img : Image) :
  (forall row0,
      findRow0 img = Ok row0 <->
      0 <= row0 < MaxY (Bounds img) /\ At img 0 row0 <> white
      /\ forall y, 0 <= y < row0 -> At img 0 y = white)
  /\ (findRow0 img = Err ErrFirstRowNotFound <->
      forall y, 0 <= y < MaxY (Bounds img) -> At img 0 y = white)
  /\ findRow0 img <> Panic
  /\ (forall e, findRow0 img = Err e -> e = ErrFirstRowNotFound).
Proof.
  destruct (first_in_range (fun y => negb (NRGBA_eqb (At img 0 y) white))
              ErrFirstRowNotFound (findRow0_loop img) eq_refl
              (fun y ys => eq_refl) (MaxY (Bounds img)) _ 0 eq_refl)
    as (A & B & C & D).
  unfold findRow0. split; [|split; [|split]].
  - intros row0. rewrite A. rewrite negb_true_iff, NRGBA_eqb_neq.
    split; intros (H1 & H2 & H3); (split; [exact H1|]); (split; [exact H2|]);
      intros y Hy.
    + specialize (H3 y Hy). now rewrite negb_false_iff, NRGBA_eqb_eq in H3.
    + rewrite negb_false_iff, NRGBA_eqb_eq. now apply H3.
  - rewrite B. split; intros H y Hy.
    + specialize (H y Hy). now rewrite negb_false_iff, NRGBA_eqb_eq in H.
    + rewrite negb_false_iff, NRGBA_eqb_eq. now apply H.
  - exact C.
  - exact D.
Qed.

(** X2. [findCol0] returns the first abscissa, from 3 on, whose pixel on the
    row [row0] is black: never an abscissa below 3, whatever the pixels 0 to
    2 are. It fails, with its own error, exactly when no pixel of that row
    from 3 to the right end of the image is black. *)
Theorem findCol0_first (img : Image) (row0 : Z) :
  (forall col0,
      findCol0 img row0 = Ok col0 <->
      3 <= col0 < MaxX (Bounds img) /\ At img col0 row0 = black
      /\ forall x, 3 <= x < col0 -> At img x row0 <> black)
  /\ (findCol0 img row0 = Err ErrFirstColNotFound <->
      forall x, 3 <= x < MaxX (Bounds img) -> At img x row0 <> black)
  /\ findCol0 img row0 <> Panic
  /\ (forall e, findCol0 img row0 = Err e -> e = ErrFirstColNotFound).
Proof.
  destruct (first_in_range (fun x => NRGBA_eqb (At img x row0) black)
              ErrFirstColNotFound (findCol0_loop img row0) eq_refl
              (fun y ys => eq_refl) (MaxX (Bounds img)) _ 3 eq_refl)
    as (A & B & C & D).
  unfold findCol0. split; [|split; [|split]].
  - intros col0. rewrite A. rewrite NRGBA_eqb_eq.
    split; intros (H1 & H2 & H3); (split; [exact H1|]); (split; [exact H2|]);
      intros x Hx.
    + apply NRGBA_eqb_neq. now apply H3.
    + apply NRGBA_eqb_neq. now apply H3.
  - rewrite B. split; intros H x Hx; apply NRGBA_eqb_neq; now apply H.
  - exact C.
  - exact D.
Qed.

Lemma At_black_inside (img : Image) (x y : Z) :
  At img x y = black -> inside (Bounds img) x y = true.
Proof.
  unfold At. destruct (inside (Bounds img) x y); [reflexivity | discriminate].
Qed.

(** The loop of [findRows] closes a row at every black pixel of the sample
    column and only there, and leaves at the first pixel that is more than
    [maxHeight] below the last black one. *)
Lemma findRows_loop_delimited (img : Image) (xs b : Z) (n : nat) :
  forall a curr rows,
    n = Z.to_nat (b - a) ->
    0 <= Row.Top curr < a -> b <= Int64.max_int ->
    (forall y, Row.Top curr < y < a ->
               At img xs y <> black /\ y - Row.Top curr <= maxHeight) ->
    Forall (row_delimited img xs) rows ->
    Forall (row_delimited img xs) (findRows_loop img xs (zrange a b) curr rows).
Proof.
  unfold Int64.max_int.
  induction n as [|n IH]; intros a curr rows Hn Hcurr Hb Hgap Hrows.
  - rewrite zrange_nil by lia. exact Hrows.
  - rewrite zrange_cons by lia. cbn [findRows_loop].
    assert (Esub : Int64.sub a (Row.Top curr) = a - Row.Top curr).
    { unfold Int64.sub. apply wrap_small. lia. }
    rewrite Esub.
    destruct (NRGBA_eqb (At img xs a) black) eqn:Eb; cbn [negb].
    + apply NRGBA_eqb_eq in Eb. apply IH; cbn [Row.Top]; try lia.
      apply Forall_app. split; [exact Hrows|]. constructor; [|constructor].
        unfold row_delimited. cbn [Row.Top Row.Bottom].
      split; [exact Eb|]. split; [intros y Hy; now apply Hgap|].
      destruct (Z.eq_dec a (Row.Top curr + 1)) as [-> | Ne].
      * unfold maxHeight. lia.
      * destruct (Hgap (a - 1) ltac:(lia)) as [_ Hh]. lia.
    + apply NRGBA_eqb_neq in Eb.
      destruct (a - Row.Top curr >? maxHeight) eqn:Eh; [exact Hrows|].
      apply IH; try lia; try assumption.
      intros y Hy. destruct (Z.eq_dec y a) as [-> | Ne].
      * split; [exact Eb | lia].
      * apply Hgap. lia.
Qed.

(** X3. Every row [findRows] returns is delimited by two consecutive black
    pixels of the sample column, five pixels left of the right end of the
    image: its bottom is a black pixel of that column, no pixel of that
    column strictly inside the row is black, and the row is at most 51
    pixels high (the scan stops at the first pixel more than 50 below the
    last boundary). *)
Theorem findRows_delimited (img : Image) (row0 : Z) :
  Int64.in_range (MaxY (Bounds img)) -> 0 <= row0 < MaxY (Bounds img) ->
  forall r, In r (findRows img row0) ->
    At img (Int64.sub (MaxX (Bounds img)) 5) (Row.Bottom r) = black
    /\ (forall y, Row.Top r < y < Row.Bottom r ->
                  At img (Int64.sub (MaxX (Bounds img)) 5) y <> black)
    /\ row0 <= Row.Top r < Row.Bottom r
    /\ Row.Bottom r <= Row.Top r + 51
    /\ Row.Bottom r < MaxY (Bounds img).
Proof.
  intros Hfit Hrow r Hin. pose proof Hfit as Hfit'.
  unfold Int64.in_range, Int64.min_int, Int64.max_int in Hfit'.
  assert (Hdel : Forall (row_delimited img (Int64.sub (MaxX (Bounds img)) 5))
                   (findRows img row0)).
  { unfold findRows.
    assert (E : Int64.add row0 1 = row0 + 1)
      by (unfold Int64.add; apply wrap_small; lia).
    rewrite E. apply findRows_loop_delimited with (n := Z.to_nat (MaxY (Bounds img) - (row0 + 1)));
      cbn [Row.Top]; try reflexivity; try (unfold Int64.max_int; lia).
    constructor. }
  rewrite Forall_forall in Hdel. destruct (Hdel r Hin) as (A & B & C).
  destruct (findRows_chain img row0 Hfit Hrow) as (hi & RC & _ & Hhi).
  apply In_nth_error in Hin. destruct Hin as (i & Hi).
  apply nth_error_row_span in Hi.
  destruct (chain_nth _ _ _ _ _ RC Hi) as (D & _ & F & _).
  unfold span_lo, span_hi, row_span in D, F. cbn [fst snd] in D, F.
  unfold maxHeight in C. repeat split; try assumption; lia.
Qed.

Lemma findRows_delimited_witness :
  At table_img (Int64.sub (MaxX (Bounds table_img)) 5)
     (Row.Bottom (Row.mk 1 15 25)) = black
  /\ (forall y, Row.Top (Row.mk 1 15 25) < y < Row.Bottom (Row.mk 1 15 25) ->
                At table_img (Int64.sub (MaxX (Bounds table_img)) 5) y <> black)
  /\ 5 <= Row.Top (Row.mk 1 15 25) < Row.Bottom (Row.mk 1 15 25)
  /\ Row.Bottom (Row.mk 1 15 25) <= Row.Top (Row.mk 1 15 25) + 51
  /\ Row.Bottom (Row.mk 1 15 25) < MaxY (Bounds table_img).
Proof.
  apply (findRows_delimited table_img 5).
  - unfold Int64.in_range, Int64.min_int, Int64.max_int. cbn. lia.
  - cbn. lia.
  - replace (findRows table_img 5) with [Row.mk 0 5 15; Row.mk 1 15 25]
      by (vm_compute; reflexivity).
    right. now left.
Defined.

(** The loop of [findCols] closes a column at every marker and only there,
    until it has three columns. *)
Lemma findCols_loop_delimited (img : Image) (row0 b : Z) (n : nat) :
  forall a curr cols,
    n = Z.to_nat (b - a) ->
    Col.Left curr < a ->
    (forall x, Col.Left curr < x < a -> isCol img x row0 = false) ->
    Forall (col_delimited img row0) cols ->
    Forall (col_delimited img row0)
      (findCols_loop img row0 (zrange a b) curr cols).
Proof.
  induction n as [|n IH]; intros a curr cols Hn Hcurr Hgap Hcols.
  - rewrite zrange_nil by lia. exact Hcols.
  - rewrite zrange_cons by lia. cbn [findCols_loop].
    destruct (isCol img a row0) eqn:Ec; cbn [negb].
    + assert (Hnew : Forall (col_delimited img row0)
                       (cols ++ [Col.mk (Col.Num curr) (Col.Left curr) a])).
      { apply Forall_app. split; [exact Hcols|]. constructor; [|constructor].
        unfold col_delimited. cbn [Col.Left Col.Right]. now split. }
      destruct (Z.of_nat _ =? 3); [exact Hnew|].
      apply IH; cbn [Col.Left]; try lia; assumption.
    + apply IH; try lia; try assumption.
      intros x Hx. destruct (Z.eq_dec x a) as [-> | Ne]; [exact Ec|].
      apply Hgap. lia.
Qed.

(** Every marker the loop of [findCols] passes is the right end of a column,
    unless the loop has left with three columns before reaching it. *)
Lemma findCols_loop_complete (img : Image) (row0 lo b : Z) (n : nat) :
  forall a curr cols,
    n = Z.to_nat (b - a) ->
    (forall x, lo < x < a -> isCol img x row0 = true ->
               exists c, In c cols /\ Col.Right c = x) ->
    (forall c, In c cols -> Col.Right c < a) ->
    forall x, lo < x < b -> isCol img x row0 = true ->
      (exists c, In c (findCols_loop img row0 (zrange a b) curr cols)
                 /\ Col.Right c = x)
      \/ (List.length (findCols_loop img row0 (zrange a b) curr cols) = 3%nat
          /\ forall c, In c (findCols_loop img row0 (zrange a b) curr cols) ->
                       Col.Right c < x).
Proof.
  induction n as [|n IH]; intros a curr cols Hn Hseen Hbelow x Hx Hm.
  - rewrite zrange_nil by lia. left. apply Hseen; [lia | exact Hm].
  - rewrite zrange_cons by lia. cbn [findCols_loop].
    destruct (isCol img a row0) eqn:Ec; cbn [negb].
    + match goal with
      | |- context [if Z.of_nat (List.length ?l) =? 3 then _ else _] =>
          remember l as cols' eqn:Ecols'
      end.
      assert (Hseen' : forall x, lo < x < a + 1 -> isCol img x row0 = true ->
                                 exists c, In c cols' /\ Col.Right c = x).
      { intros x' Hx' Hm'. rewrite Ecols'.
        destruct (Z.eq_dec x' a) as [-> | Ne].
        - eexists. split; [apply in_or_app; right; now left | reflexivity].
        - destruct (Hseen x' ltac:(lia) Hm') as (c & Hc & E).
          exists c. split; [apply in_or_app; now left | exact E]. }
      assert (Hbelow' : forall c, In c cols' -> Col.Right c < a + 1).
      { intros c Hc. rewrite Ecols' in Hc. apply in_app_or in Hc.
        destruct Hc as [Hc | [<- | []]].
        - apply Hbelow in Hc. lia.
        - cbn. lia. }
      destruct (Z.eqb_spec (Z.of_nat (List.length cols')) 3) as [E3 | N3].
      * destruct (Z_lt_le_dec x (a + 1)) as [Hlt | Hge].
        -- left. now apply Hseen'.
        -- right. split; [lia|]. intros c Hc. apply Hbelow' in Hc. lia.
      * apply IH; try lia; assumption.
    + apply IH; try lia; try assumption.
      * intros x' Hx' Hm'. destruct (Z.eq_dec x' a) as [-> | Ne]; [congruence|].
        apply Hseen; [lia | exact Hm'].
      * intros c Hc. apply Hbelow in Hc. lia.
Qed.

(** X4. The columns [findCols] returns are delimited by the first markers of
    the row [row0] after the origin [col0], at most three of them: the right
    end of every column is a marker, no abscissa strictly inside a column is
    one, and every marker after [col0] is the right end of a column unless
    it lies beyond the third one. *)
Theorem findCols_first_markers (img : Image) (row0 col0 : Z) :
  Int64.in_range (MaxX (Bounds img)) -> 0 <= col0 < MaxX (Bounds img) ->
  (List.length (findCols img row0 col0) <= 3)%nat
  /\ (forall c, In c (findCols img row0 col0) ->
        isCol img (Col.Right c) row0 = true
        /\ (forall x, Col.Left c < x < Col.Right c -> isCol img x row0 = false)
        /\ col0 <= Col.Left c < Col.Right c
        /\ Col.Right c < MaxX (Bounds img))
  /\ (forall x, col0 < x < MaxX (Bounds img) -> isCol img x row0 = true ->
        (exists c, In c (findCols img row0 col0) /\ Col.Right c = x)
        \/ (List.length (findCols img row0 col0) = 3%nat
            /\ forall c, In c (findCols img row0 col0) -> Col.Right c < x)).
Proof.
  intros Hfit Hcol. pose proof Hfit as Hfit'.
  unfold Int64.in_range, Int64.min_int, Int64.max_int in Hfit'.
  destruct (findCols_chain img row0 col0 Hfit Hcol) as (hi & CC & _ & Hhi & Hlen).
  assert (E : Int64.add col0 1 = col0 + 1)
    by (unfold Int64.add; apply wrap_small; lia).
  split; [exact Hlen|]. split.
  - intros c Hin.
    assert (Hdel : Forall (col_delimited img row0) (findCols img row0 col0)).
    { unfold findCols. rewrite E.
      apply findCols_loop_delimited
        with (n := Z.to_nat (MaxX (Bounds img) - (col0 + 1)));
        cbn [Col.Left]; try reflexivity; try lia.
      constructor. }
    rewrite Forall_forall in Hdel. destruct (Hdel c Hin) as (A & B).
    apply In_nth_error in Hin. destruct Hin as (i & Hi).
    apply nth_error_col_span in Hi.
    destruct (chain_nth _ _ _ _ _ CC Hi) as (D & F & G & _).
    unfold span_lo, span_hi, col_span in D, F, G. cbn [fst snd] in D, F, G.
    repeat split; try assumption; lia.
  - intros x Hx Hm. unfold findCols. rewrite E.
    apply findCols_loop_complete
      with (n := Z.to_nat (MaxX (Bounds img) - (col0 + 1))) (lo := col0);
      try reflexivity; try assumption.
    + intros x' Hx'. lia.
    + intros c [].
Qed.

Lemma findCols_first_markers_witness :
  (List.length (findCols table_img 5 3) <= 3)%nat
  /\ (forall c, In c (findCols table_img 5 3) ->
        isCol table_img (Col.Right c) 5 = true
        /\ (forall x, Col.Left c < x < Col.Right c -> isCol table_img x 5 = false)
        /\ 3 <= Col.Left c < Col.Right c
        /\ Col.Right c < MaxX (Bounds table_img))
  /\ (forall x, 3 < x < MaxX (Bounds table_img) -> isCol table_img x 5 = true ->
        (exists c, In c (findCols table_img 5 3) /\ Col.Right c = x)
        \/ (List.length (findCols table_img 5 3) = 3%nat
            /\ forall c, In c (findCols table_img 5 3) -> Col.Right c < x)).
Proof.
  apply (findCols_first_markers table_img 5 3).
  - unfold Int64.in_range, Int64.min_int, Int64.max_int. cbn. lia.
  - cbn. lia.
Defined.

Lemma isCol_arms (img : Image) (x y : Z) :
  Int64.in_range (x - 4) -> Int64.in_range (x + 4) ->
  Int64.in_range (y - 4) -> Int64.in_range (y + 4) ->
  isCol img x y = true <->
  forall i, -4 <= i <= 4 ->
            At img (x + i) y = black /\ At img x (y + i) = black.
Proof.
  unfold Int64.in_range, Int64.min_int, Int64.max_int.
  intros Hx1 Hx2 Hy1 Hy2.
  unfold isCol. rewrite forallb_forall. split.
  - intros Hall i Hi.
    assert (Hpos : forall j, 0 <= j < 5 ->
               At img (x + j) y = black /\ At img (x - j) y = black
               /\ At img x (y + j) = black /\ At img x (y - j) = black).
    { intros j Hj. specialize (Hall j (proj2 (in_zrange 0 5 j) Hj)).
      unfold Int64.add, Int64.sub in Hall.
      rewrite !wrap_small in Hall by lia.
      apply andb_prop in Hall. destruct Hall as [Hall H4].
      apply andb_prop in Hall. destruct Hall as [Hall H3].
      apply andb_prop in Hall. destruct Hall as [H1 H2].
      apply NRGBA_eqb_eq in H1, H2, H3, H4. tauto. }
    destruct (Z_le_gt_dec 0 i) as [Hge | Hlt].
    + destruct (Hpos i ltac:(lia)) as (A & _ & C & _). now split.
    + destruct (Hpos (- i) ltac:(lia)) as (_ & B & _ & D).
      replace (x - - i) with (x + i) in B by lia.
      replace (y - - i) with (y + i) in D by lia. now split.
  - intros Hall j Hj. apply in_zrange in Hj.
    unfold Int64.add, Int64.sub. rewrite !wrap_small by lia.
    destruct (Hall j ltac:(lia)) as [A C].
    destruct (Hall (- j) ltac:(lia)) as [B D].
    replace (x + - j) with (x - j) in B by lia.
    replace (y + - j) with (y - j) in D by lia.
    rewrite A, B, C, D. reflexivity.
Qed.

Lemma isCol_border (img : Image) (x y : Z) :
  Int64.in_range (x - 4) -> Int64.in_range (x + 4) ->
  Int64.in_range (y - 4) -> Int64.in_range (y + 4) ->
  isCol img x y = true ->
  MinX (Bounds img) <= x - 4 /\ x + 4 < MaxX (Bounds img)
  /\ MinY (Bounds img) <= y - 4 /\ y + 4 < MaxY (Bounds img).
Proof.
  intros Hx1 Hx2 Hy1 Hy2 Hm. rewrite isCol_arms in Hm by assumption.
  destruct (Hm 4 ltac:(lia)) as [A C]. destruct (Hm (-4) ltac:(lia)) as [B D].
  apply At_black_inside in A, B, C, D. unfold inside in *. lia.
Qed.

Lemma findCols_all_delimited (img : Image) (row0 col0 : Z) :
  Int64.in_range (MaxX (Bounds img)) -> 0 <= col0 < MaxX (Bounds img) ->
  Forall (fun c => col_delimited img row0 c
                   /\ col0 < Col.Right c < MaxX (Bounds img))
         (findCols img row0 col0).
Proof.
  intros Hfit Hcol. pose proof Hfit as Hfit'.
  unfold Int64.in_range, Int64.min_int, Int64.max_int in Hfit'.
  destruct (findCols_chain img row0 col0 Hfit Hcol) as (hi & CC & _ & Hhi & Hlen).
  assert (E : Int64.add col0 1 = col0 + 1)
    by (unfold Int64.add; apply wrap_small; lia).
  assert (Hdel : Forall (col_delimited img row0) (findCols img row0 col0)).
  { unfold findCols. rewrite E.
    apply findCols_loop_delimited
      with (n := Z.to_nat (MaxX (Bounds img) - (col0 + 1)));
      cbn [Col.Left]; try reflexivity; try lia.
    constructor. }
  rewrite Forall_forall in *. intros c Hin. split; [now apply Hdel|].
  apply In_nth_error in Hin. destruct Hin as (i & Hi).
  apply nth_error_col_span in Hi.
  destruct (chain_nth _ _ _ _ _ CC Hi) as (D & F & G & _).
  unfold span_lo, span_hi, col_span in D, F, G. cbn [fst snd] in D, F, G.
  lia.
Qed.

Lemma findRow0_error (img : Image) (e : error) :
  findRow0 img = Err e -> e = ErrFirstRowNotFound.
Proof.
  destruct (first_in_range (fun y => negb (NRGBA_eqb (At img 0 y) white))
              ErrFirstRowNotFound (findRow0_loop img) eq_refl
              (fun y ys => eq_refl) (MaxY (Bounds img)) _ 0 eq_refl)
    as (_ & _ & _ & H).
  apply H.
Qed.

Lemma findCol0_error (img : Image) (row0 : Z) (e : error) :
  findCol0 img row0 = Err e -> e = ErrFirstColNotFound.
Proof.
  destruct (first_in_range (fun x => NRGBA_eqb (At img x row0) black)
              ErrFirstColNotFound (findCol0_loop img row0) eq_refl
              (fun y ys => eq_refl) (MaxX (Bounds img)) _ 3 eq_refl)
    as (_ & _ & _ & H).
  apply H.
Qed.

(** X5. A marker is five black pixels in each of the four directions from
    its centre, the centre included: the 17 pixels of a plus sign. As a
    pixel outside the image is not black, the centre of a marker is at least
    four pixels away from every edge of the image. *)
Theorem isCol_marker (img : Image) (x y : Z) :
  Int64.in_range (x - 4) -> Int64.in_range (x + 4) ->
  Int64.in_range (y - 4) -> Int64.in_range (y + 4) ->
  (isCol img x y = true <->
   forall i, -4 <= i <= 4 ->
             At img (x + i) y = black /\ At img x (y + i) = black)
  /\ (isCol img x y = true ->
      MinX (Bounds img) <= x - 4 /\ x + 4 < MaxX (Bounds img)
      /\ MinY (Bounds img) <= y - 4 /\ y + 4 < MaxY (Bounds img)).
Proof.
  intros Hx1 Hx2 Hy1 Hy2. split.
  - now apply isCol_arms.
  - now apply isCol_border.
Qed.

Lemma isCol_marker_witness :
  (isCol table_img 10 5 = true <->
   forall i, -4 <= i <= 4 ->
             At table_img (10 + i) 5 = black /\ At table_img 10 (5 + i) = black)
  /\ (isCol table_img 10 5 = true ->
      MinX (Bounds table_img) <= 10 - 4 /\ 10 + 4 < MaxX (Bounds table_img)
      /\ MinY (Bounds table_img) <= 5 - 4 /\ 5 + 4 < MaxY (Bounds table_img)).
Proof.
  apply (isCol_marker table_img 10 5);
    unfold Int64.in_range, Int64.min_int, Int64.max_int; lia.
Defined.

(** [prime] on an image whose origin is found. *)
Lemma prime_no_rows_or_cols (img : Image) (row0 col0 : Z) :
  findRow0 img = Ok row0 -> findCol0 img row0 = Ok col0 ->
  findRows img row0 = [] \/ findCols img row0 col0 = [] ->
  prime img = Panic.
Proof.
  intros Er Ec Hempty. unfold prime. rewrite Er. cbn [bind]. rewrite Ec.
  cbn [bind]. cbv zeta. unfold draw.
  destruct (findCols img row0 col0) as [|c cs]; [reflexivity|].
  destruct Hempty as [-> | Hc]; [reflexivity | discriminate].
Qed.

(** X6. The only errors [prime] returns are those of the two origin
    searches; once the origin is found [prime] returns a skeleton or
    panics, and it panics when no row or no column is detected (the first
    row or column of an empty sequence is read without a check). In
    particular it panics when the first row of the table is less than four
    pixels from the top or the bottom of the image, where no marker can be
    found. *)
Theorem prime_failures (img : Image) :
  fits_int (Bounds img) ->
  MaxX (Bounds img) + 4 <= Int64.max_int ->
  MaxY (Bounds img) + 4 <= Int64.max_int ->
  (forall e, prime img = Err e <->
             findRow0 img = Err e
             \/ exists row0, findRow0 img = Ok row0 /\ findCol0 img row0 = Err e)
  /\ (forall e, prime img = Err e ->
                e = ErrFirstRowNotFound \/ e = ErrFirstColNotFound)
  /\ (forall row0 col0,
        findRow0 img = Ok row0 -> findCol0 img row0 = Ok col0 ->
        findRows img row0 = [] \/ findCols img row0 col0 = [] ->
        prime img = Panic)
  /\ (forall row0 col0,
        findRow0 img = Ok row0 -> findCol0 img row0 = Ok col0 ->
        row0 < MinY (Bounds img) + 4 \/ MaxY (Bounds img) - 5 < row0 ->
        findCols img row0 col0 = [] /\ prime img = Panic).
Proof.
  intros Hfit HmX HmY.
  assert (Herr : forall e, prime img = Err e <->
             findRow0 img = Err e
             \/ exists row0, findRow0 img = Ok row0 /\ findCol0 img row0 = Err e).
  { intros e. unfold prime.
    destruct (findRow0 img) as [row0 | e0 |] eqn:Er; cbn [bind].
    - destruct (findCol0 img row0) as [col0 | e1 |] eqn:Ec; cbn [bind].
      + cbv zeta. split.
        * intros Hp. exfalso. unfold draw, encode, index in Hp.
          repeat match type of Hp with
                 | context [match ?t with _ => _ end] =>
                     destruct t; cbn [bind] in Hp; try discriminate Hp
                 end.
        * intros [Hc | (r & [= <-] & Hc)]; congruence.
      + split.
        * intros [= <-]. right. exists row0. now split.
        * intros [Hc | (r & [= <-] & Hc)]; congruence.
      + split; [discriminate|].
        intros [Hc | (r & [= <-] & Hc)]; congruence.
    - split; [intros [= <-]; now left|].
      intros [Hc | (r & Hc & _)]; congruence.
    - split; [discriminate|]. intros [Hc | (r & Hc & _)]; congruence. }
  split; [exact Herr|]. split; [|split].
  - intros e He. apply Herr in He. destruct He as [He | (row0 & _ & He)].
    + left. now apply (findRow0_error img).
    + right. now apply (findCol0_error img row0).
  - exact (prime_no_rows_or_cols img).
  - intros row0 col0 Er Ec Hnear.
    assert (Hnil : findCols img row0 col0 = []).
    { destruct Hfit as (_ & _ & HfX & HfY).
      pose proof (findRow0_range _ _ Er) as Hrow.
      pose proof (findCol0_range _ _ _ Ec) as Hcol.
      destruct (findCols img row0 col0) as [|c cs] eqn:Ecs; [reflexivity|].
      exfalso.
      pose proof (findCols_all_delimited img row0 col0 HfX ltac:(lia)) as Hdel.
      rewrite Ecs in Hdel. apply Forall_inv in Hdel.
      destruct Hdel as ((Hm & _) & Hr).
      unfold Int64.in_range, Int64.min_int, Int64.max_int in *.
      pose proof (isCol_border img (Col.Right c) row0) as Hin.
      unfold Int64.in_range, Int64.min_int, Int64.max_int in Hin.
      specialize (Hin ltac:(lia) ltac:(lia) ltac:(lia) ltac:(lia) Hm). lia. }
    split; [exact Hnil|]. apply (prime_no_rows_or_cols img row0 col0 Er Ec).
    now right.
Qed.

Lemma prime_failures_witness :
  (forall e, prime table_img = Err e <->
             findRow0 table_img = Err e
             \/ exists row0, findRow0 table_img = Ok row0
                             /\ findCol0 table_img row0 = Err e)
  /\ (forall e, prime table_img = Err e ->
                e = ErrFirstRowNotFound \/ e = ErrFirstColNotFound)
  /\ (forall row0 col0,
        findRow0 table_img = Ok row0 -> findCol0 table_img row0 = Ok col0 ->
        findRows table_img row0 = [] \/ findCols table_img row0 col0 = [] ->
        prime table_img = Panic)
  /\ (forall row0 col0,
        findRow0 table_img = Ok row0 -> findCol0 table_img row0 = Ok col0 ->
        row0 < MinY (Bounds table_img) + 4
        \/ MaxY (Bounds table_img) - 5 < row0 ->
        findCols table_img row0 col0 = [] /\ prime table_img = Panic).
Proof.
  apply (prime_failures table_img).
  - unfold fits_int, Int64.in_range, Int64.min_int, Int64.max_int. cbn. lia.
  - unfold Int64.max_int. cbn. lia.
  - unfold Int64.max_int. cbn. lia.
Defined.

(* ================================================================== *)
(** ** Further properties of the cleaning *)

Lemma cleaned_bounds (img img' : Image) (rows : Rows) (cols : Cols) (x y : Z) :
  Bounds img' = Bounds img ->
  cleaned img' rows cols x y = cleaned img rows cols x y.
Proof. intros E. unfold cleaned. now rewrite E. Qed.

Lemma cleaned_off_lines (img : Image) (rows : Rows) (cols : Cols) (x y : Z) :
  (forall r, In r rows -> y <> Row.Top r) ->
  (forall c, In c cols -> x <> Col.Right c) ->
  cleaned img rows cols x y = false.
Proof.
  intros Hr Hc. unfold cleaned. apply orb_false_iff. split.
  - apply not_true_is_false. intros E. apply existsb_exists in E.
    destruct E as (r & Hin & E).
    apply andb_prop in E. destruct E as [E _].
    apply andb_prop in E. destruct E as [E _].
    apply Z.eqb_eq in E. now apply (Hr r Hin).
  - apply not_true_is_false. intros E. apply existsb_exists in E.
    destruct E as (c & Hin & E).
    apply andb_prop in E. destruct E as [E _].
    apply andb_prop in E. destruct E as [E _].
    apply Z.eqb_eq in E. now apply (Hc c Hin).
Qed.

(** X7. What [clean] does to an image, for any rows and columns: the bounds
    are kept; a pixel that is neither on the top line of a row nor on the
    right line of a column is kept; every other pixel is kept or becomes
    white, so that no black pixel appears; and cleaning a second time with
    the same rows and columns changes nothing. *)
Theorem clean_effect (img : Image) (rows : Rows) (cols : Cols) :
  Bounds (clean img rows cols) = Bounds img
  /\ (forall x y,
        (forall r, In r rows -> y <> Row.Top r) ->
        (forall c, In c cols -> x <> Col.Right c) ->
        At (clean img rows cols) x y = At img x y)
  /\ (forall x y,
        At (clean img rows cols) x y = white
        \/ At (clean img rows cols) x y = At img x y)
  /\ (forall x y,
        At (clean img rows cols) x y = black -> At img x y = black)
  /\ (forall x y,
        At (clean (clean img rows cols) rows cols) x y
        = At (clean img rows cols) x y).
Proof.
  destruct (clean_spec img rows cols) as [Hb Hat].
  split; [exact Hb|]. split; [|split; [|split]].
  - intros x y Hr Hc. rewrite Hat, (cleaned_off_lines img rows cols x y Hr Hc).
    now rewrite andb_false_r.
  - intros x y. rewrite Hat.
    destruct (inside (Bounds img) x y && cleaned img rows cols x y);
      [now left | now right].
  - intros x y. rewrite Hat.
    destruct (inside (Bounds img) x y && cleaned img rows cols x y);
      [discriminate | trivial].
  - intros x y.
    destruct (clean_spec (clean img rows cols) rows cols) as [_ Hat'].
    rewrite Hat', Hb, (cleaned_bounds img _ rows cols x y Hb), Hat.
    now destruct (inside (Bounds img) x y && cleaned img rows cols x y).
Qed.

(* ================================================================== *)
(** ** Further properties of [prime] *)

Lemma findRows_all_delimited (img : Image) (row0 : Z) :
  Int64.in_range (MaxY (Bounds img)) -> 0 <= row0 < MaxY (Bounds img) ->
  Forall (row_delimited img (Int64.sub (MaxX (Bounds img)) 5))
         (findRows img row0).
Proof.
  intros Hfit Hrow.
  unfold Int64.in_range, Int64.min_int, Int64.max_int in Hfit.
  unfold findRows.
  assert (E : Int64.add row0 1 = row0 + 1)
    by (unfold Int64.add; apply wrap_small; lia).
  rewrite E.
  apply findRows_loop_delimited
    with (n := Z.to_nat (MaxY (Bounds img) - (row0 + 1)));
    cbn [Row.Top]; try reflexivity; try (unfold Int64.max_int; lia).
  constructor.
Qed.

(** [prime] once the origin is found and there is a row and a column: the
    size of the crop decides between a skeleton and a panic. *)
Lemma prime_unfold (img : Image) (row0 col0 : Z) :
  fits_int (Bounds img) ->
  findRow0 img = Ok row0 -> findCol0 img row0 = Ok col0 ->
  findRows img row0 <> [] -> findCols img row0 col0 <> [] ->
  exists hiR hiC scols,
    chain row0 (map row_span (findRows img row0)) hiR
    /\ chain col0 (map col_span (findCols img row0 col0)) hiC
    /\ row0 < hiR < MaxY (Bounds img) /\ col0 < hiC < MaxX (Bounds img)
    /\ prime img
       = if (Int64.max_int <? 4 * (hiC - col0) * (hiR - row0))
            || (2 ^ 32 <=? hiC - col0) || (2 ^ 32 <=? hiR - row0)
         then Panic
         else Ok (mkSkeleton (hiC - col0) (hiR - row0)
                    (Rows.Shift (findRows img row0) (- row0)) scols).
Proof.
  intros (_ & _ & HfX & HfY) Er Ec Hrows Hcols. unfold prime.
  rewrite Er. cbn [bind]. rewrite Ec. cbn [bind]. cbv zeta.
  pose proof (findRow0_range _ _ Er) as Hrow.
  pose proof (findCol0_range _ _ _ Ec) as Hcol.
  destruct (findRows_chain img row0 HfY Hrow) as (hiR & RC & RN & RB).
  destruct (findCols_chain img row0 col0 HfX) as (hiC & CC & CN & CB & CL);
    [lia|].
  remember (findRows img row0) as rows eqn:Erows.
  remember (findCols img row0 col0) as cols eqn:Ecols.
  clear Erows Ecols Er Ec.
  destruct cols as [|c0 cs]; [congruence|].
  destruct rows as [|r0 rs]; [congruence|].
  assert (HlastC : Col.Right (last (c0 :: cs) c0) = hiC).
  { pose proof (chain_last _ _ _ (col_span c0) CC ltac:(discriminate)) as Hl.
    rewrite last_map in Hl. exact Hl. }
  assert (HlastR : Row.Bottom (last (r0 :: rs) r0) = hiR).
  { pose proof (chain_last _ _ _ (row_span r0) RC ltac:(discriminate)) as Hl.
    rewrite last_map in Hl. exact Hl. }
  assert (Hr0 : Row.Top r0 = row0 /\ row0 < hiR).
  { destruct RC as (A & B & C). apply chain_le in C. cbn in *. lia. }
  assert (Hc0 : Col.Left c0 = col0 /\ col0 < hiC).
  { destruct CC as (A & B & C). apply chain_le in C. cbn in *. lia. }
  destruct Hr0 as [Hr0 Hr0lt]. destruct Hc0 as [Hc0 Hc0lt].
  unfold Int64.in_range, Int64.min_int, Int64.max_int in *.
  assert (EW : Int64.sub hiC col0 = hiC - col0)
    by (unfold Int64.sub; apply wrap_small; lia).
  assert (EH : Int64.sub hiR row0 = hiR - row0)
    by (unfold Int64.sub; apply wrap_small; lia).
  assert (Eoff : Int64.neg row0 = - row0)
    by (unfold Int64.neg; apply wrap_small; lia).
  eexists hiR, hiC, _.
  split; [exact RC|]. split; [exact CC|]. split; [lia|]. split; [lia|].
  unfold draw, Int64.max_int.
  rewrite !index_head. cbn [bind].
  rewrite (index_last (c0 :: cs) c0), (index_last (r0 :: rs) r0)
    by discriminate.
  cbn [bind]. rewrite HlastC, HlastR, Hr0, Hc0. unfold image_Rect.
  replace (hiC <? col0) with false by lia.
  replace (hiR <? row0) with false by lia.
  unfold Dx, Dy, encode. cbn [MinX MinY MaxX MaxY].
  unfold Dx, Dy. cbn [MinX MinY MaxX MaxY].
  rewrite !EW, !EH.
  replace (hiC - col0 <? 0) with false by lia.
  replace (hiR - row0 <? 0) with false by lia.
  cbn [orb].
  destruct (2 ^ 63 - 1 <? 4 * (hiC - col0) * (hiR - row0)) eqn:Earea;
    cbn [bind orb]; [reflexivity|].
  cbn [MinX MinY MaxX MaxY]. rewrite !EW, !EH.
  replace (hiC - col0 <=? 0) with false by lia.
  replace (hiR - row0 <=? 0) with false by lia.
  cbn [orb].
  destruct ((2 ^ 32 <=? hiC - col0) || (2 ^ 32 <=? hiR - row0)) eqn:Ebig;
    cbn [bind]; [reflexivity|].
  rewrite Eoff.
  match goal with
  | |- context [index (update ?l 0 ?f) ?i] =>
      assert (Hne : update l 0 f <> []) by (cbn; discriminate);
      replace i with (Z.of_nat (List.length (update l 0 f)) - 1)
        by (cbn; rewrite ?length_map; reflexivity);
      rewrite (index_last (update l 0 f) c0 Hne)
  end.
  cbn [bind]. reflexivity.
Qed.

Lemma findRow0_no_panic (img : Image) : findRow0 img <> Panic.
Proof.
  destruct (first_in_range (fun y => negb (NRGBA_eqb (At img 0 y) white))
              ErrFirstRowNotFound (findRow0_loop img) eq_refl
              (fun y ys => eq_refl) (MaxY (Bounds img)) _ 0 eq_refl)
    as (_ & _ & H & _).
  exact H.
Qed.

Lemma findCol0_no_panic (img : Image) (row0 : Z) : findCol0 img row0 <> Panic.
Proof.
  destruct (first_in_range (fun x => NRGBA_eqb (At img x row0) black)
              ErrFirstColNotFound (findCol0_loop img row0) eq_refl
              (fun y ys => eq_refl) (MaxX (Bounds img)) _ 3 eq_refl)
    as (_ & _ & H & _).
  exact H.
Qed.

Lemma prime_origin (img : Image) (sk : Skeleton) :
  prime img = Ok sk ->
  exists row0 col0,
    findRow0 img = Ok row0 /\ findCol0 img row0 = Ok col0
    /\ findRows img row0 <> [] /\ findCols img row0 col0 <> [].
Proof.
  intros Hp.
  destruct (findRow0 img) as [row0 | e |] eqn:Er;
    [| unfold prime in Hp; rewrite Er in Hp; discriminate Hp
     | unfold prime in Hp; rewrite Er in Hp; discriminate Hp].
  destruct (findCol0 img row0) as [col0 | e |] eqn:Ec;
    [| unfold prime in Hp; rewrite Er in Hp; cbn [bind] in Hp;
       rewrite Ec in Hp; discriminate Hp
     | unfold prime in Hp; rewrite Er in Hp; cbn [bind] in Hp;
       rewrite Ec in Hp; discriminate Hp].
  exists row0, col0. split; [first [exact Er | reflexivity]|].
  split; [first [exact Ec | reflexivity]|].
  split; intros Hnil;
    rewrite (prime_no_rows_or_cols img row0 col0 Er Ec) in Hp;
    try discriminate Hp; [now left | now right].
Qed.

Lemma Rows_Shift_exact (rs : Rows) (off lo hi : Z) :
  Forall (fun r => lo <= Row.Top r /\ Row.Bottom r <= hi) rs ->
  Forall (fun r => Row.Top r <= Row.Bottom r) rs ->
  Int64.min_int <= lo + off -> hi + off <= Int64.max_int ->
  Rows.Shift rs off
  = map (fun r => Row.mk (Row.Num r) (Row.Top r + off) (Row.Bottom r + off)) rs.
Proof.
  unfold Int64.min_int, Int64.max_int. intros Hall Hord Hlo Hhi.
  unfold Rows.Shift. apply map_ext_in. intros r Hin.
  rewrite Forall_forall in Hall, Hord.
  specialize (Hall r Hin). specialize (Hord r Hin).
  unfold Int64.add. rewrite !wrap_small by lia. reflexivity.
Qed.

(** X8. The crop of a primed image. When [prime] returns a skeleton the
    origin [(col0, row0)] of the table was found and is a black pixel; the
    rows of the skeleton are the detected rows moved by [- row0]; the crop,
    of the size the skeleton records, lies inside the image; its right edge
    is a marker of the first row; and every row of the skeleton ends on a
    black pixel of the sample column with no black pixel of that column
    strictly inside it. *)
Theorem prime_crop (img : Image) (sk : Skeleton) :
  fits_int (Bounds img) -> prime img = Ok sk ->
  exists row0 col0,
    findRow0 img = Ok row0 /\ findCol0 img row0 = Ok col0
    /\ At img col0 row0 = black
    /\ SRows sk
       = map (fun r => Row.mk (Row.Num r) (Row.Top r - row0)
                         (Row.Bottom r - row0))
             (findRows img row0)
    /\ 0 <= row0 /\ row0 + H sk < MaxY (Bounds img)
    /\ 3 <= col0 /\ col0 + W sk < MaxX (Bounds img)
    /\ isCol img (col0 + W sk) row0 = true
    /\ (forall r, In r (SRows sk) ->
          At img (MaxX (Bounds img) - 5) (row0 + Row.Bottom r) = black
          /\ forall y, Row.Top r < y < Row.Bottom r ->
                       At img (MaxX (Bounds img) - 5) (row0 + y) <> black).
Proof.
  intros Hfit Hp.
  destruct (prime_origin img sk Hp) as (row0 & col0 & Er & Ec & Hrows & Hcols).
  destruct (prime_unfold img row0 col0 Hfit Er Ec Hrows Hcols)
    as (hiR & hiC & scols & RC & CC & HR & HC & Eprime).
  rewrite Hp in Eprime.
  match type of Eprime with
  | _ = (if ?c then _ else _) => destruct c; [discriminate Eprime|]
  end.
  injection Eprime as ->. cbn [SRows SCols W H].
  destruct Hfit as (_ & _ & HfX & HfY).
  pose proof (findRow0_range _ _ Er) as Hrow.
  pose proof (findCol0_range _ _ _ Ec) as Hcol.
  pose proof (findRows_all_delimited img row0 HfY Hrow) as Hdel.
  pose proof (findCols_all_delimited img row0 col0 HfX ltac:(lia)) as Hcdel.
  assert (Hx5 : Int64.sub (MaxX (Bounds img)) 5 = MaxX (Bounds img) - 5).
  { unfold Int64.in_range, Int64.min_int, Int64.max_int in HfX.
    unfold Int64.sub. apply wrap_small. lia. }
  rewrite Hx5 in Hdel.
  assert (Hbounds : Forall (fun r => row0 <= Row.Top r /\ Row.Bottom r <= hiR)
                      (findRows img row0)
                    /\ Forall (fun r => Row.Top r <= Row.Bottom r)
                         (findRows img row0)).
  { split; apply Forall_forall; intros r Hin;
      apply In_nth_error in Hin; destruct Hin as (i & Hi);
      apply nth_error_row_span in Hi;
      destruct (chain_nth _ _ _ _ _ RC Hi) as (D & F & G & _);
      unfold span_lo, span_hi, row_span in D, F, G;
      cbn [fst snd] in D, F, G; lia. }
  destruct Hbounds as [Hb1 Hb2].
  assert (Eshift : Rows.Shift (findRows img row0) (- row0)
                   = map (fun r => Row.mk (Row.Num r) (Row.Top r - row0)
                                     (Row.Bottom r - row0))
                         (findRows img row0)).
  { rewrite (Rows_Shift_exact _ (- row0) row0 hiR Hb1 Hb2).
    - apply map_ext. intros r. f_equal; lia.
    - unfold Int64.min_int. lia.
    - unfold Int64.in_range, Int64.max_int in *. lia. }
  exists row0, col0. split; [first [exact Er | reflexivity]|].
  split; [first [exact Ec | reflexivity]|].
  split.
  { destruct (first_in_range (fun x => NRGBA_eqb (At img x row0) black)
                ErrFirstColNotFound (findCol0_loop img row0) eq_refl
                (fun y ys => eq_refl) (MaxX (Bounds img)) _ 3 eq_refl)
      as (Hok & _).
    apply Hok in Ec. destruct Ec as (_ & Hb & _). now apply NRGBA_eqb_eq. }
  split; [exact Eshift|].
  split; [lia|]. split; [lia|]. split; [lia|]. split; [lia|].
  split.
  - replace (col0 + (hiC - col0)) with hiC by lia.
    destruct (findCols img row0 col0) as [|c0 cs] eqn:Ecs; [congruence|].
    pose proof (chain_last _ _ _ (col_span c0) CC ltac:(discriminate)) as Hl.
    rewrite last_map in Hl. unfold span_hi, col_span in Hl. cbn [snd] in Hl.
    rewrite Forall_forall in Hcdel.
    destruct (Hcdel (last (c0 :: cs) c0)) as ((Hm & _) & _).
    + apply (@exists_last _ (c0 :: cs)) in Hcols.
      destruct Hcols as (front & cl & Efront). rewrite Efront.
      rewrite last_last. apply in_or_app. right. now left.
    + now rewrite Hl in Hm.
  - intros r Hin. rewrite Eshift in Hin. apply in_map_iff in Hin.
    destruct Hin as (r' & <- & Hin'). cbn [Row.Top Row.Bottom].
    rewrite Forall_forall in Hdel. destruct (Hdel r' Hin') as (A & B & _).
    split.
    + replace (row0 + (Row.Bottom r' - row0)) with (Row.Bottom r') by lia.
      exact A.
    + intros y Hy. apply B. lia.
Qed.

Lemma prime_crop_witness :
  exists row0 col0,
    findRow0 table_img = Ok row0 /\ findCol0 table_img row0 = Ok col0
    /\ At table_img col0 row0 = black
    /\ SRows table_skeleton
       = map (fun r => Row.mk (Row.Num r) (Row.Top r - row0)
                         (Row.Bottom r - row0))
             (findRows table_img row0)
    /\ 0 <= row0 /\ row0 + H table_skeleton < MaxY (Bounds table_img)
    /\ 3 <= col0 /\ col0 + W table_skeleton < MaxX (Bounds table_img)
    /\ isCol table_img (col0 + W table_skeleton) row0 = true
    /\ (forall r, In r (SRows table_skeleton) ->
          At table_img (MaxX (Bounds table_img) - 5) (row0 + Row.Bottom r)
          = black
          /\ forall y, Row.Top r < y < Row.Bottom r ->
                       At table_img (MaxX (Bounds table_img) - 5) (row0 + y)
                       <> black).
Proof.
  apply (prime_crop table_img table_skeleton).
  - unfold fits_int, Int64.in_range, Int64.min_int, Int64.max_int. cbn. lia.
  - vm_compute. reflexivity.
Defined.

(** X9. When [prime] succeeds. On an image of at most [2 ^ 30] pixels in
    each direction, [prime] returns a skeleton exactly when the origin of
    the table is found and at least one row and one column are detected,
    and it panics exactly when the origin is found and no row or no column
    is detected. *)
Theorem prime_succeeds (img : Image) :
  fits_int (Bounds img) ->
  MaxX (Bounds img) <= 2 ^ 30 -> MaxY (Bounds img) <= 2 ^ 30 ->
  ((exists sk, prime img = Ok sk) <->
   exists row0 col0,
     findRow0 img = Ok row0 /\ findCol0 img row0 = Ok col0
     /\ findRows img row0 <> [] /\ findCols img row0 col0 <> [])
  /\ (prime img = Panic <->
      exists row0 col0,
        findRow0 img = Ok row0 /\ findCol0 img row0 = Ok col0
        /\ (findRows img row0 = [] \/ findCols img row0 col0 = [])).
Proof.
  intros Hfit HX HY.
  assert (Hok : forall row0 col0,
             findRow0 img = Ok row0 -> findCol0 img row0 = Ok col0 ->
             findRows img row0 <> [] -> findCols img row0 col0 <> [] ->
             exists sk, prime img = Ok sk).
  { intros row0 col0 Er Ec Hrows Hcols.
    destruct (prime_unfold img row0 col0 Hfit Er Ec Hrows Hcols)
      as (hiR & hiC & scols & _ & _ & HR & HC & Eprime).
    pose proof (findRow0_range _ _ Er) as Hrow.
    pose proof (findCol0_range _ _ _ Ec) as Hcol.
    assert (Hw : 0 < hiC - col0 < 2 ^ 30) by lia.
    assert (Hh : 0 < hiR - row0 < 2 ^ 30) by lia.
    assert (Harea : 4 * (hiC - col0) * (hiR - row0) < 2 ^ 62) by nia.
    unfold Int64.max_int in Eprime.
    replace (2 ^ 63 - 1 <? 4 * (hiC - col0) * (hiR - row0)) with false
      in Eprime by lia.
    replace (2 ^ 32 <=? hiC - col0) with false in Eprime by lia.
    replace (2 ^ 32 <=? hiR - row0) with false in Eprime by lia.
    cbn [orb] in Eprime. eauto. }
  split.
  - split.
    + intros (sk & Hp). exact (prime_origin img sk Hp).
    + intros (row0 & col0 & Er & Ec & Hrows & Hcols). now apply (Hok row0 col0).
  - split.
    + intros Hp.
      assert (Hr : (exists row0, findRow0 img = Ok row0)
                   \/ exists e, findRow0 img = Err e).
      { destruct (findRow0 img) eqn:E; [eauto | eauto |].
        exfalso. revert E. apply findRow0_no_panic. }
      destruct Hr as [(row0 & Er) | (e & Er)];
        [| unfold prime in Hp; rewrite Er in Hp; discriminate Hp].
      assert (Hc : (exists col0, findCol0 img row0 = Ok col0)
                   \/ exists e, findCol0 img row0 = Err e).
      { destruct (findCol0 img row0) eqn:E; [eauto | eauto |].
        exfalso. revert E. apply findCol0_no_panic. }
      destruct Hc as [(col0 & Ec) | (e & Ec)];
        [| unfold prime in Hp; rewrite Er in Hp; cbn [bind] in Hp;
           rewrite Ec in Hp; discriminate Hp].
      exists row0, col0. split; [exact Er|]. split; [exact Ec|].
      assert (Hrs : findRows img row0 = [] \/ findRows img row0 <> [])
        by (destruct (findRows img row0); [now left | right; discriminate]).
      assert (Hcs : findCols img row0 col0 = []
                    \/ findCols img row0 col0 <> [])
        by (destruct (findCols img row0 col0);
            [now left | right; discriminate]).
      destruct Hrs as [Hrs | Hrs]; [now left|].
      destruct Hcs as [Hcs | Hcs]; [now right|].
      exfalso. destruct (Hok row0 col0 Er Ec Hrs Hcs) as (sk & Hsk).
      rewrite Hp in Hsk. discriminate Hsk.
    + intros (row0 & col0 & Er & Ec & Hempty).
      exact (prime_no_rows_or_cols img row0 col0 Er Ec Hempty).
Qed.

Lemma prime_succeeds_witness :
  ((exists sk, prime table_img = Ok sk) <->
   exists row0 col0,
     findRow0 table_img = Ok row0 /\ findCol0 table_img row0 = Ok col0
     /\ findRows table_img row0 <> [] /\ findCols table_img row0 col0 <> [])
  /\ (prime table_img = Panic <->
      exists row0 col0,
        findRow0 table_img = Ok row0 /\ findCol0 table_img row0 = Ok col0
        /\ (findRows table_img row0 = []
            \/ findCols table_img row0 col0 = [])).
Proof.
  apply (prime_succeeds table_img).
  - unfold fits_int, Int64.in_range, Int64.min_int, Int64.max_int. cbn. lia.
  - cbn. lia.
  - cbn. lia.
Defined.

(* ================================================================== *)
(** ** Further properties of the lookup and of the shift *)

Lemma find_span_no_panic (l : list span) (z : Z) : find_span l z <> Panic.
Proof.
  destruct (find_span_total l z) as [(n & E) | E]; rewrite E; discriminate.
Qed.

Lemma find_span_error (l : list span) (z : Z) (e : error) :
  find_span l z = Err e -> e = ErrNotFound.
Proof.
  destruct (find_span_total l z) as [(n & E) | E]; rewrite E;
    [discriminate | now intros [= <-]].
Qed.

Lemma find_span_first_of {A : Type} (f : A -> span) (l : list A) (z n : Z) :
  find_span (map f l) z = Ok n <->
  exists i a,
    nth_error l i = Some a /\ span_num (f a) = n /\ span_contains (f a) z
    /\ forall j a', (j < i)%nat -> nth_error l j = Some a' ->
                    ~ span_contains (f a') z.
Proof.
  rewrite find_span_first. split.
  - intros (i & s & Hi & Hn & Hc & Hbefore).
    rewrite nth_error_map in Hi.
    destruct (nth_error l i) as [a|] eqn:Ea; [|discriminate Hi].
    injection Hi as <-. exists i, a. split; [exact Ea|].
    split; [exact Hn|]. split; [exact Hc|].
    intros j a' Hj Ha'. apply (Hbefore j (f a') Hj).
    rewrite nth_error_map, Ha'. reflexivity.
  - intros (i & a & Hi & Hn & Hc & Hbefore).
    exists i, (f a). split; [rewrite nth_error_map, Hi; reflexivity|].
    split; [exact Hn|]. split; [exact Hc|].
    intros j sj Hj Hsj. rewrite nth_error_map in Hsj.
    destruct (nth_error l j) as [a'|] eqn:Ea'; [|discriminate Hsj].
    injection Hsj as <-. now apply (Hbefore j a' Hj).
Qed.

Lemma find_span_none_of {A : Type} (f : A -> span) (l : list A) (z : Z) :
  find_span (map f l) z = Err ErrNotFound <->
  forall a, In a l -> ~ span_contains (f a) z.
Proof.
  rewrite find_span_none. split.
  - intros Hall a Hin. apply Hall. now apply in_map.
  - intros Hall s Hin. apply in_map_iff in Hin.
    destruct Hin as (a & <- & Hin). now apply Hall.
Qed.

(** X10. The two lookups on any sequence, whatever its order and its
    numbers: [Find] returns the number stored in the first element whose
    inclusive range holds the coordinate; it fails with [ErrNotFound]
    exactly when no element holds it; it returns no other error and never
    panics. *)
Theorem Find_first_containing (rs : Rows) (cs : Cols) (z : Z) :
  (forall n,
      Rows.Find rs z = Ok n <->
      exists i r,
        nth_error rs i = Some r /\ Row.Num r = n /\ row_contains r z
        /\ forall j r', (j < i)%nat -> nth_error rs j = Some r' ->
                        ~ row_contains r' z)
  /\ (Rows.Find rs z = Err ErrNotFound <->
      forall r, In r rs -> ~ row_contains r z)
  /\ Rows.Find rs z <> Panic
  /\ (forall e, Rows.Find rs z = Err e -> e = ErrNotFound)
  /\ (forall n,
        Cols.Find cs z = Ok n <->
        exists i c,
          nth_error cs i = Some c /\ Col.Num c = n /\ col_contains c z
          /\ forall j c', (j < i)%nat -> nth_error cs j = Some c' ->
                          ~ col_contains c' z)
  /\ (Cols.Find cs z = Err ErrNotFound <->
      forall c, In c cs -> ~ col_contains c z)
  /\ Cols.Find cs z <> Panic
  /\ (forall e, Cols.Find cs z = Err e -> e = ErrNotFound).
Proof.
  rewrite Rows_Find_span, Cols_Find_span.
  split; [|split; [|split; [|split; [|split; [|split; [|split]]]]]].
  - intros n. apply (find_span_first_of row_span).
  - apply (find_span_none_of row_span).
  - apply find_span_no_panic.
  - apply find_span_error.
  - intros n. apply (find_span_first_of col_span).
  - apply (find_span_none_of col_span).
  - apply find_span_no_panic.
  - apply find_span_error.
Qed.

Lemma find_span_shift {A : Type} (f g : A -> span) (l : list A) (k z : Z) :
  (forall a, In a l ->
     span_num (g a) = span_num (f a)
     /\ span_lo (g a) = span_lo (f a) + k
     /\ span_hi (g a) = span_hi (f a) + k) ->
  find_span (map g l) (z + k) = find_span (map f l) z.
Proof.
  induction l as [|a l IH]; intros Hall; [reflexivity|]. cbn [map find_span].
  destruct (Hall a (or_introl eq_refl)) as (En & El & Eh).
  rewrite En, El, Eh.
  replace (span_lo (f a) + k <=? z + k) with (span_lo (f a) <=? z) by lia.
  replace (z + k <=? span_hi (f a) + k) with (z <=? span_hi (f a)) by lia.
  destruct ((span_lo (f a) <=? z) && (z <=? span_hi (f a))); [reflexivity|].
  apply IH. intros a' Hin. apply Hall. now right.
Qed.

Lemma shift_back (x k : Z) :
  Int64.in_range x -> Int64.add (Int64.add x k) (Int64.neg k) = x.
Proof.
  unfold Int64.in_range, Int64.min_int, Int64.max_int. intros Hx.
  unfold Int64.add, Int64.neg. rewrite wrap_add_l, wrap_add_r.
  replace (x + k + - k) with x by lia. apply wrap_small. lia.
Qed.

(** X11. Shifting rows (and columns alike) keeps their count and their
    numbers. On rows whose ends are Go [int]s a shift by [k] followed by a
    shift by [-k] gives the rows back, even when an addition wraps around.
    When the shift does not wrap around, looking up [y + k] in the shifted
    rows gives what looking up [y] in the rows gives. *)
Theorem Shift_laws (rs : Rows) (cs : Cols) (k : Z) :
  Forall (fun r => Int64.in_range (Row.Top r)
                   /\ Int64.in_range (Row.Bottom r)) rs ->
  Forall (fun c => Int64.in_range (Col.Left c)
                   /\ Int64.in_range (Col.Right c)) cs ->
  List.length (Rows.Shift rs k) = List.length rs
  /\ map Row.Num (Rows.Shift rs k) = map Row.Num rs
  /\ Rows.Shift (Rows.Shift rs k) (Int64.neg k) = rs
  /\ (Forall (fun r => Int64.in_range (Row.Top r + k)
                       /\ Int64.in_range (Row.Bottom r + k)) rs ->
      forall y, Rows.Find (Rows.Shift rs k) (y + k) = Rows.Find rs y)
  /\ List.length (Cols.Shift cs k) = List.length cs
  /\ map Col.Num (Cols.Shift cs k) = map Col.Num cs
  /\ Cols.Shift (Cols.Shift cs k) (Int64.neg k) = cs
  /\ (Forall (fun c => Int64.in_range (Col.Left c + k)
                       /\ Int64.in_range (Col.Right c + k)) cs ->
      forall x, Cols.Find (Cols.Shift cs k) (x + k) = Cols.Find cs x).
Proof.
  intros Hrs Hcs. rewrite Forall_forall in Hrs, Hcs.
  split; [|split; [|split; [|split; [|split; [|split; [|split]]]]]].
  - unfold Rows.Shift. apply length_map.
  - unfold Rows.Shift. rewrite map_map. reflexivity.
  - unfold Rows.Shift. rewrite map_map. rewrite <- (map_id rs) at 2.
    apply map_ext_in. intros [n t b] Hin. destruct (Hrs _ Hin) as [Ht Hb].
    cbn [Row.Num Row.Top Row.Bottom] in *. now rewrite !shift_back.
  - intros Hno y. rewrite Forall_forall in Hno.
    rewrite !Rows_Find_span. unfold Rows.Shift. rewrite map_map.
    apply find_span_shift. intros r Hin. destruct (Hno r Hin) as [Ht Hb].
    unfold Int64.in_range, Int64.min_int, Int64.max_int in Ht, Hb.
    unfold row_span, span_num, span_lo, span_hi, Int64.add.
    cbn [fst snd Row.Num Row.Top Row.Bottom].
    rewrite !wrap_small by lia. auto.
  - unfold Cols.Shift. apply length_map.
  - unfold Cols.Shift. rewrite map_map. reflexivity.
  - unfold Cols.Shift. rewrite map_map. rewrite <- (map_id cs) at 2.
    apply map_ext_in. intros [n l r] Hin. destruct (Hcs _ Hin) as [Hl Hr].
    cbn [Col.Num Col.Left Col.Right] in *. now rewrite !shift_back.
  - intros Hno x. rewrite Forall_forall in Hno.
    rewrite !Cols_Find_span. unfold Cols.Shift. rewrite map_map.
    apply find_span_shift. intros c Hin. destruct (Hno c Hin) as [Hl Hr].
    unfold Int64.in_range, Int64.min_int, Int64.max_int in Hl, Hr.
    unfold col_span, span_num, span_lo, span_hi, Int64.add.
    cbn [fst snd Col.Num Col.Left Col.Right].
    rewrite !wrap_small by lia. auto.
Qed.

Lemma Shift_laws_witness :
  List.length (Rows.Shift one_row (-5)) = List.length one_row
  /\ map Row.Num (Rows.Shift one_row (-5)) = map Row.Num one_row
  /\ Rows.Shift (Rows.Shift one_row (-5)) (Int64.neg (-5)) = one_row
  /\ (Forall (fun r => Int64.in_range (Row.Top r + -5)
                       /\ Int64.in_range (Row.Bottom r + -5)) one_row ->
      forall y, Rows.Find (Rows.Shift one_row (-5)) (y + -5)
                = Rows.Find one_row y)
  /\ List.length (Cols.Shift one_col (-5)) = List.length one_col
  /\ map Col.Num (Cols.Shift one_col (-5)) = map Col.Num one_col
  /\ Cols.Shift (Cols.Shift one_col (-5)) (Int64.neg (-5)) = one_col
  /\ (Forall (fun c => Int64.in_range (Col.Left c + -5)
                       /\ Int64.in_range (Col.Right c + -5)) one_col ->
      forall x, Cols.Find (Cols.Shift one_col (-5)) (x + -5)
                = Cols.Find one_col x).
Proof.
  apply (Shift_laws one_row one_col (-5)).
  - repeat constructor; cbn; unfold Int64.min_int, Int64.max_int; lia.
  - repeat constructor; cbn; unfold Int64.min_int, Int64.max_int; lia.
Defined.

(** X12. [Split] cuts a column in two halves that share their inner end:
    the first keeps the left end and the number of the column, the second
    keeps its right end and takes the next number; the first half is as
    wide as the second or one pixel wider. *)
Theorem Split_halves (c : Col) :
  Int64.in_range (Col.Left c) -> Int64.in_range (Col.Right c) ->
  Col.Left c <= Col.Right c ->
  Int64.in_range (Col.Right c - Col.Left c) ->
  Col.Num c < Int64.max_int -> Int64.min_int <= Col.Num c ->
  exists c1 c2,
    Split c = [c1; c2]
    /\ Col.Num c1 = Col.Num c /\ Col.Num c2 = Col.Num c + 1
    /\ Col.Left c1 = Col.Left c /\ Col.Right c1 = Col.Left c2
    /\ Col.Right c2 = Col.Right c
    /\ Col.Left c <= Col.Right c1 <= Col.Right c
    /\ (Col.Right c2 - Col.Left c2 <= Col.Right c1 - Col.Left c1
        <= Col.Right c2 - Col.Left c2 + 1).
Proof.
  unfold Int64.in_range, Int64.min_int, Int64.max_int.
  intros Hl Hr Hle Hsz Hn Hn'. destruct c as [n l r].
  cbn [Col.Num Col.Left Col.Right] in *.
  unfold Split. cbn [Col.Num Col.Left Col.Right].
  assert (Esz : Int64.sub r l = r - l)
    by (unfold Int64.sub; apply wrap_small; lia).
  rewrite Esz.
  assert (Eq : Int64.quot (r - l) 2 = (r - l) / 2).
  { unfold Int64.quot. rewrite Z.quot_div_nonneg by lia.
    apply wrap_small. zlia. }
  rewrite Eq.
  assert (Em : Int64.sub r ((r - l) / 2) = r - (r - l) / 2).
  { unfold Int64.sub. apply wrap_small. zlia. }
  rewrite Em.
  assert (En : Int64.add n 1 = n + 1)
    by (unfold Int64.add; apply wrap_small; lia).
  rewrite En.
  eexists _, _. split; [reflexivity|]. cbn [Col.Num Col.Left Col.Right].
  split; [reflexivity|]. split; [reflexivity|]. split; [reflexivity|].
  split; [reflexivity|]. split; [reflexivity|]. split; zlia.
Qed.

Lemma Split_halves_witness :
  exists c1 c2,
    Split (Col.mk 2 20 27) = [c1; c2]
    /\ Col.Num c1 = Col.Num (Col.mk 2 20 27)
    /\ Col.Num c2 = Col.Num (Col.mk 2 20 27) + 1
    /\ Col.Left c1 = Col.Left (Col.mk 2 20 27) /\ Col.Right c1 = Col.Left c2
    /\ Col.Right c2 = Col.Right (Col.mk 2 20 27)
    /\ Col.Left (Col.mk 2 20 27) <= Col.Right c1 <= Col.Right (Col.mk 2 20 27)
    /\ (Col.Right c2 - Col.Left c2 <= Col.Right c1 - Col.Left c1
        <= Col.Right c2 - Col.Left c2 + 1).
Proof.
  apply (Split_halves (Col.mk 2 20 27));
    unfold Int64.in_range, Int64.min_int, Int64.max_int; cbn; lia.
Defined.

(* ================================================================== *)
(** ** Further properties of the scan *)

Lemma update_length {A : Type} (l : list A) (f : A -> A) :
  forall i, List.length (update l i f) = List.length l.
Proof.
  induction l as [|a l IH]; intros [|i]; cbn; try reflexivity.
  now rewrite IH.
Qed.



Lemma index_Ok {A : Type} (l : list A) (i : Z) (a : A) :
  index l i = Ok a <-> 0 <= i /\ nth_error l (Z.to_nat i) = Some a.
Proof.
  unfold index. destruct (Z.ltb_spec i 0) as [Hi | Hi].
  - split; [discriminate | lia].
  - destruct (nth_error l (Z.to_nat i)) as [b|]; split.
    + intros [= ->]. now split.
    + intros [_ [= ->]]. reflexivity.
    + discriminate.
    + intros [_ E]. discriminate E.
Qed.

Lemma index_no_error {A : Type} (l : list A) (i : Z) (e : error) :
  index l i <> Err e.
Proof.
  unfold index. destruct (i <? 0); [discriminate|].
  destruct (nth_error l (Z.to_nat i)); discriminate.
Qed.

(** [scan_step] by the cell of the detection. *)
Lemma scan_step_cell (sk : Skeleton) (entries : list Entry) (d : TextDetection) :
  scan_step sk entries d
  = match cell_of sk d with
    | None => Ok entries
    | Some (c, r) =>
        e <- index entries r ;;
        if c =? DateHeader then
          dt <- parseDate (DetectedText d) ;;
          Ok (update entries (Z.to_nat r) (fun e =>
                mkEntry dt (activity e) (in_ e) (out e)))
        else if c =? ActivityHeader then
          Ok (update entries (Z.to_nat r) (fun e =>
                mkEntry (date e) (activity e ++ DetectedText d) (in_ e) (out e)))
        else if c =? InHeader then
          t <- parseTime (Format (date e) dateFormat) (DetectedText d) ;;
          Ok (update entries (Z.to_nat r) (fun e =>
                mkEntry (date e) (activity e) (Some t) (out e)))
        else if c =? OutHeader then
          t <- parseTime (Format (date e) dateFormat) (DetectedText d) ;;
          Ok (update entries (Z.to_nat r) (fun e =>
                mkEntry (date e) (activity e) (in_ e) (Some t)))
        else Ok entries
    end.
Proof.
  unfold scan_step, cell_of. destruct (Type_ d) as [ty|]; [|reflexivity].
  destruct (String.eqb ty "WORD"); cbn [negb]; [|reflexivity].
  destruct (center (Geometry d) sk) as [cx cy]. cbn [fst snd].
  pose proof (find_span_no_panic (map col_span (SCols sk)) cx) as Hc.
  pose proof (find_span_no_panic (map row_span (SRows sk)) cy) as Hr.
  rewrite <- Cols_Find_span in Hc. rewrite <- Rows_Find_span in Hr.
  destruct (Cols.Find (SCols sk) cx) as [c | e |]; [| reflexivity | congruence].
  destruct (Rows.Find (SRows sk) cy) as [r | e |];
    [reflexivity | reflexivity | congruence].
Qed.

Lemma parseDate_no_panic (s : string) : parseDate s <> Panic.
Proof.
  assert (H10 : forall s, parseDate10 s <> Panic).
  { intros s'. unfold parseDate10.
    destruct (Parse dateFormat _); discriminate. }
  destruct (Nat.eq_dec (String.length s) 10) as [E10 | N10].
  { rewrite parseDate_length_10 by exact E10. apply H10. }
  destruct (Nat.eq_dec (String.length s) 11) as [E11 | N11].
  { rewrite parseDate_length_11 by exact E11. cbv zeta.
    destruct (String.length _ =? 10)%nat; [apply H10 | discriminate]. }
  unfold parseDate, parseDate_rec.
  destruct (String.length s) as [|[|[|[|[|[|[|[|[|[|[|[|n]]]]]]]]]]]];
    try discriminate; try congruence.
  destruct (Parse dateFormat _); discriminate.
Qed.

Lemma parseDate_error (s : string) (e : error) :
  parseDate s = Err e -> is_parse_error e.
Proof.
  assert (H10 : forall s, parseDate10 s = Err e -> is_parse_error e).
  { intros s'. unfold parseDate10.
    destruct (Parse dateFormat _) as [pe|]; [|discriminate].
    intros [= <-]. right. left. eauto. }
  destruct (Nat.eq_dec (String.length s) 10) as [E10 | N10].
  { rewrite parseDate_length_10 by exact E10. apply H10. }
  destruct (Nat.eq_dec (String.length s) 11) as [E11 | N11].
  { rewrite parseDate_length_11 by exact E11. cbv zeta.
    destruct (String.length _ =? 10)%nat; [apply H10|].
    intros [= <-]. left. eauto. }
  unfold parseDate, parseDate_rec.
  destruct (String.length s) as [|[|[|[|[|[|[|[|[|[|[|[|n]]]]]]]]]]]];
    try congruence;
    try (intros [= <-]; left; eauto).
  destruct (Parse dateFormat _) as [pe|]; [|discriminate].
  intros [= <-]. right. left. eauto.
Qed.

Lemma parseTime_outcome (sdate stime : string) :
  parseTime sdate stime <> Panic
  /\ forall e, parseTime sdate stime = Err e -> is_parse_error e.
Proof.
  unfold parseTime. destruct (Parse timeFormat _); [|split; discriminate].
  destruct (Parse timeFormat2 _) as [pe|]; [|split; discriminate].
  split; [discriminate|]. intros e [= <-]. right. right. eauto.
Qed.


Lemma scan_step_length (sk : Skeleton) (es es' : list Entry) (d : TextDetection) :
  scan_step sk es d = Ok es' -> List.length es' = List.length es.
Proof.
  rewrite scan_step_cell. destruct (cell_of sk d) as [[c r]|];
    [|now intros [= <-]].
  destruct (index es r); cbn [bind]; try discriminate.
  destruct (c =? DateHeader).
  { destruct (parseDate _); cbn [bind]; try discriminate.
    intros [= <-]. apply update_length. }
  destruct (c =? ActivityHeader); [intros [= <-]; apply update_length|].
  destruct (c =? InHeader).
  { destruct (parseTime _ _); cbn [bind]; try discriminate.
    intros [= <-]. apply update_length. }
  destruct (c =? OutHeader).
  { destruct (parseTime _ _); cbn [bind]; try discriminate.
    intros [= <-]. apply update_length. }
  now intros [= <-].
Qed.

Lemma scan_loop_length (sk : Skeleton) (dts : list TextDetection) :
  forall es es', scan_loop sk dts es = Ok es' ->
                 List.length es' = List.length es.
Proof.
  induction dts as [|d dts IH]; intros es es'; cbn [scan_loop].
  - now intros [= <-].
  - destruct (scan_step sk es d) as [es1 | |] eqn:E1; cbn [bind];
      try discriminate.
    intros H. rewrite (IH _ _ H). now apply scan_step_length in E1.
Qed.



Lemma cell_of_row (sk : Skeleton) (d : TextDetection) (c r : Z) :
  cell_of sk d = Some (c, r) -> exists row, In row (SRows sk) /\ Row.Num row = r.
Proof.
  unfold cell_of. destruct (Type_ d) as [ty|]; [|discriminate].
  destruct (String.eqb ty "WORD"); [|discriminate].
  destruct (Cols.Find _ _) as [c' | |]; try discriminate.
  destruct (Rows.Find _ _) as [r' | |] eqn:Er; try discriminate.
  intros [= -> ->]. rewrite Rows_Find_span in Er.
  apply (find_span_first_of row_span) in Er.
  destruct Er as (i & row & Hi & Hn & _). exists row. split; [|exact Hn].
  now apply nth_error_In with i.
Qed.

(** A step of the scan on entries that every row number indexes. *)
Lemma scan_step_outcome (sk : Skeleton) (es : list Entry) (d : TextDetection) :
  (forall row, In row (SRows sk) ->
               0 <= Row.Num row < Z.of_nat (List.length es)) ->
  scan_step sk es d <> Panic
  /\ forall e, scan_step sk es d = Err e -> is_parse_error e.
Proof.
  intros Hnum. rewrite scan_step_cell.
  destruct (cell_of sk d) as [[c r]|] eqn:Ecell; [|split; discriminate].
  destruct (cell_of_row sk d c r Ecell) as (row & Hin & <-).
  specialize (Hnum row Hin).
  destruct (nth_error es (Z.to_nat (Row.Num row))) as [er|] eqn:Enth.
  2:{ apply nth_error_None in Enth. lia. }
  assert (Eidx : index es (Row.Num row) = Ok er)
    by (apply index_Ok; split; [lia | exact Enth]).
  rewrite Eidx. cbn [bind].
  pose proof (parseDate_no_panic (DetectedText d)) as HdP.
  pose proof (parseDate_error (DetectedText d)) as HdE.
  destruct (parseTime_outcome (Format (date er) dateFormat) (DetectedText d))
    as [HtP HtE].
  destruct (c =? DateHeader).
  { destruct (parseDate (DetectedText d)) as [dt | e |]; cbn [bind].
    - split; discriminate.
    - split; [discriminate|]. intros e' [= <-]. now apply HdE.
    - congruence. }
  destruct (c =? ActivityHeader); [split; discriminate|].
  destruct (c =? InHeader).
  { destruct (parseTime _ (DetectedText d)) as [t | e |]; cbn [bind].
    - split; discriminate.
    - split; [discriminate|]. intros e' [= <-]. now apply HtE.
    - congruence. }
  destruct (c =? OutHeader).
  { destruct (parseTime _ (DetectedText d)) as [t | e |]; cbn [bind].
    - split; discriminate.
    - split; [discriminate|]. intros e' [= <-]. now apply HtE.
    - congruence. }
  split; discriminate.
Qed.

Lemma scan_loop_outcome (sk : Skeleton) (dts : list TextDetection) :
  forall es,
    (forall row, In row (SRows sk) ->
                 0 <= Row.Num row < Z.of_nat (List.length es)) ->
    scan_loop sk dts es <> Panic
    /\ forall e, scan_loop sk dts es = Err e -> is_parse_error e.
Proof.
  induction dts as [|d dts IH]; intros es Hnum; cbn [scan_loop].
  - split; discriminate.
  - destruct (scan_step_outcome sk es d Hnum) as [HP HE].
    destruct (scan_step sk es d) as [es1 | e |] eqn:E1; cbn [bind].
    + apply IH. intros row Hin. rewrite (scan_step_length _ _ _ _ E1).
      now apply Hnum.
    + split; [discriminate|]. intros e' [= <-]. now apply HE.
    + congruence.
Qed.

(** X13. The scan of the skeleton [prime] returns, as [analyze] composes
    them, whatever the detections are: it never panics (every row number is
    an index of the entries), the entries it returns are as many as the rows
    of the skeleton, and the only errors it returns are those of the date
    and time parsers. *)
Theorem scan_outcome (img : Image) (sk : Skeleton) (out : list TextDetection) :
  fits_int (Bounds img) -> prime img = Ok sk ->
  scan out sk <> Panic
  /\ (forall es, scan out sk = Ok es ->
                 List.length es = List.length (SRows sk))
  /\ (forall e, scan out sk = Err e -> is_parse_error e).
Proof.
  intros Hfit Hp.
  destruct (prime_shape img sk Hfit Hp) as (_ & _ & _ & _ & _ & _ & RN & _).
  assert (Hnum : forall row, In row (SRows sk) ->
             0 <= Row.Num row
             < Z.of_nat (List.length (repeat Entry0 (List.length (SRows sk))))).
  { intros row Hin. rewrite repeat_length.
    apply In_nth_error in Hin. destruct Hin as (i & Hi).
    pose proof (nth_error_row_span _ _ _ Hi) as Hs.
    pose proof (numbered_nth _ _ _ _ RN Hs) as Hn.
    unfold span_num, row_span in Hn. cbn [fst] in Hn.
    assert (i < List.length (SRows sk))%nat
      by (apply nth_error_Some; congruence).
    lia. }
  unfold scan.
  destruct (scan_loop_outcome sk (sortByLeft out) _ Hnum) as [HP HE].
  split; [exact HP|]. split; [|exact HE].
  intros es Hes. rewrite (scan_loop_length _ _ _ _ Hes). apply repeat_length.
Qed.

Lemma scan_outcome_witness :
  scan [in_detection] table_skeleton <> Panic
  /\ (forall es, scan [in_detection] table_skeleton = Ok es ->
                 List.length es = List.length (SRows table_skeleton))
  /\ (forall e, scan [in_detection] table_skeleton = Err e ->
                is_parse_error e).
Proof.
  apply (scan_outcome table_img table_skeleton [in_detection]).
  - unfold fits_int, Int64.in_range, Int64.min_int, Int64.max_int. cbn. lia.
  - vm_compute. reflexivity.
Defined.








(* ================================================================== *)
(** ** Further properties of the dates *)

(** One cycle of 400 years, day by day. *)
Lemma absDate_cycle :
  forallb (fun y =>
    forallb (fun yd =>
      let '(y', yd') := absDate (daysSinceEpoch y + yd) in
      (y' =? y) && (yd' =? yd))
      (zrange 0 (if isLeap y then 366 else 365)))
    (zrange 1 401) = true.
Proof. vm_compute. reflexivity. Qed.

Lemma absDate_shift (n k : Z) :
  absDate (n + 146097 * k)
  = (fst (absDate n) + 400 * k, snd (absDate n)).
Proof.
  unfold absDate.
  replace ((n + 146097 * k) / 146097) with (n / 146097 + k)
    by (rewrite (Z.mul_comm 146097 k), Z.div_add by lia; reflexivity).
  replace (n + 146097 * k - 146097 * (n / 146097 + k))
    with (n - 146097 * (n / 146097)) by lia.
  cbn [fst snd]. f_equal. lia.
Qed.

Lemma daysSinceEpoch_shift (y k : Z) :
  daysSinceEpoch (y + 400 * k) = daysSinceEpoch y + 146097 * k.
Proof.
  unfold daysSinceEpoch. cbv zeta.
  replace (y + 400 * k - 1) with (y - 1 + k * 400) by lia.
  replace ((y - 1 + k * 400) / 4) with ((y - 1) / 4 + k * 100)
    by (replace (k * 400) with (k * 100 * 4) by lia;
        rewrite Z.div_add by lia; reflexivity).
  replace ((y - 1 + k * 400) / 100) with ((y - 1) / 100 + k * 4)
    by (replace (k * 400) with (k * 4 * 100) by lia;
        rewrite Z.div_add by lia; reflexivity).
  replace ((y - 1 + k * 400) / 400) with ((y - 1) / 400 + k)
    by (rewrite Z.div_add by lia; reflexivity).
  lia.
Qed.

Lemma isLeap_shift (y k : Z) : isLeap (y + 400 * k) = isLeap y.
Proof.
  unfold isLeap.
  replace ((y + 400 * k) mod 4) with (y mod 4)
    by (replace (400 * k) with (k * 100 * 4) by lia;
        now rewrite Z.mod_add by lia).
  replace ((y + 400 * k) mod 100) with (y mod 100)
    by (replace (400 * k) with (k * 4 * 100) by lia;
        now rewrite Z.mod_add by lia).
  replace ((y + 400 * k) mod 400) with (y mod 400)
    by (replace (400 * k) with (k * 400) by lia;
        now rewrite Z.mod_add by lia).
  reflexivity.
Qed.

(** [absDate] inverts the day count of a year and a day of that year. *)
Lemma absDate_year (y yd : Z) :
  0 <= yd < (if isLeap y then 366 else 365) ->
  absDate (daysSinceEpoch y + yd) = (y, yd).
Proof.
  intros Hyd.
  set (k := (y - 1) / 400). set (y0 := (y - 1) mod 400 + 1).
  assert (Ey : y = y0 + 400 * k) by (unfold y0, k; zlia).
  assert (Hy0 : 1 <= y0 < 401) by (unfold y0; zlia).
  rewrite Ey in Hyd |- *. rewrite isLeap_shift in Hyd.
  rewrite daysSinceEpoch_shift.
  replace (daysSinceEpoch y0 + 146097 * k + yd)
    with (daysSinceEpoch y0 + yd + 146097 * k) by lia.
  rewrite absDate_shift.
  pose proof (forallb_zrange _ _ _ absDate_cycle y0 Hy0) as Hc.
  cbv beta in Hc.
  pose proof (forallb_zrange _ _ _ Hc yd Hyd) as Hd. cbv beta in Hd.
  destruct (absDate (daysSinceEpoch y0 + yd)) as [y' yd'].
  apply andb_prop in Hd. destruct Hd as [E1 E2].
  apply Z.eqb_eq in E1, E2. cbn [fst snd]. now rewrite E1, E2.
Qed.

(** The month and the day of a day of the year, for the two kinds of year
    and every date. *)
Lemma month_day_table :
  forallb (fun leap : bool =>
    forallb (fun m =>
      forallb (fun d =>
        let yday := daysBefore (m - 1)
                    + (if leap && (3 <=? m) then 1 else 0) + (d - 1) in
        let '(m', d') :=
          if leap && (yday =? 31 + 29 - 1) then (2, 29)
          else
            let day := if leap && (31 + 29 - 1 <? yday) then yday - 1
                       else yday in
            let month := day / 31 in
            let e := daysBefore (month + 1) in
            if e <=? day then (month + 2, day - e + 1)
            else (month + 1, day - daysBefore month + 1) in
        (m' =? m) && (d' =? d) && (0 <=? yday)
        && (yday <? (if leap then 366 else 365)))
        (zrange 1 ((if (m =? 2) && leap then 29
                    else daysBefore m - daysBefore (m - 1)) + 1)))
      (zrange 1 13))
    [true; false] = true.
Proof. vm_compute. reflexivity. Qed.

(** A [Time] built by [Date] from fields in range shows these fields. *)
Lemma date_of_Date (y m d h mi : Z) :
  1 <= m <= 12 -> 1 <= d <= daysIn m y -> 0 <= h < 24 -> 0 <= mi < 60 ->
  date_of (Date y m d h mi) = (y, m, d)
  /\ Hour_of (Date y m d h mi) = h /\ Minute_of (Date y m d h mi) = mi.
Proof.
  intros Hm Hd Hh Hmi.
  pose proof month_day_table as T. rewrite forallb_forall in T.
  specialize (T (isLeap y)
                (ltac:(destruct (isLeap y); cbn; tauto))).
  pose proof (forallb_zrange _ _ _ T m ltac:(lia)) as Tm. cbv beta in Tm.
  unfold daysIn in Hd.
  pose proof (forallb_zrange _ _ _ Tm d ltac:(lia)) as Td. cbv beta zeta in Td.
  clear T Tm.
  remember (daysBefore (m - 1)
            + (if isLeap y && (3 <=? m) then 1 else 0) + (d - 1))
    as yday eqn:Eyday.
  assert (Hsec : sec (Date y m d h mi)
                 = (daysSinceEpoch y + yday) * secondsPerDay
                   + (h * secondsPerHour + mi * secondsPerMinute)).
  { unfold Date. rewrite Eyday. cbv zeta. cbn [sec].
    destruct (isLeap y && (3 <=? m)); lia. }
  match type of Td with
  | (let '(m', d') := ?body in _) = true =>
      destruct body as [m' d'] eqn:Ebody
  end.
  apply andb_prop in Td. destruct Td as [Td Hlt].
  apply andb_prop in Td. destruct Td as [Td Hge].
  apply andb_prop in Td. destruct Td as [Em Ed].
  apply Z.eqb_eq in Em, Ed. subst m' d'.
  assert (Hyd : 0 <= yday < (if isLeap y then 366 else 365)) by lia.
  split; [|split].
  - unfold date_of. rewrite Hsec.
    replace (((daysSinceEpoch y + yday) * secondsPerDay
              + (h * secondsPerHour + mi * secondsPerMinute)) / secondsPerDay)
      with (daysSinceEpoch y + yday)
      by (unfold secondsPerDay, secondsPerHour, secondsPerMinute; zlia).
    rewrite (absDate_year y yday Hyd).
    destruct (isLeap y && (yday =? 31 + 29 - 1)).
    + now injection Ebody as <- <-.
    + cbv zeta in Ebody |- *.
      destruct (daysBefore _ <=? _); now injection Ebody as <- <-.
  - unfold Hour_of. rewrite Hsec.
    unfold secondsPerDay, secondsPerHour, secondsPerMinute. zlia.
  - unfold Minute_of. rewrite Hsec.
    unfold secondsPerDay, secondsPerHour, secondsPerMinute. zlia.
Qed.

Lemma ascii_of_digit_at (c : ascii) :
  is_digit_char c ->
  ascii_of_digit (Z.of_nat (nat_of_ascii c) - 48) = c
  /\ 0 <= Z.of_nat (nat_of_ascii c) - 48 <= 9.
Proof.
  unfold is_digit_char, ascii_of_digit. intros Hc. split; [|lia].
  replace (48 + Z.to_nat (Z.of_nat (nat_of_ascii c) - 48))%nat
    with (nat_of_ascii c) by lia.
  apply ascii_nat_embedding.
Qed.

Lemma isDigit_head (c : ascii) (s : string) :
  isDigit (String c s) 0 = true <-> is_digit_char c.
Proof.
  unfold isDigit, is_digit_char. cbn [String.get].
  rewrite andb_true_iff, !Nat.leb_le. tauto.
Qed.

Ltac digit_head c H :=
  match goal with
  | |- context [isDigit (String c ?s) 0] =>
      rewrite (proj2 (isDigit_head c s) H)
  end.

Lemma isDigit_tail (c : ascii) (s : string) (n : nat) :
  isDigit (String c s) (S n) = isDigit s n.
Proof. reflexivity. Qed.

Lemma drop_cons (c : ascii) (s : string) (n : nat) :
  drop (S n) (String c s) = drop n s.
Proof. reflexivity. Qed.

Lemma drop_0 (s : string) : drop 0 s = s.
Proof. unfold drop. rewrite Nat.sub_0_r. apply substring_all. Qed.

(** A two-digit field: what [getnum] accepts and what it returns. *)
Lemma getnum_fixed (s : string) (n : Z) (rest : string) :
  getnum s true = Some (n, rest) <->
  exists c0 c1,
    s = String c0 (String c1 rest)
    /\ is_digit_char c0 /\ is_digit_char c1
    /\ n = (Z.of_nat (nat_of_ascii c0) - 48) * 10
           + (Z.of_nat (nat_of_ascii c1) - 48).
Proof.
  unfold getnum. split.
  - destruct s as [|c0 [|c1 s]].
    + cbn. discriminate.
    + destruct (isDigit (String c0 EmptyString) 0); cbn; discriminate.
    + destruct (isDigit (String c0 (String c1 s)) 0) eqn:E0; cbn [negb];
        [|discriminate].
      rewrite isDigit_tail.
      destruct (isDigit (String c1 s) 0) eqn:E1; cbn [negb]; [|discriminate].
      rewrite !drop_cons, drop_0. unfold digit_at. cbn [String.get].
      intros [= <- <-]. exists c0, c1.
      apply isDigit_head in E0, E1.
      split; [reflexivity|]. split; [exact E0|]. split; [exact E1|].
      reflexivity.
  - intros (c0 & c1 & -> & H0 & H1 & ->).
    digit_head c0 H0. cbn [negb].
    rewrite isDigit_tail. digit_head c1 H1. cbn [negb].
    rewrite !drop_cons, drop_0. reflexivity.
Qed.

(** The hour: one digit or two. *)
Lemma getnum_free_range (s : string) (n : Z) (rest : string) :
  getnum s false = Some (n, rest) -> 0 <= n < 100.
Proof.
  unfold getnum. destruct s as [|c0 s]; [cbn; discriminate|].
  destruct (isDigit (String c0 s) 0) eqn:E0; cbn [negb]; [|discriminate].
  apply isDigit_head in E0. destruct (ascii_of_digit_at c0 E0) as [_ R0].
  rewrite isDigit_tail. unfold digit_at. cbn [String.get].
  destruct s as [|c1 s].
  - cbn. intros [= <- <-]. lia.
  - destruct (isDigit (String c1 s) 0) eqn:E1; cbn [negb].
    + apply isDigit_head in E1. destruct (ascii_of_digit_at c1 E1) as [_ R1].
      cbn [String.get]. intros [= <- <-]. lia.
    + intros [= <- <-]. lia.
Qed.

Lemma getyear_four (s : string) (y : Z) (rest : string) :
  getyear s = Some (y, rest) <->
  exists c0 c1 c2 c3,
    s = String c0 (String c1 (String c2 (String c3 rest)))
    /\ is_digit_char c0 /\ is_digit_char c1
    /\ is_digit_char c2 /\ is_digit_char c3
    /\ y = (Z.of_nat (nat_of_ascii c0) - 48) * 1000
           + (Z.of_nat (nat_of_ascii c1) - 48) * 100
           + (Z.of_nat (nat_of_ascii c2) - 48) * 10
           + (Z.of_nat (nat_of_ascii c3) - 48).
Proof.
  unfold getyear. split.
  - destruct s as [|c0 [|c1 [|c2 [|c3 s]]]]; try (cbn; discriminate).
    replace (String.length (String c0 (String c1 (String c2 (String c3 s))))
             <? 4)%nat with false
      by (symmetry; apply Nat.ltb_ge; cbn; lia).
    cbn [orb].
    destruct (isDigit _ 0) eqn:E0; cbn [negb]; [|discriminate].
    rewrite !isDigit_tail.
    destruct (isDigit (String c1 _) 0) eqn:E1; cbn [andb]; [|discriminate].
    destruct (isDigit (String c2 _) 0) eqn:E2; cbn [andb]; [|discriminate].
    destruct (isDigit (String c3 _) 0) eqn:E3; cbn [andb]; [|discriminate].
    rewrite !drop_cons, drop_0. unfold digit_at. cbn [String.get].
    intros [= <- <-]. exists c0, c1, c2, c3.
    apply isDigit_head in E0, E1, E2, E3.
    split; [reflexivity|]. split; [exact E0|]. split; [exact E1|].
    split; [exact E2|]. split; [exact E3|]. reflexivity.
  - intros (c0 & c1 & c2 & c3 & -> & H0 & H1 & H2 & H3 & ->).
    replace (String.length (String c0 (String c1 (String c2 (String c3 rest))))
             <? 4)%nat with false
      by (symmetry; apply Nat.ltb_ge; cbn; lia).
    cbn [orb].
    digit_head c0 H0. cbn [negb]. rewrite !isDigit_tail.
    digit_head c1 H1. digit_head c2 H2. digit_head c3 H3.
    cbn [andb]. rewrite !drop_cons, drop_0. reflexivity.
Qed.

Lemma appendInt_four_digits (x : Z) :
  0 <= x < 10000 ->
  appendInt x 4
  = String (ascii_of_digit (x / 1000))
      (String (ascii_of_digit (x / 100 mod 10))
         (String (ascii_of_digit (x / 10 mod 10))
            (String (ascii_of_digit (x mod 10)) EmptyString))).
Proof.
  intros Hx. apply String.eqb_eq.
  apply (forallb_zrange
           (fun x => String.eqb (appendInt x 4)
              (String (ascii_of_digit (x / 1000))
                 (String (ascii_of_digit (x / 100 mod 10))
                    (String (ascii_of_digit (x / 10 mod 10))
                       (String (ascii_of_digit (x mod 10)) EmptyString)))))
           0 10000); [now vm_compute | exact Hx].
Qed.

Lemma appendInt_of_two (c0 c1 : ascii) :
  is_digit_char c0 -> is_digit_char c1 ->
  appendInt ((Z.of_nat (nat_of_ascii c0) - 48) * 10
             + (Z.of_nat (nat_of_ascii c1) - 48)) 2
  = String c0 (String c1 EmptyString).
Proof.
  intros H0 H1.
  destruct (ascii_of_digit_at c0 H0) as [E0 R0].
  destruct (ascii_of_digit_at c1 H1) as [E1 R1].
  set (a := Z.of_nat (nat_of_ascii c0) - 48) in *.
  set (b := Z.of_nat (nat_of_ascii c1) - 48) in *.
  rewrite appendInt_two_digits by lia.
  replace ((a * 10 + b) / 10) with a by zlia.
  replace ((a * 10 + b) mod 10) with b by zlia.
  now rewrite E0, E1.
Qed.

Lemma appendInt_of_four (c0 c1 c2 c3 : ascii) :
  is_digit_char c0 -> is_digit_char c1 ->
  is_digit_char c2 -> is_digit_char c3 ->
  appendInt ((Z.of_nat (nat_of_ascii c0) - 48) * 1000
             + (Z.of_nat (nat_of_ascii c1) - 48) * 100
             + (Z.of_nat (nat_of_ascii c2) - 48) * 10
             + (Z.of_nat (nat_of_ascii c3) - 48)) 4
  = String c0 (String c1 (String c2 (String c3 EmptyString))).
Proof.
  intros H0 H1 H2 H3.
  destruct (ascii_of_digit_at c0 H0) as [E0 R0].
  destruct (ascii_of_digit_at c1 H1) as [E1 R1].
  destruct (ascii_of_digit_at c2 H2) as [E2 R2].
  destruct (ascii_of_digit_at c3 H3) as [E3 R3].
  set (a := Z.of_nat (nat_of_ascii c0) - 48) in *.
  set (b := Z.of_nat (nat_of_ascii c1) - 48) in *.
  set (c := Z.of_nat (nat_of_ascii c2) - 48) in *.
  set (d := Z.of_nat (nat_of_ascii c3) - 48) in *.
  rewrite appendInt_four_digits by lia.
  replace ((a * 1000 + b * 100 + c * 10 + d) / 1000) with a by zlia.
  replace ((a * 1000 + b * 100 + c * 10 + d) / 100 mod 10) with b by zlia.
  replace ((a * 1000 + b * 100 + c * 10 + d) / 10 mod 10) with c by zlia.
  replace ((a * 1000 + b * 100 + c * 10 + d) mod 10) with d by zlia.
  now rewrite E0, E1, E2, E3.
Qed.

(** What [Parse] reads under the three chunks of [dateFormat], whatever
    follows them in the layout and in the value. *)
Lemma parse_chunks_date (l : layout) (value : string) :
  match parse_chunks (dateFormat ++ l) value fields0 with
  | inr f =>
      exists d m y s8 rest,
        value = (s8 ++ rest)%string /\ String.length s8 = 8%nat
        /\ 0 <= d < 100 /\ 1 <= m <= 12 /\ 0 <= y < 10000
        /\ (appendInt d 2 ++ appendInt m 2 ++ appendInt y 4)%string = s8
        /\ parse_chunks l rest (mkFields y m d 0 0) = inr f
        /\ forall l' rest',
             parse_chunks (dateFormat ++ l') (s8 ++ rest') fields0
             = parse_chunks l' rest' (mkFields y m d 0 0)
  | inl _ => True
  end.
Proof.
  destruct (parse_chunks (dateFormat ++ l) value fields0) as [e|f] eqn:Ep;
    [exact I|].
  unfold dateFormat in Ep. cbn [app parse_chunks] in Ep.
  destruct (getnum value true) as [[d v1]|] eqn:Ed; [|discriminate Ep].
  destruct (getnum v1 true) as [[m v2]|] eqn:Em; [|discriminate Ep].
  destruct ((m <=? 0) || (12 <? m)) eqn:Emr; [discriminate Ep|].
  destruct (getyear v2) as [[y v3]|] eqn:Ey; [|discriminate Ep].
  cbn [f_year f_month f_day f_hour f_min fields0] in Ep.
  apply getnum_fixed in Ed. destruct Ed as (a0 & a1 & -> & Ha0 & Ha1 & ->).
  apply getnum_fixed in Em. destruct Em as (b0 & b1 & -> & Hb0 & Hb1 & Em).
  apply getyear_four in Ey.
  destruct Ey as (y0 & y1 & y2 & y3 & -> & Hy0 & Hy1 & Hy2 & Hy3 & Ey).
  destruct (ascii_of_digit_at a0 Ha0) as [_ Ra0].
  destruct (ascii_of_digit_at a1 Ha1) as [_ Ra1].
  destruct (ascii_of_digit_at b0 Hb0) as [_ Rb0].
  destruct (ascii_of_digit_at b1 Hb1) as [_ Rb1].
  destruct (ascii_of_digit_at y0 Hy0) as [_ Ry0].
  destruct (ascii_of_digit_at y1 Hy1) as [_ Ry1].
  destruct (ascii_of_digit_at y2 Hy2) as [_ Ry2].
  destruct (ascii_of_digit_at y3 Hy3) as [_ Ry3].
  assert (Hm12 : 1 <= m <= 12).
  { pose proof Emr as Emr'. apply orb_false_iff in Emr'.
    destruct Emr' as [A B]. apply Z.leb_gt in A. apply Z.ltb_ge in B. lia. }
  exists ((Z.of_nat (nat_of_ascii a0) - 48) * 10
          + (Z.of_nat (nat_of_ascii a1) - 48)), m, y,
    (String a0 (String a1 (String b0 (String b1
       (String y0 (String y1 (String y2 (String y3 EmptyString)))))))), v3.
  split; [reflexivity|]. split; [reflexivity|]. split; [lia|].
  split; [lia|]. split; [lia|]. split; [|split; [exact Ep|]].
  - rewrite appendInt_of_two by assumption.
    rewrite Em, appendInt_of_two by assumption.
    rewrite Ey, appendInt_of_four by assumption. reflexivity.
  - intros l' rest'. unfold dateFormat. cbn [app append parse_chunks].
    rewrite (proj2 (getnum_fixed _ _ _)
               (ex_intro _ a0 (ex_intro _ a1
                  (conj eq_refl (conj Ha0 (conj Ha1 eq_refl)))))).
    rewrite (proj2 (getnum_fixed _ m _)
               (ex_intro _ b0 (ex_intro _ b1
                  (conj eq_refl (conj Hb0 (conj Hb1 Em)))))).
    rewrite Emr.
    rewrite (proj2 (getyear_four _ y _)
               (ex_intro _ y0 (ex_intro _ y1 (ex_intro _ y2 (ex_intro _ y3
                  (conj eq_refl (conj Hy0 (conj Hy1 (conj Hy2
                     (conj Hy3 Ey)))))))))).
    reflexivity.
Qed.

Lemma append_empty_r (s : string) : (s ++ EmptyString)%string = s.
Proof. induction s as [|c s IH]; cbn; [reflexivity | now rewrite IH]. Qed.

(** What [Parse] accepts under [dateFormat]: eight digits that are the day,
    the month and the year of a date of the calendar. *)
Lemma Parse_dateFormat_inv (s : string) (t : Time) :
  Parse dateFormat s = inr t ->
  exists d m y,
    1 <= m <= 12 /\ 1 <= d <= daysIn m y /\ 0 <= y < 10000
    /\ t = Date y m d 0 0
    /\ String.length s = 8%nat
    /\ (appendInt d 2 ++ appendInt m 2 ++ appendInt y 4)%string = s
    /\ forall l' rest',
         parse_chunks (dateFormat ++ l') (s ++ rest') fields0
         = parse_chunks l' rest' (mkFields y m d 0 0).
Proof.
  unfold Parse. intros Hp.
  pose proof (parse_chunks_date [] s) as Hc. rewrite app_nil_r in Hc.
  destruct (parse_chunks dateFormat s fields0) as [e|f]; [discriminate Hp|].
  destruct Hc as (d & m & y & s8 & rest & -> & Hlen & Hd & Hm & Hy & Hfmt
                  & Hrest & Hpre).
  cbn [parse_chunks] in Hrest.
  destruct (String.length rest =? 0)%nat eqn:Er; [|discriminate Hrest].
  injection Hrest as <-. apply Nat.eqb_eq in Er.
  destruct rest; [|discriminate Er]. rewrite append_empty_r.
  cbn [f_year f_month f_day f_hour f_min] in Hp.
  destruct ((d <? 1) || (daysIn m y <? d)) eqn:Eday; [discriminate Hp|].
  injection Hp as <-.
  apply orb_false_iff in Eday. destruct Eday as [A B].
  apply Z.ltb_ge in A, B.
  exists d, m, y. split; [lia|]. split; [lia|]. split; [lia|].
  split; [reflexivity|]. split; [exact Hlen|]. split; [exact Hfmt|].
  exact Hpre.
Qed.

Lemma Format_dateFormat_Date (y m d : Z) :
  1 <= m <= 12 -> 1 <= d <= daysIn m y ->
  Format (Date y m d 0 0) dateFormat
  = (appendInt d 2 ++ appendInt m 2 ++ appendInt y 4)%string.
Proof.
  intros Hm Hd.
  destruct (date_of_Date y m d 0 0 Hm Hd ltac:(lia) ltac:(lia)) as (E & _).
  unfold dateFormat. cbn [Format]. unfold Day, Month, Year. rewrite E.
  cbn [fst snd]. now rewrite append_empty_r.
Qed.

(** A date [parseDate] returns was read by [Parse] under [dateFormat]. *)
Lemma parseDate_clean (s : string) (t : Time) :
  parseDate s = Ok t -> exists clean, Parse dateFormat clean = inr t.
Proof.
  assert (H10 : forall s', parseDate10 s' = Ok t ->
                           exists clean, Parse dateFormat clean = inr t).
  { intros s'. unfold parseDate10.
    destruct (Parse dateFormat _) as [e|t'] eqn:Ep; [discriminate|].
    intros [= ->]. eauto. }
  destruct (Nat.eq_dec (String.length s) 10) as [E10 | N10].
  { rewrite parseDate_length_10 by exact E10. apply H10. }
  destruct (Nat.eq_dec (String.length s) 11) as [E11 | N11].
  { rewrite parseDate_length_11 by exact E11. cbv zeta.
    destruct (String.length _ =? 10)%nat; [apply H10 | discriminate]. }
  unfold parseDate, parseDate_rec.
  destruct (String.length s) as [|[|[|[|[|[|[|[|[|[|[|[|n]]]]]]]]]]]];
    try discriminate; try congruence.
  destruct (Parse dateFormat _) as [e|t'] eqn:Ep; [discriminate|].
  intros [= ->]. eauto.
Qed.

Lemma parseDate_reparse (s : string) (t : Time) :
  parseDate s = Ok t -> Parse dateFormat (Format t dateFormat) = inr t.
Proof.
  intros Hp. destruct (parseDate_clean s t Hp) as (clean & Hc).
  destruct (Parse_dateFormat_inv clean t Hc)
    as (d & m & y & Hm & Hd & Hy & -> & Hlen & Hfmt & _).
  now rewrite (Format_dateFormat_Date y m d Hm Hd), Hfmt.
Qed.

(** X16. A date [parseDate] returns is a date of the calendar at midnight:
    its month is between 1 and 12, its day between 1 and the length of the
    month in that year, its year between 0 and 9999; printed again under
    [dateFormat], as [scan] does before it reads a time, it gives eight
    characters from which [Parse] reads the same date. *)
Theorem parseDate_valid (s : string) (t : Time) :
  parseDate s = Ok t ->
  is_midnight t
  /\ 1 <= Month t <= 12
  /\ 1 <= Day t <= daysIn (Month t) (Year t)
  /\ 0 <= Year t <= 9999
  /\ t = Date (Year t) (Month t) (Day t) 0 0
  /\ String.length (Format t dateFormat) = 8%nat
  /\ Parse dateFormat (Format t dateFormat) = inr t.
Proof.
  intros Hp. destruct (parseDate_clean s t Hp) as (clean & Hc).
  destruct (Parse_dateFormat_inv clean t Hc)
    as (d & m & y & Hm & Hd & Hy & -> & Hlen & Hfmt & _).
  destruct (date_of_Date y m d 0 0 Hm Hd ltac:(lia) ltac:(lia)) as (E & _).
  unfold Year, Month, Day. rewrite E. cbn [fst snd].
  rewrite (Format_dateFormat_Date y m d Hm Hd), Hfmt.
  split.
  { unfold is_midnight, Date. cbv zeta. cbn [sec nsec].
    split; [|reflexivity]. unfold secondsPerDay, secondsPerHour,
      secondsPerMinute. destruct (isLeap y && (3 <=? m)); zlia. }
  split; [exact Hm|]. split; [exact Hd|]. split; [lia|].
  split; [reflexivity|]. split; [exact Hlen | exact Hc].
Qed.

Lemma parseDate_valid_witness :
  is_midnight (Date 2023 1 5 0 0)
  /\ 1 <= Month (Date 2023 1 5 0 0) <= 12
  /\ 1 <= Day (Date 2023 1 5 0 0)
     <= daysIn (Month (Date 2023 1 5 0 0)) (Year (Date 2023 1 5 0 0))
  /\ 0 <= Year (Date 2023 1 5 0 0) <= 9999
  /\ Date 2023 1 5 0 0
     = Date (Year (Date 2023 1 5 0 0)) (Month (Date 2023 1 5 0 0))
         (Day (Date 2023 1 5 0 0)) 0 0
  /\ String.length (Format (Date 2023 1 5 0 0) dateFormat) = 8%nat
  /\ Parse dateFormat (Format (Date 2023 1 5 0 0) dateFormat)
     = inr (Date 2023 1 5 0 0).
Proof.
  apply (parseDate_valid "05/01/2023" (Date 2023 1 5 0 0)).
  vm_compute. reflexivity.
Defined.

(** The hour and the minute that follow the date in the two layouts of
    [parseTime]. *)
Lemma parse_chunks_time (l : layout) (txt : string) (y m d : Z) (f : fields) :
  l = [stdHour; lit "."; stdZeroMinute] \/ l = [stdHour; stdZeroMinute] ->
  parse_chunks l txt (mkFields y m d 0 0) = inr f ->
  exists h mi, 0 <= h < 24 /\ 0 <= mi < 60 /\ f = mkFields y m d h mi.
Proof.
  intros [-> | ->]; cbn [parse_chunks];
    destruct (getnum txt false) as [[h v]|] eqn:Eh; try discriminate;
    destruct ((h <? 0) || (24 <=? h)) eqn:Ehr; try discriminate;
    cbn [f_year f_month f_day f_hour f_min].
  - destruct v as [|b v]; [discriminate|].
    destruct (Ascii.eqb "." b); [|discriminate].
    destruct (getnum v true) as [[mi v']|] eqn:Emi; [|discriminate].
    destruct ((mi <? 0) || (60 <=? mi)) eqn:Emr; [discriminate|].
    cbn [f_year f_month f_day f_hour f_min].
    destruct (String.length v' =? 0)%nat; [|discriminate].
    intros [= <-]. exists h, mi.
    apply orb_false_iff in Ehr, Emr. destruct Ehr as [A B], Emr as [C D].
    apply Z.ltb_ge in A, C. apply Z.leb_gt in B, D.
    split; [lia|]. split; [lia | reflexivity].
  - destruct (getnum v true) as [[mi v']|] eqn:Emi; [|discriminate].
    destruct ((mi <? 0) || (60 <=? mi)) eqn:Emr; [discriminate|].
    cbn [f_year f_month f_day f_hour f_min].
    destruct (String.length v' =? 0)%nat; [|discriminate].
    intros [= <-]. exists h, mi.
    apply orb_false_iff in Ehr, Emr. destruct Ehr as [A B], Emr as [C D].
    apply Z.ltb_ge in A, C. apply Z.leb_gt in B, D.
    split; [lia|]. split; [lia | reflexivity].
Qed.

Lemma Parse_time_after_date (l : layout) (s txt : string) (date t : Time) :
  l = [stdHour; lit "."; stdZeroMinute] \/ l = [stdHour; stdZeroMinute] ->
  Parse dateFormat s = inr date ->
  Parse (dateFormat ++ l) (s ++ txt) = inr t ->
  exists y m d h mi,
    1 <= m <= 12 /\ 1 <= d <= daysIn m y /\ 0 <= h < 24 /\ 0 <= mi < 60
    /\ date = Date y m d 0 0 /\ t = Date y m d h mi.
Proof.
  intros Hl Hd Ht.
  destruct (Parse_dateFormat_inv s date Hd)
    as (d & m & y & Hm & Hday & Hy & -> & _ & _ & Hpre).
  unfold Parse in Ht. rewrite Hpre in Ht.
  destruct (parse_chunks l txt (mkFields y m d 0 0)) as [e|f] eqn:Ef;
    [discriminate Ht|].
  destruct (parse_chunks_time l txt y m d f Hl Ef) as (h & mi & Hh & Hmi & ->).
  cbn [f_year f_month f_day f_hour f_min] in Ht.
  destruct ((d <? 1) || (daysIn m y <? d)); [discriminate Ht|].
  injection Ht as <-. exists y, m, d, h, mi. now repeat split.
Qed.

(** X17. A time that [parseTime] reads after the printed form of a date
    that [parseDate] returned lies on that date: it is the date moved by the
    hour and the minute of the text, between 00:00 and 23:59. *)
Theorem parseTime_on_date (s txt : string) (date_ t : Time) :
  parseDate s = Ok date_ ->
  parseTime (Format date_ dateFormat) txt = Ok t ->
  exists h mi,
    0 <= h < 24 /\ 0 <= mi < 60
    /\ t = Add date_ (h * Hour + mi * Minute)
    /\ date_of t = date_of date_
    /\ Hour_of t = h /\ Minute_of t = mi.
Proof.
  intros Hd Ht.
  pose proof (parseDate_reparse s date_ Hd) as Hrt.
  assert (Hcase : exists l,
             (l = [stdHour; lit "."; stdZeroMinute]
              \/ l = [stdHour; stdZeroMinute])
             /\ Parse (dateFormat ++ l) (Format date_ dateFormat ++ txt)
                = inr t).
  { unfold parseTime in Ht. fold timeFormat in Ht.
    destruct (Parse timeFormat _) as [e|t1] eqn:E1.
    - destruct (Parse timeFormat2 _) as [e2|t2] eqn:E2; [discriminate Ht|].
      injection Ht as <-. exists [stdHour; stdZeroMinute].
      split; [now right | exact E2].
    - injection Ht as <-. exists [stdHour; lit "."; stdZeroMinute].
      split; [now left | exact E1]. }
  destruct Hcase as (l & Hl & Hparse).
  destruct (Parse_time_after_date l _ txt date_ t Hl Hrt Hparse)
    as (y & m & d & h & mi & Hm & Hday & Hh & Hmi & -> & ->).
  exists h, mi. split; [exact Hh|]. split; [exact Hmi|].
  destruct (date_of_Date y m d h mi Hm Hday Hh Hmi) as (E1 & E2 & E3).
  destruct (date_of_Date y m d 0 0 Hm Hday ltac:(lia) ltac:(lia)) as (E0 & _).
  split; [|split; [congruence | split; assumption]].
  unfold Add, Date, Hour, Minute, Second, Millisecond, Microsecond,
    Nanosecond. cbv zeta. cbn [sec nsec].
  replace (Z.rem (h * (60 * (60 * (1000 * (1000 * (1000 * 1)))))
                  + mi * (60 * (1000 * (1000 * (1000 * 1))))) 1000000000)
    with 0 by zlia.
  replace (Z.quot (h * (60 * (60 * (1000 * (1000 * (1000 * 1)))))
                   + mi * (60 * (1000 * (1000 * (1000 * 1))))) 1000000000)
    with (h * 3600 + mi * 60) by zlia.
  cbn [Z.add Z.leb Z.ltb Z.compare].
  unfold secondsPerDay, secondsPerHour, secondsPerMinute. f_equal. lia.
Qed.

Lemma parseTime_on_date_witness :
  exists h mi,
    0 <= h < 24 /\ 0 <= mi < 60
    /\ Date 2023 1 5 15 4 = Add (Date 2023 1 5 0 0) (h * Hour + mi * Minute)
    /\ date_of (Date 2023 1 5 15 4) = date_of (Date 2023 1 5 0 0)
    /\ Hour_of (Date 2023 1 5 15 4) = h
    /\ Minute_of (Date 2023 1 5 15 4) = mi.
Proof.
  apply (parseTime_on_date "05/01/2023" "15.04").
  - vm_compute. reflexivity.
  - vm_compute. reflexivity.
Defined.

(* ================================================================== *)
(** ** Further properties of the report *)

Lemma report_of_lengths (avgIn avgOut : Duration) (e : Entry) :
  List.length (fst (report_of avgIn avgOut e))
  = (if String.eqb (activity e) EmptyString then 0 else 1)%nat
  /\ (List.length (snd (report_of avgIn avgOut e))
      <= List.length (fst (report_of avgIn avgOut e)))%nat
  /\ List.length (snd (report_of avgIn avgOut e))
     = (if String.eqb (activity e) "UnclosedDay"
        then match in_ e, out e with
             | Some _, None | None, Some _ => 1
             | _, _ => 0
             end
        else 0)%nat.
Proof.
  unfold report_of.
  destruct (String.eqb (activity e) EmptyString) eqn:E0.
  - apply String.eqb_eq in E0. rewrite E0. cbn. repeat split; lia.
  - destruct (String.eqb (activity e) "UnclosedDay").
    + unfold fixEntry. destruct (in_ e), (out e); cbn; repeat split; lia.
    + destruct (String.eqb (activity e) "Vacation/Una"); cbn;
        repeat split; lia.
Qed.

(** X18. The sizes of the report: [domagic] lists one problem for each
    entry whose activity is not empty, so that it lists no problem exactly
    when every activity is empty (the case in which the reply says that
    things look ok); it lists one fix for each unclosed day with exactly one
    of its two times set, and never more fixes than problems. *)
Theorem domagic_counts (entries : list Entry) :
  List.length (Problems (domagic entries))
  = List.length
      (filter (fun e => negb (String.eqb (activity e) EmptyString)) entries)
  /\ (Problems (domagic entries) = [] <->
      forall e, In e entries -> activity e = EmptyString)
  /\ List.length (Fixes (domagic entries))
     = List.length
         (filter (fun e =>
                    String.eqb (activity e) "UnclosedDay"
                    && match in_ e, out e with
                       | Some _, None | None, Some _ => true
                       | _, _ => false
                       end) entries)
  /\ (List.length (Fixes (domagic entries))
      <= List.length (Problems (domagic entries)))%nat.
Proof.
  unfold domagic. rewrite domagic_loop_reports. cbn [Problems Fixes app].
  generalize (averageIn entries) (averageOut entries). intros avgIn avgOut.
  assert (Hp : List.length
                 (List.concat (map fst (map (report_of avgIn avgOut) entries)))
               = List.length
                   (filter (fun e => negb (String.eqb (activity e) EmptyString))
                      entries)).
  { induction entries as [|e es IH]; [reflexivity|].
    cbn [map List.concat filter]. rewrite length_app, IH.
    destruct (report_of_lengths avgIn avgOut e) as (-> & _).
    destruct (String.eqb (activity e) EmptyString); reflexivity. }
  split; [exact Hp|]. split; [|split].
  - split.
    + intros Hnil. rewrite Hnil in Hp. cbn [List.length] in Hp.
      intros e Hin. destruct (String.eqb_spec (activity e) EmptyString)
        as [E | N]; [exact E|]. exfalso.
      assert (Hf : In e (filter (fun e => negb (String.eqb (activity e)
                                                   EmptyString)) entries)).
      { apply filter_In. split; [exact Hin|].
        apply negb_true_iff. now apply String.eqb_neq. }
      destruct (filter _ entries); [exact Hf | discriminate Hp].
    + intros Hall. apply length_zero_iff_nil. rewrite Hp.
      apply length_zero_iff_nil. clear Hp.
      induction entries as [|e es IH]; [reflexivity|]. cbn [filter].
      rewrite (Hall e (or_introl eq_refl)). cbn.
      apply IH. intros e' Hin. apply Hall. now right.
  - clear Hp. induction entries as [|e es IH]; [reflexivity|].
    cbn [map List.concat filter]. rewrite length_app, IH.
    destruct (report_of_lengths avgIn avgOut e) as (_ & _ & ->).
    destruct (String.eqb (activity e) "UnclosedDay"); [|reflexivity].
    destruct (in_ e), (out e); reflexivity.
  - clear Hp. induction entries as [|e es IH]; [cbn; lia|].
    cbn [map List.concat]. rewrite !length_app.
    destruct (report_of_lengths avgIn avgOut e) as (_ & Hle & _). lia.
Qed.

(* ================================================================== *)
(** ** Further properties of the averages *)

Lemma average_loop_values (extractor : Entry -> option Time)
    (entries : list Entry) :
  forall total count,
    average_loop entries extractor total count
    = fold_left (fun (acc : Duration * Z) v =>
                   (Int64.add (fst acc)
                      (Int64.add (Int64.mul (Hour_of v) Hour)
                                 (Int64.mul (Minute_of v) Minute)),
                    Int64.add (snd acc) 1))
        (set_values extractor entries) (total, count).
Proof.
  induction entries as [|e es IH]; intros total count; [reflexivity|].
  cbn [average_loop set_values flat_map].
  destruct (extractor e) as [v|]; cbn [app fold_left fst snd].
  - apply IH.
  - apply IH.
Qed.

Lemma add_swap (t a b : Z) :
  Int64.add (Int64.add t a) b = Int64.add (Int64.add t b) a.
Proof.
  rewrite !add_assoc_wrap. f_equal. unfold Int64.add. f_equal. lia.
Qed.

(** X19. The averages do not depend on the order of the entries, nor on the
    entries in which the time is not set: two sequences of entries that set
    the same times, in any order, have the same average, whether the sum
    wraps around or not. *)
Theorem average_order_free (extractor : Entry -> option Time)
    (es1 es2 : list Entry) (def : Duration) :
  Permutation (set_values extractor es1) (set_values extractor es2) ->
  average es1 extractor def = average es2 extractor def.
Proof.
  intros Hperm. unfold average. rewrite !average_loop_values.
  assert (E : forall acc,
             fold_left (fun (acc : Duration * Z) v =>
                   (Int64.add (fst acc)
                      (Int64.add (Int64.mul (Hour_of v) Hour)
                                 (Int64.mul (Minute_of v) Minute)),
                    Int64.add (snd acc) 1))
               (set_values extractor es1) acc
             = fold_left (fun (acc : Duration * Z) v =>
                   (Int64.add (fst acc)
                      (Int64.add (Int64.mul (Hour_of v) Hour)
                                 (Int64.mul (Minute_of v) Minute)),
                    Int64.add (snd acc) 1))
               (set_values extractor es2) acc).
  { induction Hperm as [| x l l' _ IH | x y l | l l' l'' _ IH1 _ IH2];
      intros acc; cbn [fold_left].
    - reflexivity.
    - apply IH.
    - cbn [fst snd]. f_equal. f_equal. apply add_swap.
    - now rewrite IH1. }
  now rewrite E.
Qed.

Lemma average_order_free_witness :
  average [entry_0900; vacation_entry; entry_0930] in_ (9 * Hour)
  = average [entry_0930; entry_0900] in_ (9 * Hour).
Proof.
  apply (average_order_free in_).
  cbn. apply perm_swap.
Defined.

Lemma quarter_of_day (d : Time) (k : Z) :
  is_midnight d -> 0 <= k <= 96 ->
  0 <= Hour_of (Add d (k * (15 * Minute))) <= 23
  /\ In (Minute_of (Add d (k * (15 * Minute)))) [0; 15; 30; 45]
  /\ Hour_of (Add d (k * (15 * Minute))) = (k / 4) mod 24
  /\ Minute_of (Add d (k * (15 * Minute))) = (k mod 4) * 15.
Proof.
  intros [Hs Hn] Hk.
  assert (EA : Add d (k * (15 * Minute)) = mkTime (sec d + k * 900) 0).
  { unfold Add, Minute, Second, Millisecond, Microsecond, Nanosecond.
    rewrite Hn.
    replace (Z.rem (k * (15 * (60 * (1000 * (1000 * (1000 * 1))))))
               1000000000) with 0 by zlia.
    replace (Z.quot (k * (15 * (60 * (1000 * (1000 * (1000 * 1))))))
               1000000000) with (k * 900) by zlia.
    reflexivity. }
  rewrite EA. unfold Hour_of, Minute_of. cbn [sec].
  unfold secondsPerDay, secondsPerHour, secondsPerMinute in *.
  assert (Hh : ((sec d + k * 900) mod (24 * (60 * 60))) / (60 * 60)
               = (k / 4) mod 24) by zlia.
  assert (Hm : ((sec d + k * 900) mod (60 * 60)) / 60 = (k mod 4) * 15)
    by zlia.
  rewrite Hh, Hm. split; [zlia|]. split; [|split; reflexivity].
  assert (Hc : k mod 4 = 0 \/ k mod 4 = 1 \/ k mod 4 = 2 \/ k mod 4 = 3)
    by zlia.
  cbn [In]. destruct Hc as [-> | [-> | [-> | ->]]]; cbn; tauto.
Qed.

Lemma average_quarter (extractor : Entry -> option Time)
    (entries : list Entry) (def : Duration) :
  Z.of_nat (List.length entries) <= max_entries ->
  (exists k0, 0 <= k0 <= 96 /\ def = k0 * (15 * Minute)) ->
  exists k, 0 <= k <= 96 /\ average entries extractor def = k * (15 * Minute).
Proof.
  intros Hlen (k0 & Hk0 & Hdef).
  rewrite (average_no_overflow extractor entries def Hlen). cbv zeta.
  set (vs := set_values extractor entries).
  destruct (Z.eqb_spec (Z.of_nat (List.length vs)) 0) as [E | N].
  - exists k0. now split.
  - pose proof (sum_of_day_times_range vs) as Hsum.
    assert (Hn : 0 < Z.of_nat (List.length vs)) by lia.
    assert (Hd : 0 <= sum_of_day_times vs / Z.of_nat (List.length vs)
                 < 24 * Hour).
    { split.
      - apply Z.div_pos; lia.
      - apply Z.div_lt_upper_bound; [lia|].
        unfold Hour, Minute, Second, Millisecond, Microsecond, Nanosecond
          in *. nia. }
    destruct (Round_quarter _ Hd) as ((k & Ek) & Hup & Hdown).
    exists k. split; [|exact Ek].
    rewrite Ek in Hup, Hdown.
    unfold Hour, Minute, Second, Millisecond, Microsecond, Nanosecond in *.
    lia.
Qed.

(** X20. The time a fix proposes. For an entry at midnight of its date with
    exactly one time set, the time that [domagic] fills in for the other is
    a time of the day on a quarter of an hour: the average of the times of
    that kind that are set, rounded to 15 minutes and taken modulo 24
    hours, 17:00 for a missing departure and 09:00 for a missing arrival
    when no entry sets that time. *)
Theorem fix_on_the_quarter (entries : list Entry) (e : Entry) :
  Z.of_nat (List.length entries) <= max_entries ->
  is_midnight (date e) ->
  (forall i, in_ e = Some i -> out e = None ->
     exists h q,
       0 <= h <= 23 /\ In q [0; 15; 30; 45]
       /\ fixEntry e (averageIn entries) (averageOut entries)
          = Ok (Format (date e) prettyDate ++ ": arrived at "
                ++ hhmm (Hour_of i) (Minute_of i) ++ ", left at "
                ++ hhmm h q)%string
       /\ (set_values out entries = [] -> h = 17 /\ q = 0))
  /\ (forall o, in_ e = None -> out e = Some o ->
        exists h q,
          0 <= h <= 23 /\ In q [0; 15; 30; 45]
          /\ fixEntry e (averageIn entries) (averageOut entries)
             = Ok (Format (date e) prettyDate ++ ": arrived at "
                   ++ hhmm h q ++ ", left at "
                   ++ hhmm (Hour_of o) (Minute_of o))%string
          /\ (set_values in_ entries = [] -> h = 9 /\ q = 0)).
Proof.
  intros Hlen Hmid.
  assert (Hdef17 : exists k0, 0 <= k0 <= 96 /\ 17 * Hour = k0 * (15 * Minute))
    by (exists 68; split; [lia | reflexivity]).
  assert (Hdef9 : exists k0, 0 <= k0 <= 96 /\ 9 * Hour = k0 * (15 * Minute))
    by (exists 36; split; [lia | reflexivity]).
  split.
  - intros i Hi Ho. rewrite (fixEntry_in_only e _ _ i Hi Ho).
    destruct (average_quarter out entries (17 * Hour) Hlen Hdef17)
      as (k & Hk & Ek).
    fold (averageOut entries) in Ek.
    destruct (quarter_of_day (date e) k Hmid Hk) as (Hh & Hq & _).
    rewrite <- Ek in Hh, Hq.
    eexists _, _. split; [exact Hh|]. split; [exact Hq|].
    split; [reflexivity|].
    intros Hnone.
    assert (E17 : averageOut entries = 68 * (15 * Minute)).
    { unfold averageOut.
      rewrite (average_no_overflow out entries _ Hlen). cbv zeta.
      rewrite Hnone. reflexivity. }
    rewrite E17.
    destruct (quarter_of_day (date e) 68 Hmid ltac:(lia)) as (_ & _ & -> & ->).
    split; reflexivity.
  - intros o Hi Ho. rewrite (fixEntry_out_only e _ _ o Hi Ho).
    destruct (average_quarter in_ entries (9 * Hour) Hlen Hdef9)
      as (k & Hk & Ek).
    fold (averageIn entries) in Ek.
    destruct (quarter_of_day (date e) k Hmid Hk) as (Hh & Hq & _).
    rewrite <- Ek in Hh, Hq.
    eexists _, _. split; [exact Hh|]. split; [exact Hq|].
    split; [reflexivity|].
    intros Hnone.
    assert (E9 : averageIn entries = 36 * (15 * Minute)).
    { unfold averageIn.
      rewrite (average_no_overflow in_ entries _ Hlen). cbv zeta.
      rewrite Hnone. reflexivity. }
    rewrite E9.
    destruct (quarter_of_day (date e) 36 Hmid ltac:(lia)) as (_ & _ & -> & ->).
    split; reflexivity.
Qed.

Lemma fix_on_the_quarter_witness :
  (forall i, in_ unclosed_entry = Some i -> out unclosed_entry = None ->
     exists h q,
       0 <= h <= 23 /\ In q [0; 15; 30; 45]
       /\ fixEntry unclosed_entry (averageIn [unclosed_entry])
            (averageOut [unclosed_entry])
          = Ok (Format (date unclosed_entry) prettyDate ++ ": arrived at "
                ++ hhmm (Hour_of i) (Minute_of i) ++ ", left at "
                ++ hhmm h q)%string
       /\ (set_values out [unclosed_entry] = [] -> h = 17 /\ q = 0))
  /\ (forall o, in_ unclosed_entry = None -> out unclosed_entry = Some o ->
        exists h q,
          0 <= h <= 23 /\ In q [0; 15; 30; 45]
          /\ fixEntry unclosed_entry (averageIn [unclosed_entry])
               (averageOut [unclosed_entry])
             = Ok (Format (date unclosed_entry) prettyDate ++ ": arrived at "
                   ++ hhmm h q ++ ", left at "
                   ++ hhmm (Hour_of o) (Minute_of o))%string
          /\ (set_values in_ [unclosed_entry] = [] -> h = 9 /\ q = 0)).
Proof.
  apply (fix_on_the_quarter [unclosed_entry] unclosed_entry).
  - vm_compute. discriminate.
  - vm_compute. split; reflexivity.
Defined.

(* ================================================================== *)
(** ** Properties of the mail handler *)

Lemma strset_of_In (l : list string) (k : string) :
  (exists b, strset_of l k = Some b) <-> In k l.
Proof.
  unfold strset_of.
  assert (G : forall m, (exists b, fold_left strset_add l m k = Some b)
                        <-> (exists b, m k = Some b) \/ In k l).
  { induction l as [|w l IH]; intros m; cbn [fold_left In].
    - tauto.
    - rewrite IH. unfold strset_add at 1.
      destruct (String.eqb_spec k w) as [-> | N].
      + split; [intros _; right; now left | intros _; left; eauto].
      + split.
        * intros [H | H]; [now left | right; now right].
        * intros [H | [H | H]]; [now left | congruence | now right]. }
  rewrite G. unfold strset_empty. split.
  - intros [(b & Hb) | H]; [discriminate Hb | exact H].
  - intros H. now right.
Qed.

Lemma strset_of_lookup (l : list string) (k : string) :
  (strset_of l k = None <-> ~ In k l)
  /\ (forall b, strset_of l k = Some b -> In k l).
Proof.
  pose proof (strset_of_In l k) as H. destruct (strset_of l k) as [b|].
  - split.
    + split; [discriminate|]. intros N. exfalso. apply N, H. eauto.
    + intros b' _. apply H. eauto.
  - split.
    + split; [|reflexivity]. intros _ Hin. apply H in Hin.
      destruct Hin as (b & Hb). discriminate Hb.
    + discriminate.
Qed.

Lemma findMe_loop_first (domains dest : list string) (d : string) :
  findMe_loop (strset_of domains) dest = Some d <->
  exists i,
    nth_error dest i = Some d /\ In d domains
    /\ forall j d', (j < i)%nat -> nth_error dest j = Some d' ->
                    ~ In d' domains.
Proof.
  induction dest as [|x dest IH]; cbn [findMe_loop].
  - split; [discriminate|]. intros ([|i] & Hi & _); discriminate Hi.
  - destruct (strset_of_lookup domains x) as [Hnone Hsome].
    destruct (strset_of domains x) as [b|] eqn:Ex.
    + split.
      * intros [= <-]. exists O. split; [reflexivity|].
        split; [now apply (Hsome b)|]. intros j d' Hj. lia.
      * intros ([|i] & Hi & Hin & Hbefore).
        -- cbn in Hi. congruence.
        -- exfalso. apply (Hbefore O x); [lia | reflexivity |].
           now apply (Hsome b).
    + rewrite IH. split.
      * intros (i & Hi & Hin & Hbefore). exists (S i).
        split; [exact Hi|]. split; [exact Hin|].
        intros [|j] d' Hj Hd'.
        -- cbn in Hd'. injection Hd' as <-. now apply Hnone.
        -- apply (Hbefore j d'); [lia | exact Hd'].
      * intros ([|i] & Hi & Hin & Hbefore).
        -- cbn in Hi. injection Hi as <-. exfalso.
           now apply (proj1 Hnone eq_refl).
        -- exists i. split; [exact Hi|]. split; [exact Hin|].
           intros j d' Hj Hd'. apply (Hbefore (S j) d'); [lia | exact Hd'].
Qed.

(** X21. [findMe] returns the first destination that is, character for
    character, one of the configured addresses; it fails, with the error
    that quotes the destinations, exactly when no destination is one of
    them. *)
Theorem findMe_first (domains dest : list string) :
  (forall d,
      findMe domains dest = inr d <->
      exists i,
        nth_error dest i = Some d /\ In d domains
        /\ forall j d', (j < i)%nat -> nth_error dest j = Some d' ->
                        ~ In d' domains)
  /\ (forall e,
        findMe domains dest = inl e <->
        e = ErrSelfNotFound dest /\ forall d, In d dest -> ~ In d domains).
Proof.
  unfold findMe. split.
  - intros d. rewrite <- findMe_loop_first.
    destruct (findMe_loop (strset_of domains) dest).
    + split; intros [= ->]; reflexivity.
    + split; discriminate.
  - intros e.
    destruct (findMe_loop (strset_of domains) dest) as [d|] eqn:El.
    + split; [discriminate|]. intros [_ Hnone]. exfalso.
      apply findMe_loop_first in El. destruct El as (i & Hi & Hin & _).
      apply (Hnone d); [now apply nth_error_In with i | exact Hin].
    + split.
      * intros [= <-]. split; [reflexivity|]. intros d Hd Hin.
        apply In_nth_error in Hd. destruct Hd as (i & Hi).
        assert (Hex : exists i,
                   nth_error dest i = Some d /\ In d domains).
        { eauto. }
        clear i Hi.
        assert (Hfirst : exists d0, findMe_loop (strset_of domains) dest
                                    = Some d0).
        { clear El. destruct Hex as (i & Hi & _). revert i Hi.
          induction dest as [|x dest IH]; intros i Hi;
            [destruct i; discriminate Hi|].
          cbn [findMe_loop].
          destruct (strset_of domains x) as [b|] eqn:Ex; [eauto|].
          destruct i as [|i].
          - cbn in Hi. injection Hi as ->.
            apply (proj1 (strset_of_lookup domains d)) in Ex. contradiction.
          - now apply (IH i). }
        destruct Hfirst as (d0 & Hd0). congruence.
      * intros [-> _]. reflexivity.
Qed.

Lemma get_append_r (a b : string) (n : nat) :
  String.get (String.length a + n) (a ++ b) = String.get n b.
Proof. induction a as [|c a IH]; cbn; [reflexivity | exact IH]. Qed.

(** The last [c] of a string cuts it in two. *)
Lemma LastIndex_split (s : string) (c : ascii) :
  (LastIndex s c = -1 /\ free_of c s)
  \/ (exists a b,
        s = (a ++ String c b)%string /\ free_of c b
        /\ LastIndex s c = Z.of_nat (String.length a)).
Proof.
  induction s as [|x s IH].
  - left. split; [reflexivity|]. intros n. destruct n; discriminate.
  - cbn [LastIndex]. destruct IH as [[E F] | (a & b & -> & F & E)].
    + rewrite E. cbn [Z.leb Z.compare].
      destruct (Ascii.eqb_spec x c) as [-> | N].
      * right. exists EmptyString, s. split; [reflexivity|].
        split; [exact F | reflexivity].
      * left. split; [reflexivity|]. intros [|n]; cbn.
        -- congruence.
        -- apply F.
    + rewrite E.
      replace (0 <=? Z.of_nat (String.length a))%Z with true by lia.
      right. exists (String x a), b. split; [reflexivity|].
      split; [exact F|]. cbn [String.length]. lia.
Qed.

(** X22. [checkWhitelist] fails with the parse error exactly when the
    source address cannot be parsed. Otherwise it compares with the
    whitelist, character for character, the part of the address after its
    last "@", which holds no "@" (the whole address when it holds none),
    and accepts the sender exactly when that part is one of the whitelist
    entries. *)
Theorem checkWhitelist_domain (whitelist : list string)
    (ParseAddress : string -> option string) (source : string) :
  (checkWhitelist whitelist ParseAddress source = Some ErrParseSource
   <-> ParseAddress source = None)
  /\ forall address,
       ParseAddress source = Some address ->
       exists domain,
         free_of "@" domain
         /\ ((exists loc, address = (loc ++ "@" ++ domain)%string)
             \/ (address = domain /\ free_of "@" address))
         /\ (checkWhitelist whitelist ParseAddress source = None
             <-> In domain whitelist)
         /\ (~ In domain whitelist ->
             checkWhitelist whitelist ParseAddress source
             = Some (ErrSenderNotInWhitelist source domain)).
Proof.
  unfold checkWhitelist. cbv zeta. split.
  - destruct (ParseAddress source) as [address|].
    + destruct (strset_of whitelist _); split; discriminate.
    + tauto.
  - intros address ->.
    assert (Hdom : exists domain,
               drop (Z.to_nat (LastIndex address "@" + 1)) address = domain
               /\ free_of "@" domain
               /\ ((exists loc, address = (loc ++ "@" ++ domain)%string)
                   \/ (address = domain /\ free_of "@" address))).
    { destruct (LastIndex_split address "@")
        as [[E F] | (a & b & -> & F & E)]; rewrite E.
      - exists address. split; [apply drop_0|]. split; [exact F|].
        right. now split.
      - exists b. split.
        + replace (Z.to_nat (Z.of_nat (String.length a) + 1))
            with (String.length (a ++ "@"))
            by (rewrite length_append; cbn; lia).
          replace (a ++ String "@" b)%string with ((a ++ "@") ++ b)%string.
          * apply drop_append.
          * clear. induction a as [|c a IH]; cbn; [reflexivity|].
            now rewrite IH.
        + split; [exact F|]. left. exists a. reflexivity. }
    destruct Hdom as (domain & -> & F & Hshape).
    exists domain. split; [exact F|]. split; [exact Hshape|].
    destruct (strset_of_lookup whitelist domain) as [Hnone Hsome].
    destruct (strset_of whitelist domain) as [b|].
    + split.
      * split; [intros _; now apply (Hsome b) | reflexivity].
      * intros N. exfalso. apply N. now apply (Hsome b).
    + split.
      * split; [discriminate|]. intros Hin. exfalso.
        now apply (proj1 Hnone eq_refl).
      * reflexivity.
Qed.

Lemma extract_loop_first (wanted : Part -> bool) (parts : list Part) :
  forall (k : nat) (p : Part),
    (k <= 20)%nat ->
    (extract_loop wanted parts (Z.of_nat k) = Some p <->
     exists i,
       (k + i < 20)%nat /\ nth_error parts i = Some p /\ wanted p = true
       /\ forall j q, (j < i)%nat -> nth_error parts j = Some q ->
                      wanted q = false).
Proof.
  induction parts as [|x parts IH]; intros k p Hk; cbn [extract_loop].
  - split; [discriminate|]. intros ([|i] & _ & Hi & _); discriminate Hi.
  - destruct (Z.ltb_spec (Z.of_nat k) 20) as [Hlt | Hge].
    + assert (E : Int64.add (Z.of_nat k) 1 = Z.of_nat (S k)).
      { unfold Int64.add. rewrite wrap_small; lia. }
      rewrite E. destruct (wanted x) eqn:Ew.
      * split.
        -- intros [= <-]. exists O. split; [lia|]. split; [reflexivity|].
           split; [exact Ew|]. intros j q Hj. lia.
        -- intros ([|i] & Hlt' & Hi & Hw & Hbefore).
           ++ cbn in Hi. congruence.
           ++ specialize (Hbefore O x ltac:(lia) eq_refl). congruence.
      * rewrite IH by lia. split.
        -- intros (i & Hlt' & Hi & Hw & Hbefore). exists (S i).
           split; [lia|]. split; [exact Hi|]. split; [exact Hw|].
           intros [|j] q Hj Hq.
           ++ cbn in Hq. now injection Hq as <-.
           ++ apply (Hbefore j q); [lia | exact Hq].
        -- intros ([|i] & Hlt' & Hi & Hw & Hbefore).
           ++ cbn in Hi. injection Hi as <-. congruence.
           ++ exists i. split; [lia|]. split; [exact Hi|].
              split; [exact Hw|]. intros j q Hj Hq.
              apply (Hbefore (S j) q); [lia | exact Hq].
    + split; [discriminate|]. intros (i & Hlt' & _). lia.
Qed.

(** X23. [extractMHT] and [extractPNG] look at the first 20 parts of the
    message only. On a message of the expected media type each returns
    the first part that passes its test, provided it is among the first
    20; a part that comes later is never returned, and the attachment is
    then reported as missing. *)
Theorem extract_first_of_twenty (media : option string) (parts : list Part) :
  (forall p,
      extractMHT media parts = inr p <->
      media = Some "multipart/mixed"%string
      /\ exists i,
           (i < 20)%nat /\ nth_error parts i = Some p /\ isMHT p = true
           /\ forall j q, (j < i)%nat -> nth_error parts j = Some q ->
                          isMHT q = false)
  /\ (forall p,
        extractPNG media parts = inr p <->
        media = Some "multipart/related"%string
        /\ exists i,
             (i < 20)%nat /\ nth_error parts i = Some p /\ isPNG p = true
             /\ forall j q, (j < i)%nat -> nth_error parts j = Some q ->
                            isPNG q = false)
  /\ (media = Some "multipart/mixed"%string ->
      (forall i q, (i < 20)%nat -> nth_error parts i = Some q ->
                   isMHT q = false) ->
      extractMHT media parts = inl ErrNoAttachment)
  /\ (media = Some "multipart/related"%string ->
      (forall i q, (i < 20)%nat -> nth_error parts i = Some q ->
                   isPNG q = false) ->
      extractPNG media parts = inl ErrNoPNG).
Proof.
  assert (Hnone : forall wanted,
             (forall i q, (i < 20)%nat -> nth_error parts i = Some q ->
                          wanted q = false) ->
             extract_loop wanted parts 0 = None).
  { intros wanted Hall.
    destruct (extract_loop wanted parts 0) as [p|] eqn:E; [|reflexivity].
    apply (extract_loop_first wanted parts 0 p ltac:(lia)) in E.
    destruct E as (i & Hi & Hn & Hw & _).
    rewrite (Hall i p Hi Hn) in Hw. discriminate Hw. }
  split; [|split; [|split]].
  - intros p. unfold extractMHT. destruct media as [mt|].
    + destruct (String.eqb_spec mt "multipart/mixed") as [-> | N]; cbn [negb].
      * pose proof (extract_loop_first isMHT parts 0 p ltac:(lia)) as H.
        cbn [Z.of_nat Nat.add] in H.
        destruct (extract_loop isMHT parts 0) as [found|].
        -- split.
           ++ intros [= ->]. split; [reflexivity|]. now apply H.
           ++ intros [_ Hex]. apply H in Hex. congruence.
        -- split; [discriminate|]. intros [_ Hex]. apply H in Hex.
           discriminate Hex.
      * split; [discriminate|]. intros [[= E] _]. congruence.
    + split; [discriminate|]. intros [E _]. discriminate E.
  - intros p. unfold extractPNG. destruct media as [mt|].
    + destruct (String.eqb_spec mt "multipart/related") as [-> | N];
        cbn [negb].
      * pose proof (extract_loop_first isPNG parts 0 p ltac:(lia)) as H.
        cbn [Z.of_nat Nat.add] in H.
        destruct (extract_loop isPNG parts 0) as [found|].
        -- split.
           ++ intros [= ->]. split; [reflexivity|]. now apply H.
           ++ intros [_ Hex]. apply H in Hex. congruence.
        -- split; [discriminate|]. intros [_ Hex]. apply H in Hex.
           discriminate Hex.
      * split; [discriminate|]. intros [[= E] _]. congruence.
    + split; [discriminate|]. intros [E _]. discriminate E.
  - intros -> Hall. unfold extractMHT. cbn [negb String.eqb].
    rewrite (Hnone isMHT Hall).
    destruct (String.eqb_spec "multipart/mixed" "multipart/mixed");
      [reflexivity | congruence].
  - intros -> Hall. unfold extractPNG.
    rewrite (Hnone isPNG Hall).
    destruct (String.eqb_spec "multipart/related" "multipart/related");
      [reflexivity | congruence].
Qed.

(** The timetable is missed when twenty other attachments come first. *)
Example extractMHT_twenty_first_part :
  extractMHT (Some "multipart/mixed"%string) (repeat other_part 20 ++ [mht_part])
  = inl ErrNoAttachment
  /\ extractMHT (Some "multipart/mixed"%string) (repeat other_part 19 ++ [mht_part])
     = inr mht_part.
Proof. split; reflexivity. Qed.

(* ================================================================== *)
(** ** The dates [parseDate] accepts *)

(** [Parse] under [dateFormat] on eight characters. *)
Lemma Parse_dateFormat_eight (c0 c1 c2 c3 c4 c5 c6 c7 : ascii) (t : Time) :
  Parse dateFormat
    (String c0 (String c1 (String c2 (String c3
       (String c4 (String c5 (String c6 (String c7 EmptyString))))))))
  = inr t <->
  (is_digit_char c0 /\ is_digit_char c1 /\ is_digit_char c2
   /\ is_digit_char c3 /\ is_digit_char c4 /\ is_digit_char c5
   /\ is_digit_char c6 /\ is_digit_char c7)
  /\ 1 <= digit_value c2 * 10 + digit_value c3 <= 12
  /\ 1 <= digit_value c0 * 10 + digit_value c1
     <= daysIn (digit_value c2 * 10 + digit_value c3)
          (digit_value c4 * 1000 + digit_value c5 * 100
           + digit_value c6 * 10 + digit_value c7)
  /\ t = Date (digit_value c4 * 1000 + digit_value c5 * 100
               + digit_value c6 * 10 + digit_value c7)
           (digit_value c2 * 10 + digit_value c3)
           (digit_value c0 * 10 + digit_value c1) 0 0.
Proof.
  unfold digit_value, Parse, dateFormat. cbn [parse_chunks]. split.
  - destruct (getnum _ true) as [[d v1]|] eqn:Ed; [|discriminate].
    apply getnum_fixed in Ed. destruct Ed as (a0 & a1 & Es & Ha0 & Ha1 & ->).
    injection Es as <- <- <-.
    destruct (getnum _ true) as [[m v2]|] eqn:Em; [|discriminate].
    apply getnum_fixed in Em. destruct Em as (b0 & b1 & Es & Hb0 & Hb1 & ->).
    injection Es as <- <- <-.
    match goal with
    | |- context [if ?c then inl (OutOfRange "month") else _] =>
        destruct c eqn:Emr; [discriminate|]
    end.
    destruct (getyear _) as [[y v3]|] eqn:Ey; [|discriminate].
    apply getyear_four in Ey.
    destruct Ey as (y0 & y1 & y2 & y3 & Es & Hy0 & Hy1 & Hy2 & Hy3 & ->).
    injection Es as <- <- <- <- <-.
    cbn [parse_chunks String.length Nat.eqb f_year f_month f_day f_hour f_min
         fields0].
    match goal with
    | |- context [if ?c then inl (OutOfRange "day") else _] =>
        destruct c eqn:Edr; [discriminate|]
    end.
    intros [= <-].
    apply orb_false_iff in Emr, Edr.
    destruct Emr as [A B], Edr as [C D].
    apply Z.leb_gt in A. apply Z.ltb_ge in B, C, D.
    split; [tauto|]. split; [lia|]. split; [lia | reflexivity].
  - intros ((H0 & H1 & H2 & H3 & H4 & H5 & H6 & H7) & Hm & Hd & ->).
    rewrite (proj2 (getnum_fixed _ _ _)
               (ex_intro _ c0 (ex_intro _ c1
                  (conj eq_refl (conj H0 (conj H1 eq_refl)))))).
    rewrite (proj2 (getnum_fixed _ _ _)
               (ex_intro _ c2 (ex_intro _ c3
                  (conj eq_refl (conj H2 (conj H3 eq_refl)))))).
    match goal with
    | |- context [if ?c then inl (OutOfRange "month") else _] =>
        replace c with false by (symmetry; apply orb_false_iff; lia)
    end.
    rewrite (proj2 (getyear_four _ _ _)
               (ex_intro _ c4 (ex_intro _ c5 (ex_intro _ c6 (ex_intro _ c7
                  (conj eq_refl (conj H4 (conj H5 (conj H6
                     (conj H7 eq_refl)))))))))).
    cbn [parse_chunks String.length Nat.eqb f_year f_month f_day f_hour f_min
         fields0].
    match goal with
    | |- context [if ?c then inl (OutOfRange "day") else _] =>
        replace c with false by (symmetry; apply orb_false_iff; lia)
    end.
    reflexivity.
Qed.

(** X24. The dates [parseDate] accepts on 10 and on 9 characters. Of a
    string of 10 characters the characters 2 and 5 are not looked at, of a
    string of 9 characters the character 4 is not, whatever they are; the
    eight others are read as day, month and year, and the string is
    accepted exactly when they are digits that form a date of the calendar,
    which is then the date returned. *)
Theorem parseDate_accepts (c0 c1 c2 c3 c4 c5 c6 c7 x y : ascii) (t : Time) :
  let s10 :=
    String c0 (String c1 (String x (String c2 (String c3 (String y
      (String c4 (String c5 (String c6 (String c7 EmptyString))))))))) in
  let s9 :=
    String c0 (String c1 (String c2 (String c3 (String x
      (String c4 (String c5 (String c6 (String c7 EmptyString)))))))) in
  let accepted :=
    (is_digit_char c0 /\ is_digit_char c1 /\ is_digit_char c2
     /\ is_digit_char c3 /\ is_digit_char c4 /\ is_digit_char c5
     /\ is_digit_char c6 /\ is_digit_char c7)
    /\ 1 <= digit_value c2 * 10 + digit_value c3 <= 12
    /\ 1 <= digit_value c0 * 10 + digit_value c1
       <= daysIn (digit_value c2 * 10 + digit_value c3)
            (digit_value c4 * 1000 + digit_value c5 * 100
             + digit_value c6 * 10 + digit_value c7)
    /\ t = Date (digit_value c4 * 1000 + digit_value c5 * 100
                 + digit_value c6 * 10 + digit_value c7)
             (digit_value c2 * 10 + digit_value c3)
             (digit_value c0 * 10 + digit_value c1) 0 0 in
  (parseDate s10 = Ok t <-> accepted)
  /\ (parseDate s9 = Ok t <-> accepted)
  /\ (forall e, parseDate s10 = Err e \/ parseDate s9 = Err e ->
                exists pe, e = ErrFailedToParseDate pe).
Proof.
  cbv zeta.
  rewrite <- (Parse_dateFormat_eight c0 c1 c2 c3 c4 c5 c6 c7 t).
  unfold parseDate.
  cbn [parseDate_rec String.length slice drop substring append Nat.sub].
  destruct (Parse dateFormat _) as [pe|t'].
  - split; [split; discriminate|]. split; [split; discriminate|].
    intros e [[= <-] | [= <-]]; eauto.
  - split; [split; intros [= ->]; reflexivity|].
    split; [split; intros [= ->]; reflexivity|].
    intros e [E | E]; discriminate E.
Qed.
